(** * Ward background service worker: per-tab analysis orchestration

    A shallow embedding of [src/extension/background.js]: the result cache,
    the ignore-rule matcher, the registry of in-flight analyses, the mode
    controller and the [analyzeContent] message handler, with every callback
    of the service worker written as a function on an explicit [World].

    JavaScript runs each callback to completion, so one callback is one
    transition.  The points where the source suspends (an [await], a
    [.then], a [setTimeout], a [chrome.tabs.get] callback) are the places
    where the model stores a pending continuation in the [World] and lets
    any other event run before it is resumed. *)

From stdpp Require Import gmap strings list fin_maps pretty.
From Stdlib Require Import ZArith Ascii String.

Local Open Scope string_scope.

(** ** JavaScript string primitives used by the source *)

(** [s.includes(needle)] *)
Definition includes (s needle : string) : bool :=
  match String.index 0 needle s with
  | Some _ => true
  | None => false
  end.

(** [s.startsWith(p)] *)
Definition startsWith (s p : string) : bool := String.prefix p s.

(** ** Data model *)

(** The object every path hands to [sendResponse]; [error] is only set by
    the watchdog and by the [.catch] handler. *)
Record AnalysisResult := {
  error : option string;
  isMalicious : bool;
  analysis : string;
  judgment : string;
  method : string;
  mode : string;
  contentLength : nat;
}.

(** What [initializeLocalMode] / [initializeCloudMode] return.  The session
    handles are opaque; only their truthiness and [availability] are read. *)
Record Sessions := {
  analyzerSession : option nat;
  judgeSession : option nat;
  availability : option string;
}.

(** One element of the stored [ignoreRules] array. *)
Record IgnoreRule := {
  pattern : string;
  type : string;
  addedAt : Z;
}.

(** The [analysisTracker] object literal.  [timeout] holds the handle that
    [setTimeout] returned; whether that timer is still armed is state of the
    runtime ([timers] below), not of the object. *)
Record Tracker := {
  cancelled : bool;
  timeout : option nat;
  startTime : Z;
}.

(** The two detector entry points are imported from modules outside this
    file; a call to one of them is recorded with its arguments. *)
Inductive BackendCall :=
| AnalyzeCloud (sessions : option Sessions) (content url : string)
| AnalyzeLocal (analyzer judge : option nat) (content url : string).

(** How the promise of a detector call settles. *)
Inductive BackendOutcome :=
| Fulfilled (result : AnalysisResult)
| Rejected (message : string).

(** Where one analysis that missed the cache currently stands. *)
Inductive Stage :=
| AwaitingBackend (call : BackendCall)
| AwaitingTab (result : AnalysisResult)
| Finished.

(** The variables captured by the closures of one [analyzeContent] request
    that missed the cache (the watchdog callback, the [.then] / [.catch]
    callbacks and the [chrome.tabs.get] callback share them), together with
    the [analysisTracker] object itself.  The registry stores a reference to
    that object: the index of this record in [activations]. *)
Record Activation := {
  a_rid : nat;            (* which [sendResponse] *)
  a_tabId : Z;            (* [tabId] *)
  a_url : string;         (* [url] *)
  a_content : string;     (* [content] *)
  a_cacheKey : string;    (* [cacheKey] *)
  a_tracker : Tracker;    (* [analysisTracker] *)
  a_stage : Stage;
}.

(** An [analyzeContent] message: [sender.tab.id], [sender.tab.url],
    [request.content], [request.skipped], and the identity of its
    [sendResponse]. *)
Record Request := {
  rq_id : nat;
  rq_tabId : Z;
  rq_tabUrl : string;
  rq_content : string;
  rq_skipped : bool;
}.

(** The [result] stored under [detection_<tabId>]: a full result, or the
    four-field placeholder [tabs.onUpdated] writes for system pages
    (judgment ['SKIPPED'], method ['skipped'], no [mode], no
    [contentLength]). *)
Inductive StoredResult :=
| StoredAnalysis (result : AnalysisResult)
| StoredSystemPage.

(** The value stored under [detection_<tabId>]. *)
Record Detection := {
  det_result : StoredResult;
  det_url : option string;
  det_timestamp : Z;
}.

(** The three icon sets [chrome.action.setIcon] is called with. *)
Inductive Icon := IconDanger | IconSkipped | IconSafe.

(** A running [initializeAI]: waiting for the stored mode, or waiting for
    the detector's initialiser on the branch it took. *)
Inductive InitStage :=
| InitLoading
| InitRunning (cloud : bool)
| InitFinished.

(** How a detector initialiser settles. *)
Inductive InitOutcome :=
| InitReturned (sessions : option Sessions)
| InitThrew.

(** ** The world: module variables, browser state, pending callbacks *)

Record World := mkWorld {
  (* module-level variables of background.js *)
  currentSessions : option Sessions;
  activeMode : string;
  isAiAvailable : bool;
  aiAvailabilityStatus : string;
  DETECTION_CACHE : gmap string AnalysisResult;
  ACTIVE_ANALYSES : gmap Z nat;
  SCANNING_ANIMATIONS : gset Z;
  (* objects and closures allocated by the analyzeContent handler *)
  activations : list Activation;
  (* browser: armed timers, chrome.storage.local, action icon *)
  timers : gset nat;
  stored_activeMode : option string;
  stored_ignoreRules : option (list IgnoreRule);
  stored_detections : gmap Z Detection;
  badge : gmap Z Icon;
  (* message channel: every call of a sendResponse, in order *)
  responses : list (nat * AnalysisResult);
  next_rid : nat;
  (* promises not yet settled *)
  pending_ignore : gmap nat Request;
  inits : list InitStage;
}.

Definition set_currentSessions (v : option Sessions) (s : World) : World :=
  let '(mkWorld _ f2 f3 f4 f5 f6 f7 f8 f9 f10 f11 f12 f13 f14 f15 f16 f17) := s in
  mkWorld v f2 f3 f4 f5 f6 f7 f8 f9 f10 f11 f12 f13 f14 f15 f16 f17.
Definition set_activeMode (v : string) (s : World) : World :=
  let '(mkWorld f1 _ f3 f4 f5 f6 f7 f8 f9 f10 f11 f12 f13 f14 f15 f16 f17) := s in
  mkWorld f1 v f3 f4 f5 f6 f7 f8 f9 f10 f11 f12 f13 f14 f15 f16 f17.
Definition set_isAiAvailable (v : bool) (s : World) : World :=
  let '(mkWorld f1 f2 _ f4 f5 f6 f7 f8 f9 f10 f11 f12 f13 f14 f15 f16 f17) := s in
  mkWorld f1 f2 v f4 f5 f6 f7 f8 f9 f10 f11 f12 f13 f14 f15 f16 f17.
Definition set_aiAvailabilityStatus (v : string) (s : World) : World :=
  let '(mkWorld f1 f2 f3 _ f5 f6 f7 f8 f9 f10 f11 f12 f13 f14 f15 f16 f17) := s in
  mkWorld f1 f2 f3 v f5 f6 f7 f8 f9 f10 f11 f12 f13 f14 f15 f16 f17.
Definition set_DETECTION_CACHE (v : gmap string AnalysisResult) (s : World) : World :=
  let '(mkWorld f1 f2 f3 f4 _ f6 f7 f8 f9 f10 f11 f12 f13 f14 f15 f16 f17) := s in
  mkWorld f1 f2 f3 f4 v f6 f7 f8 f9 f10 f11 f12 f13 f14 f15 f16 f17.
Definition set_ACTIVE_ANALYSES (v : gmap Z nat) (s : World) : World :=
  let '(mkWorld f1 f2 f3 f4 f5 _ f7 f8 f9 f10 f11 f12 f13 f14 f15 f16 f17) := s in
  mkWorld f1 f2 f3 f4 f5 v f7 f8 f9 f10 f11 f12 f13 f14 f15 f16 f17.
Definition set_SCANNING_ANIMATIONS (v : gset Z) (s : World) : World :=
  let '(mkWorld f1 f2 f3 f4 f5 f6 _ f8 f9 f10 f11 f12 f13 f14 f15 f16 f17) := s in
  mkWorld f1 f2 f3 f4 f5 f6 v f8 f9 f10 f11 f12 f13 f14 f15 f16 f17.
Definition set_activations (v : list Activation) (s : World) : World :=
  let '(mkWorld f1 f2 f3 f4 f5 f6 f7 _ f9 f10 f11 f12 f13 f14 f15 f16 f17) := s in
  mkWorld f1 f2 f3 f4 f5 f6 f7 v f9 f10 f11 f12 f13 f14 f15 f16 f17.
Definition set_timers (v : gset nat) (s : World) : World :=
  let '(mkWorld f1 f2 f3 f4 f5 f6 f7 f8 _ f10 f11 f12 f13 f14 f15 f16 f17) := s in
  mkWorld f1 f2 f3 f4 f5 f6 f7 f8 v f10 f11 f12 f13 f14 f15 f16 f17.
Definition set_stored_activeMode (v : option string) (s : World) : World :=
  let '(mkWorld f1 f2 f3 f4 f5 f6 f7 f8 f9 _ f11 f12 f13 f14 f15 f16 f17) := s in
  mkWorld f1 f2 f3 f4 f5 f6 f7 f8 f9 v f11 f12 f13 f14 f15 f16 f17.
Definition set_stored_ignoreRules (v : option (list IgnoreRule)) (s : World) : World :=
  let '(mkWorld f1 f2 f3 f4 f5 f6 f7 f8 f9 f10 _ f12 f13 f14 f15 f16 f17) := s in
  mkWorld f1 f2 f3 f4 f5 f6 f7 f8 f9 f10 v f12 f13 f14 f15 f16 f17.
Definition set_stored_detections (v : gmap Z Detection) (s : World) : World :=
  let '(mkWorld f1 f2 f3 f4 f5 f6 f7 f8 f9 f10 f11 _ f13 f14 f15 f16 f17) := s in
  mkWorld f1 f2 f3 f4 f5 f6 f7 f8 f9 f10 f11 v f13 f14 f15 f16 f17.
Definition set_badge (v : gmap Z Icon) (s : World) : World :=
  let '(mkWorld f1 f2 f3 f4 f5 f6 f7 f8 f9 f10 f11 f12 _ f14 f15 f16 f17) := s in
  mkWorld f1 f2 f3 f4 f5 f6 f7 f8 f9 f10 f11 f12 v f14 f15 f16 f17.
Definition set_responses (v : list (nat * AnalysisResult)) (s : World) : World :=
  let '(mkWorld f1 f2 f3 f4 f5 f6 f7 f8 f9 f10 f11 f12 f13 _ f15 f16 f17) := s in
  mkWorld f1 f2 f3 f4 f5 f6 f7 f8 f9 f10 f11 f12 f13 v f15 f16 f17.
Definition set_next_rid (v : nat) (s : World) : World :=
  let '(mkWorld f1 f2 f3 f4 f5 f6 f7 f8 f9 f10 f11 f12 f13 f14 _ f16 f17) := s in
  mkWorld f1 f2 f3 f4 f5 f6 f7 f8 f9 f10 f11 f12 f13 f14 v f16 f17.
Definition set_pending_ignore (v : gmap nat Request) (s : World) : World :=
  let '(mkWorld f1 f2 f3 f4 f5 f6 f7 f8 f9 f10 f11 f12 f13 f14 f15 _ f17) := s in
  mkWorld f1 f2 f3 f4 f5 f6 f7 f8 f9 f10 f11 f12 f13 f14 f15 v f17.
Definition set_inits (v : list InitStage) (s : World) : World :=
  let '(mkWorld f1 f2 f3 f4 f5 f6 f7 f8 f9 f10 f11 f12 f13 f14 f15 f16 _) := s in
  mkWorld f1 f2 f3 f4 f5 f6 f7 f8 f9 f10 f11 f12 f13 f14 f15 f16 v.

(** The state right after the top-level statements of the script ran:
    [initializeAI()] has been called and is waiting for storage. *)
Definition initial_world : World :=
  mkWorld None "cloud" false "initializing" ∅ ∅ ∅ [] ∅ None None ∅ ∅ [] 0 ∅ [InitLoading].

(** ** Result cache *)

(** [getCacheKey(url, content, tabId)]; it reads the module variable
    [activeMode]. *)
Definition getCacheKey (url content : string) (tabId : Z) (s : World) : string :=
  let contentHash := String.substring 0 500 content in
  "tab" +:+ pretty tabId +:+ ":" +:+ url +:+ ":" +:+ contentHash +:+ ":" +:+ activeMode s.

(** The loop shared by the [clearTabCache] message and [tabs.onRemoved]:
    delete every key that starts with [tab<tabId>:]. *)
Definition tab_prefix (tabId : Z) : string := "tab" +:+ pretty tabId +:+ ":".

Definition delete_tab_keys (tabId : Z) (cache : gmap string AnalysisResult)
  : gmap string AnalysisResult :=
  filter (λ kv, startsWith kv.1 (tab_prefix tabId) = false) cache.

(** ** Mode controller *)

(** An [async] function runs synchronously up to its first [await]:
    [analyzeContent] either returns at once or reaches a detector call. *)
Inductive AnalyzeStep :=
| Resolved (result : AnalysisResult)
| Invoke (call : BackendCall).

Definition unavailable_result (s : World) (content : string) : AnalysisResult :=
  {| error := None;
     isMalicious := false;
     analysis := "AI detection unavailable. Please check settings.";
     judgment := "ERROR";
     method := "error";
     mode := activeMode s;
     contentLength := String.length content |}.

Definition configuration_result (content : string) : AnalysisResult :=
  {| error := None;
     isMalicious := false;
     analysis := "Cloud Mode requires configuration. Please set API URL in extension settings.";
     judgment := "CONFIGURATION_ERROR";
     method := "error";
     mode := "cloud";
     contentLength := String.length content |}.

(** The object built in the [catch] block of [analyzeContent]. *)
Definition caught_result (s : World) (content message : string) : AnalysisResult :=
  {| error := None;
     isMalicious := false;
     analysis := "Analysis error: " +:+ message;
     judgment := "ERROR";
     method := "error";
     mode := activeMode s;
     contentLength := String.length content |}.

(** The message of the TypeError raised by [currentSessions.analyzerSession]
    when [currentSessions] is [null]. *)
Definition null_sessions_message : string :=
  "Cannot read properties of null (reading 'analyzerSession')".

(** [analyzeContent(content, url)] up to the detector call.  In the local
    branch the arguments are evaluated before the call, so a [null]
    [currentSessions] throws inside the [try] and no detector runs. *)
Definition analyzeContent (content url : string) (s : World) : AnalyzeStep :=
  if negb (isAiAvailable s)
     && negb (bool_decide (aiAvailabilityStatus s = "configure-required"))
  then Resolved (unavailable_result s content)
  else if bool_decide (activeMode s = "cloud")
          && bool_decide (aiAvailabilityStatus s = "configure-required")
  then Resolved (configuration_result content)
  else if bool_decide (activeMode s = "cloud")
  then Invoke (AnalyzeCloud (currentSessions s) content url)
  else match currentSessions s with
       | Some ss => Invoke (AnalyzeLocal (analyzerSession ss) (judgeSession ss) content url)
       | None => Resolved (caught_result s content null_sessions_message)
       end.

(** [analyzeContent] after the awaited detector call settled: its value is
    returned, its exception is turned into a result by the [catch] block. *)
Definition analyzeContent_resume (content : string) (o : BackendOutcome) (s : World)
  : AnalysisResult :=
  match o with
  | Fulfilled result => result
  | Rejected message => caught_result s content message
  end.

(** [switchMode(newMode)] up to [await initializeAI()]: drop the sessions,
    clear the cache, set and persist the mode, start an initialisation. *)
Definition switchMode (newMode : string) (s : World) : World :=
  let s := set_currentSessions None s in
  let s := set_DETECTION_CACHE ∅ s in
  let s := set_activeMode newMode s in
  let s := set_stored_activeMode (Some newMode) s in
  set_inits (inits s ++ [InitLoading]) s.

(** [x || 'cloud'] on a stored string. *)
Definition or_default (v : option string) (d : string) : string :=
  match v with
  | Some x => if bool_decide (x = "") then d else x
  | None => d
  end.

(** [initializeAI] from the stored mode to the call of the initialiser. *)
Definition initializeAI_loaded (i : nat) (s : World) : World :=
  let compat := bool_decide (stored_activeMode s = Some "compatibility") in
  let savedMode := if compat then Some "cloud" else stored_activeMode s in
  let s := if compat then set_stored_activeMode (Some "cloud") s else s in
  let s := set_activeMode (or_default savedMode "cloud") s in
  set_inits (<[i := InitRunning (bool_decide (activeMode s = "cloud"))]> (inits s)) s.

(** [initializeAI] after the initialiser settled.  Reading [.availability]
    of a [null] result throws; the [catch] block only clears the flag. *)
Definition initializeAI_done (i : nat) (cloud : bool) (o : InitOutcome) (s : World) : World :=
  let s := set_inits (<[i := InitFinished]> (inits s)) s in
  match o with
  | InitThrew => set_isAiAvailable false s
  | InitReturned None => set_isAiAvailable false (set_currentSessions None s)
  | InitReturned (Some ss) =>
      let s := set_currentSessions (Some ss) s in
      let s := set_isAiAvailable
                 (if cloud then bool_decide (availability ss = Some "readily")
                  else bool_decide (is_Some (analyzerSession ss))
                       && bool_decide (is_Some (judgeSession ss))) s in
      set_aiAvailabilityStatus (or_default (availability ss) "error") s
  end.

(** ** Ignore rule matcher *)

(** A statement either completes with a value or throws. *)
Inductive Completion (A : Type) :=
| Normal (a : A)
| Throw (message : string).
Arguments Normal {A} a.
Arguments Throw {A} message.

Section IgnoreRules.
(** [new URL(url).hostname]: [None] when the constructor throws. *)
Variable hostname : string → option string.

(** The [for (const rule of ignoreRules)] loop and the [return false]
    after it. *)
Fixpoint ignoreRules_loop (url : string) (rules : list IgnoreRule) : Completion bool :=
  match rules with
  | [] => Normal false
  | rule :: rest =>
      if bool_decide (type rule = "url") && bool_decide (url = pattern rule)
      then Normal true
      else if bool_decide (type rule = "domain")
      then match hostname url with
           | None => Throw "Invalid URL"
           | Some h => if bool_decide (h = pattern rule) then Normal true
                       else ignoreRules_loop url rest
           end
      else ignoreRules_loop url rest
  end.

Definition is_internal_page (url : string) : bool :=
  includes url "chrome-extension://"
  && (includes url "/settings.html" || includes url "/popup.html").

(** The body of the [try] block; [{ ignoreRules = [] }] defaults a missing
    stored list. *)
Definition shouldIgnoreUrl_try (url : string) (stored : option (list IgnoreRule))
  : Completion bool :=
  if is_internal_page url then Normal true
  else ignoreRules_loop url (default [] stored).

(** [shouldIgnoreUrl(url)]: the [catch] block returns [false]. *)
Definition shouldIgnoreUrl (url : string) (stored : option (list IgnoreRule)) : bool :=
  match shouldIgnoreUrl_try url stored with
  | Normal b => b
  | Throw _ => false
  end.
End IgnoreRules.

(** ** Browser effects *)

(** [sendResponse(result)] of request [rid]. *)
Definition sendResponse (rid : nat) (result : AnalysisResult) (s : World) : World :=
  set_responses (responses s ++ [(rid, result)]) s.

(** [chrome.storage.local.set({ [`detection_${tabId}`]: d })] *)
Definition store_detection (tabId : Z) (d : Detection) (s : World) : World :=
  set_stored_detections (<[tabId := d]> (stored_detections s)) s.

(** [chrome.storage.local.remove([`detection_${tabId}`])] *)
Definition remove_detection (tabId : Z) (s : World) : World :=
  set_stored_detections (delete tabId (stored_detections s)) s.

(** [clearTimeout(handle)] *)
Definition clearTimeout (handle : option nat) (s : World) : World :=
  match handle with
  | Some t => set_timers (timers s ∖ {[t]}) s
  | None => s
  end.

Definition stopScanningAnimation (tabId : Z) (s : World) : World :=
  set_SCANNING_ANIMATIONS (SCANNING_ANIMATIONS s ∖ {[tabId]}) s.

Definition startScanningAnimation (tabId : Z) (s : World) : World :=
  let s := stopScanningAnimation tabId s in
  set_SCANNING_ANIMATIONS ({[tabId]} ∪ SCANNING_ANIMATIONS s) s.

(** [updateBadge(tabId, isMalicious, result = null)] *)
Definition badge_icon (malicious : bool) (result : option AnalysisResult) : Icon :=
  if match result with
     | Some r => bool_decide (judgment r = "QUOTA_EXCEEDED")
     | None => false
     end
  then IconDanger
  else if malicious then IconDanger
  else if match result with
          | Some r => bool_decide (judgment r = "SKIPPED") || bool_decide (method r = "skipped")
          | None => false
          end
  then IconSkipped
  else IconSafe.

Definition updateBadge (tabId : Z) (malicious : bool) (result : option AnalysisResult)
    (s : World) : World :=
  set_badge (<[tabId := badge_icon malicious result]> (badge s)) s.

(** ** Analysis tracker registry *)

Definition set_cancelled (a : Activation) : Activation :=
  {| a_rid := a_rid a; a_tabId := a_tabId a; a_url := a_url a;
     a_content := a_content a; a_cacheKey := a_cacheKey a;
     a_tracker := {| cancelled := true;
                     timeout := timeout (a_tracker a);
                     startTime := startTime (a_tracker a) |};
     a_stage := a_stage a |}.

Definition set_stage (st : Stage) (a : Activation) : Activation :=
  {| a_rid := a_rid a; a_tabId := a_tabId a; a_url := a_url a;
     a_content := a_content a; a_cacheKey := a_cacheKey a;
     a_tracker := a_tracker a; a_stage := st |}.

(** [t.cancelled = true; clearTimeout(t.timeout)] on the tracker object
    referenced by [k]. *)
Definition cancel_tracker (k : nat) (s : World) : World :=
  match activations s !! k with
  | Some a =>
      let s := set_activations (<[k := set_cancelled a]> (activations s)) s in
      clearTimeout (timeout (a_tracker a)) s
  | None => s
  end.

(** The block repeated in [tabs.onRemoved] and [tabs.onUpdated]:
    [if (ACTIVE_ANALYSES.has(tabId)) { cancel; clearTimeout; delete }]. *)
Definition cancel_and_delete (tabId : Z) (s : World) : World :=
  match ACTIVE_ANALYSES s !! tabId with
  | Some k =>
      let s := cancel_tracker k s in
      set_ACTIVE_ANALYSES (delete tabId (ACTIVE_ANALYSES s)) s
  | None => s
  end.

(** Lines 264-271: cancel a previous analysis of the tab; the entry stays
    until [ACTIVE_ANALYSES.set] overwrites it. *)
Definition cancel_previous (tabId : Z) (s : World) : World :=
  match ACTIVE_ANALYSES s !! tabId with
  | Some k => cancel_tracker k s
  | None => s
  end.

(** The object the watchdog sends. *)
Definition timeout_result (s : World) (content : string) : AnalysisResult :=
  {| error := Some "Analysis timeout";
     isMalicious := false;
     analysis := "Unable to scan. Proceed with caution.";
     judgment := "Unable to scan. Proceed with caution.";
     method := "timeout";
     mode := activeMode s;
     contentLength := String.length content |}.

(** The [setTimeout] callback of activation [k] (lines 287-301). *)
Definition watchdog_callback (k : nat) (s : World) : World :=
  match activations s !! k with
  | Some a =>
      if cancelled (a_tracker a) then s
      else
        let s := set_ACTIVE_ANALYSES (delete (a_tabId a) (ACTIVE_ANALYSES s)) s in
        sendResponse (a_rid a) (timeout_result s (a_content a)) s
  | None => s
  end.

Definition update_stage (k : nat) (st : Stage) (s : World) : World :=
  match activations s !! k with
  | Some a => set_activations (<[k := set_stage st a]> (activations s)) s
  | None => s
  end.

(** The [.then(result => ...)] callback of activation [k] up to the call of
    [chrome.tabs.get] (lines 303-316). *)
Definition then_callback (k : nat) (result : AnalysisResult) (s : World) : World :=
  match activations s !! k with
  | Some a =>
      if cancelled (a_tracker a) then update_stage k Finished s
      else
        let s := clearTimeout (timeout (a_tracker a)) s in
        let s := set_ACTIVE_ANALYSES (delete (a_tabId a) (ACTIVE_ANALYSES s)) s in
        update_stage k (AwaitingTab result) s
  | None => s
  end.

(** The callback passed to [chrome.tabs.get] (lines 316-346); [tab] is
    [None] when [chrome.runtime.lastError] is set. *)
Definition tabs_get_callback (k : nat) (result : AnalysisResult) (tab : option string)
    (now : Z) (s : World) : World :=
  match activations s !! k with
  | Some a =>
      let s := update_stage k Finished s in
      match tab with
      | None => s
      | Some tabUrl =>
          if bool_decide (tabUrl ≠ a_url a) then s
          else
            let tabId := a_tabId a in
            let s := stopScanningAnimation tabId s in
            let s := set_DETECTION_CACHE (<[a_cacheKey a := result]> (DETECTION_CACHE s)) s in
            let s := updateBadge tabId (isMalicious result) (Some result) s in
            let s := store_detection tabId
                       {| det_result := StoredAnalysis result;
                          det_url := Some tabUrl;
                          det_timestamp := now |} s in
            sendResponse (a_rid a) result s
      end
  | None => s
  end.

(** The object the [.catch] handler sends. *)
Definition rejection_result (s : World) (content message : string) : AnalysisResult :=
  let timed_out := includes message "timeout" in
  {| error := Some message;
     isMalicious := false;
     analysis := if timed_out then "Unable to scan. Proceed with caution."
                 else "Analysis failed, defaulting to safe";
     judgment := if timed_out then "Unable to scan. Proceed with caution." else "ERROR";
     method := if timed_out then "timeout" else "error";
     mode := activeMode s;
     contentLength := String.length content |}.

(** The [.catch(error => ...)] callback (lines 347-373).  [analyzeContent]
    catches what the detectors throw, so no transition below reaches it; it
    is modelled because it is one of the ways a tracker settles. *)
Definition catch_callback (k : nat) (message : string) (s : World) : World :=
  match activations s !! k with
  | Some a =>
      if cancelled (a_tracker a) then update_stage k Finished s
      else
        let s := clearTimeout (timeout (a_tracker a)) s in
        let s := set_ACTIVE_ANALYSES (delete (a_tabId a) (ACTIVE_ANALYSES s)) s in
        let s := stopScanningAnimation (a_tabId a) s in
        let s := update_stage k Finished s in
        sendResponse (a_rid a) (rejection_result s (a_content a) message) s
  | None => s
  end.

(** ** Lifecycle listeners *)

(** [chrome.tabs.onRemoved] *)
Definition onRemoved (tabId : Z) (s : World) : World :=
  let s := cancel_and_delete tabId s in
  let s := stopScanningAnimation tabId s in
  let s := remove_detection tabId s in
  set_DETECTION_CACHE (delete_tab_keys tabId (DETECTION_CACHE s)) s.

(** The guard at the top of [tabs.onUpdated]; [tab.url] may be missing. *)
Definition is_system_url (tabUrl : option string) : bool :=
  match tabUrl with
  | None => true
  | Some u =>
      bool_decide (u = "")
      || startsWith u "chrome://"
      || startsWith u "chrome-extension://"
      || startsWith u "about:"
      || startsWith u "edge://"
  end.

(** [chrome.tabs.onUpdated] *)
Definition onUpdated (tabId : Z) (status : string) (tabUrl : option string) (now : Z)
    (s : World) : World :=
  if bool_decide (status = "loading") then
    if is_system_url tabUrl then
      let s := store_detection tabId
                 {| det_result := StoredSystemPage;
                    det_url := None;
                    det_timestamp := now |} s in
      set_badge (<[tabId := IconSkipped]> (badge s)) s
    else
      let s := cancel_and_delete tabId s in
      let s := remove_detection tabId s in
      startScanningAnimation tabId s
  else s.

(** The [clearTabCache] message. *)
Definition clearTabCache (tabId : Z) (s : World) : World :=
  set_DETECTION_CACHE (delete_tab_keys tabId (DETECTION_CACHE s)) s.

(** The five-minute [setInterval] callback. *)
Definition is_stale (now : Z) (d : Detection) : bool :=
  bool_decide (det_timestamp d ≠ 0%Z)
  && bool_decide (3600000 < now - det_timestamp d)%Z.

(** The whole callback when no other callback runs between its read of the
    storage and its continuation; [cleanup_begin] and [cleanup_resume] are
    its two halves. *)
Definition cleanup (now : Z) (s : World) : World :=
  let s := if bool_decide (100 < size (DETECTION_CACHE s))
           then set_DETECTION_CACHE ∅ s else s in
  set_stored_detections
    (filter (λ kv, is_stale now kv.2 = false) (stored_detections s)) s.

(** ** Request coordinator: the [analyzeContent] message *)

(** [sender.tab?.url || 'unknown'] *)
Definition request_url (tabUrl : string) : string :=
  if bool_decide (tabUrl = "") then "unknown" else tabUrl.

Definition skip_result (s : World) : AnalysisResult :=
  {| error := None;
     isMalicious := false;
     analysis := "Page scanning skipped (email platform interface)";
     judgment := "SKIPPED";
     method := "skipped";
     mode := activeMode s;
     contentLength := 0 |}.

Definition ignore_result (s : World) (content : string) : AnalysisResult :=
  {| error := None;
     isMalicious := false;
     analysis := "This page is ignored and will not be scanned.";
     judgment := "IGNORED";
     method := "ignored";
     mode := activeMode s;
     contentLength := String.length content |}.

(** Lines 264-301: cancel the tab's previous analysis, allocate the tracker
    and the closures of this request, put the tracker in the registry and
    arm its watchdog.  The new reference is the next free index, and so is
    the timer handle. *)
Definition register_tracker (rq : Request) (url cacheKey : string) (now : Z)
    (s : World) : World :=
  let tabId := rq_tabId rq in
  let s := cancel_previous tabId s in
  let s := startScanningAnimation tabId s in
  let k := List.length (activations s) in
  let a := {| a_rid := rq_id rq; a_tabId := tabId; a_url := url;
              a_content := rq_content rq; a_cacheKey := cacheKey;
              a_tracker := {| cancelled := false; timeout := Some k; startTime := now |};
              a_stage := Finished |} in
  let s := set_activations (activations s ++ [a]) s in
  let s := set_ACTIVE_ANALYSES (<[tabId := k]> (ACTIVE_ANALYSES s)) s in
  set_timers ({[k]} ∪ timers s) s.

(** Lines 264-303: register, then call [analyzeContent].  When it returns
    without awaiting a detector its promise is already fulfilled and the
    [.then] callback runs before any other event. *)
Definition start_analysis (rq : Request) (url cacheKey : string) (now : Z)
    (s : World) : World :=
  let k := List.length (activations s) in
  let s := register_tracker rq url cacheKey now s in
  match analyzeContent (rq_content rq) url s with
  | Invoke call => update_stage k (AwaitingBackend call) s
  | Resolved result => then_callback k result s
  end.

Section Coordinator.
Variable hostname : string → option string.

(** The callback of [shouldIgnoreUrl(url).then(ignored => ...)]
    (lines 218-303). *)
Definition on_ignore_checked (rq : Request) (now : Z) (s : World) : World :=
  let url := request_url (rq_tabUrl rq) in
  let tabId := rq_tabId rq in
  if shouldIgnoreUrl hostname url (stored_ignoreRules s) then
    let ignoreResult := ignore_result s (rq_content rq) in
    let s := store_detection tabId
               {| det_result := StoredAnalysis ignoreResult;
                  det_url := Some (rq_tabUrl rq);
                  det_timestamp := now |} s in
    let s := updateBadge tabId false None s in
    sendResponse (rq_id rq) ignoreResult s
  else
    let cacheKey := getCacheKey url (rq_content rq) tabId s in
    match DETECTION_CACHE s !! cacheKey with
    | Some cached =>
        let s := store_detection tabId
                   {| det_result := StoredAnalysis cached;
                      det_url := Some (rq_tabUrl rq);
                      det_timestamp := now |} s in
        let s := sendResponse (rq_id rq) cached s in
        updateBadge tabId (isMalicious cached) (Some cached) s
    | None => start_analysis rq url cacheKey now s
    end.

(** The synchronous part of the [analyzeContent] branch of the message
    listener (lines 184-218). *)
Definition onMessage_analyzeContent (tabId : Z) (tabUrl content : string)
    (skipped : bool) (now : Z) (s : World) : World :=
  let rid := next_rid s in
  let s := set_next_rid (S rid) s in
  if skipped then
    let skipResult := skip_result s in
    let s := store_detection tabId
               {| det_result := StoredAnalysis skipResult;
                  det_url := Some tabUrl;
                  det_timestamp := now |} s in
    let s := stopScanningAnimation tabId s in
    let s := updateBadge tabId false (Some skipResult) s in
    sendResponse rid skipResult s
  else
    let rq := {| rq_id := rid; rq_tabId := tabId; rq_tabUrl := tabUrl;
                 rq_content := content; rq_skipped := skipped |} in
    set_pending_ignore (<[rid := rq]> (pending_ignore s)) s.

(** ** Events and the transition function *)

Inductive Event :=
| MsgAnalyzeContent (tabId : Z) (tabUrl content : string) (skipped : bool) (now : Z)
| IgnoreChecked (rid : nat) (now : Z)
| BackendSettled (k : nat) (o : BackendOutcome)
| TabsGet (k : nat) (tab : option string) (now : Z)
| WatchdogFired (k : nat)
| TabRemoved (tabId : Z)
| TabUpdated (tabId : Z) (status : string) (tabUrl : option string) (now : Z)
| MsgSetMode (newMode : string)
| InitLoaded (i : nat)
| InitDone (i : nat) (o : InitOutcome)
| MsgClearTabCache (tabId : Z)
| CleanupTick (now : Z)
| IgnoreRulesStored (rules : list IgnoreRule).

(** One callback run to completion; [None] when the event cannot happen
    in [s] (no such pending promise, timer not armed).

    - [MsgAnalyzeContent]: the listener up to [shouldIgnoreUrl(url).then].
    - [IgnoreChecked]: the promise of [shouldIgnoreUrl] resolved; the rules
      are the ones stored at that moment.
    - [BackendSettled]: the detector call awaited inside [analyzeContent]
      settled; [analyzeContent] finishes and its [.then] callback runs.
    - [TabsGet]: the callback of [chrome.tabs.get].
    - [WatchdogFired]: the 60 s timer, which may fire at any moment while
      it is armed.
    - [TabRemoved], [TabUpdated]: the two [chrome.tabs] listeners.
    - [MsgSetMode]: [switchMode] up to the start of [initializeAI];
      [InitLoaded] and [InitDone] are the two resumptions of
      [initializeAI].
    - [MsgClearTabCache], [CleanupTick]: cache maintenance.
    - [IgnoreRulesStored]: the popup or the settings page rewrote the
      stored rule list. *)
Definition step (ev : Event) (s : World) : option World :=
  match ev with
  | MsgAnalyzeContent tabId tabUrl content skipped now =>
      Some (onMessage_analyzeContent tabId tabUrl content skipped now s)
  | IgnoreChecked rid now =>
      rq ← pending_ignore s !! rid;
      Some (on_ignore_checked rq now
              (set_pending_ignore (delete rid (pending_ignore s)) s))
  | BackendSettled k o =>
      a ← activations s !! k;
      match a_stage a with
      | AwaitingBackend _ =>
          Some (then_callback k (analyzeContent_resume (a_content a) o s) s)
      | _ => None
      end
  | TabsGet k tab now =>
      a ← activations s !! k;
      match a_stage a with
      | AwaitingTab result => Some (tabs_get_callback k result tab now s)
      | _ => None
      end
  | WatchdogFired k =>
      if bool_decide (k ∈ timers s)
      then Some (watchdog_callback k (set_timers (timers s ∖ {[k]}) s))
      else None
  | TabRemoved tabId => Some (onRemoved tabId s)
  | TabUpdated tabId status tabUrl now => Some (onUpdated tabId status tabUrl now s)
  | MsgSetMode newMode => Some (switchMode newMode s)
  | InitLoaded i =>
      match inits s !! i with
      | Some InitLoading => Some (initializeAI_loaded i s)
      | _ => None
      end
  | InitDone i o =>
      match inits s !! i with
      | Some (InitRunning cloud) => Some (initializeAI_done i cloud o s)
      | _ => None
      end
  | MsgClearTabCache tabId => Some (clearTabCache tabId s)
  | CleanupTick now => Some (cleanup now s)
  | IgnoreRulesStored rules => Some (set_stored_ignoreRules (Some rules) s)
  end.

Fixpoint run (evs : list Event) (s : World) : option World :=
  match evs with
  | [] => Some s
  | ev :: rest => s' ← step ev s; run rest s'
  end.

Definition reachable (s : World) : Prop :=
  ∃ evs, run evs initial_world = Some s.

(** The results sent on one request's [sendResponse]. *)
Definition responses_of (rid : nat) (s : World) : list AnalysisResult :=
  (filter (λ p, p.1 = rid) (responses s)).*2.
End Coordinator.

(** ** Scenarios used to exercise the model *)

(** A stand-in for the URL parser: the host of [scheme://host/...], and a
    failure when there is no [://]. *)
Fixpoint until_slash (s : string) : string :=
  match s with
  | EmptyString => EmptyString
  | String c rest => if bool_decide (c = "/"%char) then EmptyString
                     else String c (until_slash rest)
  end.

Definition example_hostname (url : string) : option string :=
  match String.index 0 "://" url with
  | Some i => Some (until_slash (String.substring (i + 3) (String.length url) url))
  | None => None
  end.

Definition ready_sessions : Sessions :=
  {| analyzerSession := None; judgeSession := None; availability := Some "readily" |}.

Definition safe_result : AnalysisResult :=
  {| error := None; isMalicious := false; analysis := "No threats found";
     judgment := "SAFE"; method := "cloud"; mode := "cloud"; contentLength := 1 |}.

(** Start-up in cloud mode with a configured, ready backend. *)
Definition boot : list Event :=
  [InitLoaded 0; InitDone 0 (InitReturned (Some ready_sessions))].

(** One request for tab 1 that misses the cache and reaches the detector. *)
Definition one_request : list Event :=
  (boot ++ [MsgAnalyzeContent 1 "http://a.test" "X" false 10; IgnoreChecked 0 11])%list.

(** The watchdog fires, then the detector call settles after all. *)
Definition late_settlement : list Event :=
  (one_request ++ [WatchdogFired 0; BackendSettled 0 (Fulfilled safe_result);
                   TabsGet 0 (Some "http://a.test") 70000])%list.

(** The tab navigates while the detector is running. *)
Definition navigation_race : list Event :=
  (one_request ++ [TabUpdated 1 "loading" (Some "http://b.test") 12;
                   BackendSettled 0 (Fulfilled safe_result)])%list.

(** A request arrives between the two halves of a switch to local mode. *)
Definition mid_switch : list Event := (boot ++ [MsgSetMode "local"])%list.

(** No callback of any request is still pending. *)
Definition quiescent (s : World) : Prop :=
  timers s = ∅ ∧ pending_ignore s = ∅
  ∧ Forall (λ a, a_stage a = Finished) (activations s).

(** The world a scenario ends in. *)
Definition world_after (evs : list Event) : World :=
  default initial_world (run example_hostname evs initial_world).

(** Cloud mode whose initialiser reported that configuration is missing. *)
Definition unconfigured_sessions : Sessions :=
  {| analyzerSession := None; judgeSession := None;
     availability := Some "configure-required" |}.

Definition unconfigured : list Event :=
  [InitLoaded 0; InitDone 0 (InitReturned (Some unconfigured_sessions))].

Definition example_rules : list IgnoreRule :=
  [ {| pattern := "http://other.test/"; type := "url"; addedAt := 1 |};
    {| pattern := "a.test"; type := "domain"; addedAt := 2 |} ].

Definition example_request : Request :=
  {| rq_id := 1; rq_tabId := 1; rq_tabUrl := "http://a.test";
     rq_content := "X"; rq_skipped := false |}.

(** The first analysis of tab 1 committed its result. *)
Definition committed : list Event :=
  (one_request ++ [BackendSettled 0 (Fulfilled safe_result);
                   TabsGet 0 (Some "http://a.test") 20])%list.

(** ** Invariants *)

Section Invariants.
Variables (reg : gmap Z nat) (acts : list Activation) (tms : gset nat).
Variables (pend : gmap nat Request) (resp : list (nat * AnalysisResult)) (nrid : nat).

(** A tracker held by the registry belongs to the tab it is filed under,
    is not cancelled, has its watchdog armed, and has not reached
    [chrome.tabs.get]. *)
Definition reg_live : Prop :=
  ∀ T k, reg !! T = Some k →
    ∃ a, acts !! k = Some a ∧ a_tabId a = T
         ∧ cancelled (a_tracker a) = false ∧ k ∈ tms
         ∧ ∀ r, a_stage a ≠ AwaitingTab r.

(** An armed watchdog belongs to a tracker that is not cancelled. *)
Definition timers_live : Prop :=
  ∀ k, k ∈ tms → ∃ a, acts !! k = Some a ∧ cancelled (a_tracker a) = false.

(** The timer handle stored in a tracker is the one allocated with it. *)
Definition handles_ok : Prop :=
  ∀ k a, acts !! k = Some a → timeout (a_tracker a) = Some k.

(** A cancelled tracker never waits for [chrome.tabs.get]. *)
Definition cancelled_quiet : Prop :=
  ∀ k a, acts !! k = Some a → cancelled (a_tracker a) = true →
    ∀ r, a_stage a ≠ AwaitingTab r.

Definition InvA_on : Prop :=
  reg_live ∧ timers_live ∧ handles_ok ∧ cancelled_quiet.

(** Nothing was ever sent on request [rid]. *)
Definition silent_in (rid : nat) : Prop := ∀ r, (rid, r) ∉ resp.

(** Request identifiers: every activation and every pending request has
    an identifier below the counter, no two activations share one, an
    activation's request is no longer pending, and a pending request has
    not been answered. *)
Definition rids_ok : Prop :=
  (∀ k a, acts !! k = Some a → a_rid a < nrid ∧ pend !! a_rid a = None)
  ∧ (∀ k1 k2 a1 a2, acts !! k1 = Some a1 → acts !! k2 = Some a2 →
       a_rid a1 = a_rid a2 → k1 = k2)
  ∧ (∀ rid rq, pend !! rid = Some rq → rid < nrid ∧ rq_id rq = rid ∧ silent_in rid)
  ∧ (∀ rid r, (rid, r) ∈ resp → rid < nrid).

(** A request whose tracker is registered or cancelled has not been
    answered. *)
Definition unanswered : Prop :=
  (∀ T k a, reg !! T = Some k → acts !! k = Some a → silent_in (a_rid a))
  ∧ (∀ k a, acts !! k = Some a → cancelled (a_tracker a) = true →
       silent_in (a_rid a)).

Definition InvB_on : Prop := rids_ok ∧ unanswered.
End Invariants.

Definition InvA (s : World) : Prop :=
  InvA_on (ACTIVE_ANALYSES s) (activations s) (timers s).

Definition InvB (s : World) : Prop :=
  InvB_on (ACTIVE_ANALYSES s) (activations s) (pending_ignore s) (responses s) (next_rid s).

Definition silent (rid : nat) (s : World) : Prop := silent_in (responses s) rid.

(** What a closure keeps of its activation over time: everything but the
    stage, and a cancelled tracker stays cancelled. *)
Definition evolves (a a' : Activation) : Prop :=
  a_rid a' = a_rid a ∧ a_tabId a' = a_tabId a ∧ a_url a' = a_url a
  ∧ a_content a' = a_content a ∧ a_cacheKey a' = a_cacheKey a
  ∧ (cancelled (a_tracker a) = true → cancelled (a_tracker a') = true).

Definition acts_evolve (acts acts' : list Activation) : Prop :=
  ∀ k a, acts !! k = Some a → ∃ a', acts' !! k = Some a' ∧ evolves a a'.

(** The effects a committed result has outside the registry: the cache
    entry, the stored detection, the icon and the response. *)
Definition same_outputs (s s' : World) : Prop :=
  DETECTION_CACHE s' = DETECTION_CACHE s
  ∧ stored_detections s' = stored_detections s
  ∧ badge s' = badge s
  ∧ responses s' = responses s.

(** The tracker object [k] has its flag set and its watchdog disarmed. *)
Definition cancelled_and_cleared (k : nat) (s : World) : Prop :=
  (∃ a, activations s !! k = Some a ∧ cancelled (a_tracker a) = true)
  ∧ k ∉ timers s.

(** ** Callers of the background service: popup and settings pages *)

(** [ignoreRules.some(rule => rule.pattern === pattern && rule.type === type)]
    in popup.js. *)
Definition rule_exists (p t : string) (rules : list IgnoreRule) : bool :=
  existsb (λ rule, bool_decide (pattern rule = p) && bool_decide (type rule = t)) rules.

(** popup.js [addIgnoreRule(pattern, type)]: read the stored list, push the
    rule unless one with the same pattern and type exists, write the list
    back. *)
Definition addIgnoreRule (p t : string) (now : Z) (s : World) : World :=
  let ignoreRules := default [] (stored_ignoreRules s) in
  if rule_exists p t ignoreRules then s
  else set_stored_ignoreRules
         (Some (ignoreRules ++ [{| pattern := p; type := t; addedAt := now |}])%list) s.

(** settings.js [removeIgnoreRule(index)]: [splice(index, 1)] on the stored
    list (the index comes from a button's [data-index], a natural number),
    and the list is written back in every case. *)
Definition removeIgnoreRule (index : nat) (s : World) : World :=
  let ignoreRules := default [] (stored_ignoreRules s) in
  set_stored_ignoreRules (Some (delete index ignoreRules)) s.

(** The popup's view of a stored result ([displayResult] in popup.js): the
    tests are made in this order. *)
Inductive Display :=
| ShowIgnored | ShowSkipped | ShowTimedOut | ShowError | ShowThreat | ShowSafe.

Definition displayResult (r : AnalysisResult) : Display :=
  if bool_decide (judgment r = "SKIPPED") || bool_decide (method r = "skipped")
     || bool_decide (judgment r = "IGNORED") || bool_decide (method r = "ignored")
  then if bool_decide (judgment r = "IGNORED") || bool_decide (method r = "ignored")
       then ShowIgnored else ShowSkipped
  else if bool_decide (judgment r = "TIMEOUT") || bool_decide (method r = "timeout")
  then ShowTimedOut
  else if bool_decide (judgment r = "ERROR") || bool_decide (method r = "error")
  then ShowError
  else if isMalicious r then ShowThreat
  else ShowSafe.

(** What the popup shows for a tab ([loadStatus]): the stored detection's
    result, or the scanning state when nothing is stored.  The placeholder
    for system pages has judgment ['SKIPPED']. *)
Inductive PopupView :=
| Scanning
| Shown (d : Display).

Definition loadStatus (tabId : Z) (s : World) : PopupView :=
  match stored_detections s !! tabId with
  | Some d =>
      match det_result d with
      | StoredAnalysis r => Shown (displayResult r)
      | StoredSystemPage => Shown ShowSkipped
      end
  | None => Scanning
  end.

Section PopupButtons.
Variable hostname : string → option string.

(** The "Ignore URL" button: [addIgnoreRule(tab.url, 'url')]. *)
Definition ignoreUrlClicked (tabUrl : string) (now : Z) (s : World) : World :=
  addIgnoreRule tabUrl "url" now s.

(** The "Ignore Domain" button: [new URL(tab.url).hostname], then
    [addIgnoreRule(domain, 'domain')]; a URL that does not parse is only
    logged. *)
Definition ignoreDomainClicked (tabUrl : string) (now : Z) (s : World) : World :=
  match hostname tabUrl with
  | Some domain => addIgnoreRule domain "domain" now s
  | None => s
  end.
End PopupButtons.

(** ** Vocabulary of the additional properties *)

(** Whether one rule matches a URL whose host is [h]. *)
Definition rule_matches (url h : string) (rule : IgnoreRule) : bool :=
  bool_decide (type rule = "url") && bool_decide (url = pattern rule)
  || bool_decide (type rule = "domain") && bool_decide (h = pattern rule).

(** Whether an exact [url] rule for [url] occurs before the first [domain]
    rule. *)
Fixpoint url_rule_before_domain (url : string) (rules : list IgnoreRule) : bool :=
  match rules with
  | [] => false
  | rule :: rest =>
      if bool_decide (type rule = "url") && bool_decide (url = pattern rule) then true
      else if bool_decide (type rule = "domain") then false
      else url_rule_before_domain url rest
  end.

(** The string does not contain the character. *)
Fixpoint lacks (c : ascii) (s : string) : bool :=
  match s with
  | EmptyString => true
  | String d rest => negb (bool_decide (d = c)) && lacks c rest
  end.

(** An armed watchdog belongs to an analysis whose detector call has not
    settled and whose request has not been answered. *)
Definition armed_pending (acts : list Activation) (tms : gset nat)
    (resp : list (nat * AnalysisResult)) : Prop :=
  ∀ k, k ∈ tms →
    ∃ a c, acts !! k = Some a ∧ a_stage a = AwaitingBackend c
           ∧ silent_in resp (a_rid a).

(** A request that is neither pending nor attached to an analysis was
    answered on the spot, exactly once. *)
Definition answered_once (acts : list Activation) (pend : gmap nat Request)
    (resp : list (nat * AnalysisResult)) (nrid : nat) : Prop :=
  ∀ rid, (rid < nrid)%nat → pend !! rid = None →
    (∀ k a, acts !! k = Some a → a_rid a ≠ rid) →
    List.length (filter (λ p, p.1 = rid) resp) = 1.

(** How many results an analysis can have sent: at most one until it is
    finished, at most two afterwards. *)
Definition stage_bound (st : Stage) : nat :=
  match st with
  | Finished => 2
  | _ => 1
  end.

Definition answers_bounded (acts : list Activation)
    (resp : list (nat * AnalysisResult)) : Prop :=
  ∀ k a, acts !! k = Some a →
    (List.length (filter (λ p, p.1 = a_rid a) resp) ≤ stage_bound (a_stage a))%nat.

Definition InvC_on (acts : list Activation) (tms : gset nat) (pend : gmap nat Request)
    (resp : list (nat * AnalysisResult)) (nrid : nat) : Prop :=
  armed_pending acts tms resp
  ∧ answered_once acts pend resp nrid
  ∧ answers_bounded acts resp.

Definition InvC (s : World) : Prop :=
  InvC_on (activations s) (timers s) (pending_ignore s) (responses s) (next_rid s).

(** A request that was answered on the spot: issued, not pending, and not
    attached to any analysis. *)
Definition answered_directly (rid : nat) (s : World) : Prop :=
  (rid < next_rid s)%nat
  ∧ pending_ignore s !! rid = None
  ∧ rid ∉ (a_rid <$> activations s).

(** What a callback that starts no analysis and takes no message leaves
    alone: the requests of the activations, the pending requests and the
    counter; it arms no timer. *)
Definition quiet_step (s s' : World) : Prop :=
  (a_rid <$> activations s') = (a_rid <$> activations s)
  ∧ pending_ignore s' = pending_ignore s
  ∧ next_rid s' = next_rid s
  ∧ ∀ k, k ∈ timers s' → k ∈ timers s.

(** The events that answer request [rid] without starting an analysis:
    a skipped message (lines 189-215), and the resolution of
    [shouldIgnoreUrl] for an ignored page (lines 218-242) or for a page
    whose result is cached (lines 244-262). *)
Definition short_circuits (hostname : string → option string) (ev : Event)
    (rid : nat) (s : World) : Prop :=
  match ev with
  | MsgAnalyzeContent _ _ _ skipped _ => skipped = true ∧ rid = next_rid s
  | IgnoreChecked rid' _ =>
      rid' = rid
      ∧ ∃ rq, pending_ignore s !! rid = Some rq
          ∧ (shouldIgnoreUrl hostname (request_url (rq_tabUrl rq)) (stored_ignoreRules s)
             = true
             ∨ is_Some (DETECTION_CACHE s
                          !! getCacheKey (request_url (rq_tabUrl rq)) (rq_content rq)
                               (rq_tabId rq) s))
  | _ => False
  end.

(** What any callback does to the request bookkeeping: activations are only
    appended, and only for requests that were pending; a request enters the
    pending map only under the current counter value; the counter never
    decreases; the only timer that can be armed is the one whose handle is
    the next free index. *)
Definition bookkeeping (s s' : World) : Prop :=
  (∃ new, a_rid <$> activations s' = ((a_rid <$> activations s) ++ new)%list
          ∧ ∀ r, r ∈ new → ∃ rid rq, pending_ignore s !! rid = Some rq ∧ r = rq_id rq)
  ∧ (∀ r, pending_ignore s !! r = None → r ≠ next_rid s → pending_ignore s' !! r = None)
  ∧ (next_rid s ≤ next_rid s')%nat
  ∧ (∀ k, k ∈ timers s' → k ∈ timers s ∨ k = List.length (activations s)).

(** ** The five-minute callback in its two halves *)

(** The part of the [setInterval] callback that runs before
    [await chrome.storage.local.get(null)] (lines 583-590). *)
Definition cleanup_begin (s : World) : World :=
  if bool_decide (100 < size (DETECTION_CACHE s)) then set_DETECTION_CACHE ∅ s else s.

(** [keysToRemove]: the [detection_] keys of the snapshot whose value has a
    truthy timestamp more than an hour before [now] (lines 594-600). *)
Definition keysToRemove (allStorage : gmap Z Detection) (now : Z) : gset Z :=
  dom (filter (λ kv, is_stale now kv.2 = true) allStorage).

(** The continuation that runs once [get(null)] has resolved with the
    snapshot [allStorage] (lines 591-605): [now] is read then, the stale
    keys are those of the snapshot, and they are removed from the storage
    as it is by then, whatever other callbacks wrote in between. *)
Definition cleanup_resume (allStorage : gmap Z Detection) (now : Z) (s : World) : World :=
  if bool_decide (keysToRemove allStorage now = ∅) then s
  else set_stored_detections
         (filter (λ kv, kv.1 ∉ keysToRemove allStorage now) (stored_detections s)) s.

(** ** Where a delivered result comes from *)

(** The result objects the background service builds itself: the literals
    of the skip, ignore and watchdog paths of the listener, and the three
    of [analyzeContent]. *)
Definition built_by_coordinator (r : AnalysisResult) : Prop :=
  ∃ s content message,
    r = skip_result s ∨ r = ignore_result s content ∨ r = timeout_result s content
    ∨ r = unavailable_result s content ∨ r = configuration_result content
    ∨ r = caught_result s content message.

(** Every result held by the cache, waiting for [chrome.tabs.get], or already
    sent satisfies [P]. *)
Definition results_satisfy (P : AnalysisResult → Prop)
    (cache : gmap string AnalysisResult) (acts : list Activation)
    (resp : list (nat * AnalysisResult)) : Prop :=
  (∀ key r, cache !! key = Some r → P r)
  ∧ (∀ k a r, acts !! k = Some a → a_stage a = AwaitingTab r → P r)
  ∧ (∀ rid r, (rid, r) ∈ resp → P r).

Definition InvD (P : AnalysisResult → Prop) (s : World) : Prop :=
  results_satisfy P (DETECTION_CACHE s) (activations s) (responses s).

(** The callback leaves activation [k] in the stage it is in. *)
Definition stage_kept (k : nat) (s s' : World) : Prop :=
  ∀ a, activations s !! k = Some a →
    ∃ a', activations s' !! k = Some a' ∧ a_stage a' = a_stage a.

(** * Properties *)

(** ** Result cache and mode switch *)

Lemma getCacheKey_mode_inj url content tabId s1 s2 :
  getCacheKey url content tabId s1 = getCacheKey url content tabId s2 →
  activeMode s1 = activeMode s2.
Proof.
  unfold getCacheKey. intros H.
  do 7 apply String.app_inj in H. exact H.
Qed.

Lemma string_app_assoc (a b c : string) : (a +:+ b) +:+ c = a +:+ (b +:+ c).
Proof.
  induction a as [|ch a IH]; [reflexivity|].
  change (String ch ((a +:+ b) +:+ c) = String ch (a +:+ (b +:+ c))).
  by rewrite IH.
Qed.

Lemma getCacheKey_ends_with_mode url content tabId s :
  getCacheKey url content tabId s
  = (tab_prefix tabId +:+ url +:+ ":" +:+ String.substring 0 500 content +:+ ":")
      +:+ activeMode s.
Proof.
  unfold getCacheKey, tab_prefix. rewrite !string_app_assoc. reflexivity.
Qed.

Lemma switchMode_cache newMode s : DETECTION_CACHE (switchMode newMode s) = ∅.
Proof. destruct s. reflexivity. Qed.

(** C5. The cache key is a prefix built from tab, URL and the first 500
    characters of the content, followed by the active mode, so keys built
    for the same tab, URL and content under two different modes differ;
    [switchMode]
    leaves the cache empty, so every lookup right after it misses and the
    request handler starts a fresh analysis instead of answering from the
    cache. *)
Theorem cache_mode_isolation (hostname : string → option string)
    (url content : string) (tabId : Z) (s1 s2 : World)
    (rq : Request) (newMode : string) (now : Z) (s : World) :
  activeMode s1 ≠ activeMode s2 →
  shouldIgnoreUrl hostname (request_url (rq_tabUrl rq))
    (stored_ignoreRules (switchMode newMode s)) = false →
  getCacheKey url content tabId s1
  = (tab_prefix tabId +:+ url +:+ ":" +:+ String.substring 0 500 content +:+ ":")
      +:+ activeMode s1
  ∧ getCacheKey url content tabId s1 ≠ getCacheKey url content tabId s2
  ∧ DETECTION_CACHE (switchMode newMode s) = ∅
  ∧ (∀ key, DETECTION_CACHE (switchMode newMode s) !! key = None)
  ∧ on_ignore_checked hostname rq now (switchMode newMode s)
    = start_analysis rq (request_url (rq_tabUrl rq))
        (getCacheKey (request_url (rq_tabUrl rq)) (rq_content rq) (rq_tabId rq)
           (switchMode newMode s))
        now (switchMode newMode s).
Proof.
  intros Hmode Hign. split_and!.
  - apply getCacheKey_ends_with_mode.
  - intros Heq. apply Hmode. eapply getCacheKey_mode_inj, Heq.
  - apply switchMode_cache.
  - intros key. rewrite switchMode_cache. apply lookup_empty.
  - unfold on_ignore_checked. rewrite Hign.
    rewrite switchMode_cache, lookup_empty. reflexivity.
Qed.

Lemma cache_mode_isolation_witness :
  getCacheKey "http://a.test" "X" 1 initial_world
    ≠ getCacheKey "http://a.test" "X" 1 (switchMode "local" initial_world)
  ∧ DETECTION_CACHE
      (switchMode "local" (set_DETECTION_CACHE {[ "k" := safe_result ]} initial_world)) = ∅.
Proof.
  pose proof (cache_mode_isolation example_hostname "http://a.test" "X" 1
                initial_world (switchMode "local" initial_world)
                {| rq_id := 0; rq_tabId := 1; rq_tabUrl := "http://a.test";
                   rq_content := "X"; rq_skipped := false |}
                "local" 0
                (set_DETECTION_CACHE {[ "k" := safe_result ]} initial_world)) as H.
  destruct H as (_ & H1 & H2 & _).
  - vm_compute. discriminate.
  - vm_compute. reflexivity.
  - split; assumption.
Defined.

(** ** Mode controller: [analyzeContent] *)

(** What [analyzeContent] does, case by case.  Unavailable and not
    configure-required: an ['ERROR'] result, no detector call.  Cloud mode
    and configure-required: a ['CONFIGURATION_ERROR'] result, no detector
    call.  Otherwise at most one detector is called, chosen by the mode: the
    cloud one in cloud mode; the local one in any other mode when a sessions
    object is present; with [currentSessions] null in a non-cloud mode the
    argument evaluation throws and an ['ERROR'] result is returned without a
    detector call. *)
Theorem analyzeContent_dispatch (content url : string) (s : World) :
  (isAiAvailable s = false → aiAvailabilityStatus s ≠ "configure-required" →
     analyzeContent content url s = Resolved (unavailable_result s content)
     ∧ judgment (unavailable_result s content) = "ERROR")
  ∧ (activeMode s = "cloud" → aiAvailabilityStatus s = "configure-required" →
     analyzeContent content url s = Resolved (configuration_result content)
     ∧ judgment (configuration_result content) = "CONFIGURATION_ERROR")
  ∧ (¬ (isAiAvailable s = false ∧ aiAvailabilityStatus s ≠ "configure-required") →
     ¬ (activeMode s = "cloud" ∧ aiAvailabilityStatus s = "configure-required") →
     (activeMode s = "cloud" →
        analyzeContent content url s = Invoke (AnalyzeCloud (currentSessions s) content url))
     ∧ (activeMode s ≠ "cloud" → ∀ ss, currentSessions s = Some ss →
        analyzeContent content url s
        = Invoke (AnalyzeLocal (analyzerSession ss) (judgeSession ss) content url))
     ∧ (activeMode s ≠ "cloud" → currentSessions s = None →
        analyzeContent content url s
        = Resolved (caught_result s content null_sessions_message)
        ∧ judgment (caught_result s content null_sessions_message) = "ERROR")).
Proof.
  split; [|split].
  - intros Ha Hs. unfold analyzeContent.
    rewrite Ha, (bool_decide_eq_false_2 _ Hs). done.
  - intros Hm Hs. unfold analyzeContent.
    rewrite (bool_decide_eq_true_2 _ Hs), (bool_decide_eq_true_2 _ Hm), andb_false_r.
    done.
  - intros H1 H2.
    assert (negb (isAiAvailable s)
            && negb (bool_decide (aiAvailabilityStatus s = "configure-required"))
            = false) as E1.
    { destruct (isAiAvailable s); [done|]. simpl.
      case_bool_decide; [done|]. exfalso. apply H1. done. }
    assert (bool_decide (activeMode s = "cloud")
            && bool_decide (aiAvailabilityStatus s = "configure-required")
            = false) as E2.
    { do 2 case_bool_decide; try done. exfalso. apply H2. done. }
    unfold analyzeContent. rewrite E1, E2. split; [|split].
    + intros Hm. rewrite (bool_decide_eq_true_2 _ Hm). done.
    + intros Hm ss Hss. rewrite (bool_decide_eq_false_2 _ Hm), Hss. done.
    + intros Hm Hss. rewrite (bool_decide_eq_false_2 _ Hm), Hss. done.
Qed.

Lemma analyzeContent_dispatch_witness :
  analyzeContent "X" "http://a.test" initial_world
    = Resolved (unavailable_result initial_world "X")
  ∧ analyzeContent "X" "http://a.test" (world_after unconfigured)
    = Resolved (configuration_result "X")
  ∧ analyzeContent "X" "http://a.test" (world_after boot)
    = Invoke (AnalyzeCloud (currentSessions (world_after boot)) "X" "http://a.test").
Proof.
  split; [|split].
  - destruct (analyzeContent_dispatch "X" "http://a.test" initial_world) as (H & _ & _).
    apply H; [reflexivity | vm_compute; discriminate].
  - destruct (analyzeContent_dispatch "X" "http://a.test" (world_after unconfigured))
      as (_ & H & _).
    apply H; vm_compute; reflexivity.
  - destruct (analyzeContent_dispatch "X" "http://a.test" (world_after boot))
      as (_ & _ & H).
    destruct H as (H & _ & _).
    + vm_compute. intros [? _]. discriminate.
    + vm_compute. intros [_ ?]. discriminate.
    + apply H. vm_compute. reflexivity.
Defined.

(** C7, the failing run.  After a ready cloud start-up,
    [switchMode('local')] sets [currentSessions] to [null] and the mode to
    ['local'], while [isAiAvailable] stays true and the status ['readily'].
    A request handled before the re-initialisation has finished passes both
    fail-fast checks, reads [currentSessions.analyzerSession] inside the
    [try] and is answered ['ERROR'] from the [catch] block: neither detector
    is called, although the claim routes such a request to exactly one.  In
    the same stale state a switch to cloud mode still calls the cloud
    detector, and at start-up the availability check fails fast.  The result
    built from the TypeError is committed and cached under the local key. *)
Theorem stale_availability_calls_no_backend :
  (λ s, (isAiAvailable s, aiAvailabilityStatus s, activeMode s, currentSessions s))
    <$> run example_hostname mid_switch initial_world
  = Some (true, "readily", "local", None)
  ∧ analyzeContent "X" "http://a.test" <$> run example_hostname mid_switch initial_world
    = Some (Resolved
              {| error := None; isMalicious := false;
                 analysis := "Analysis error: " +:+ null_sessions_message;
                 judgment := "ERROR"; method := "error"; mode := "local";
                 contentLength := 1 |})
  ∧ analyzeContent "X" "http://a.test"
      <$> run example_hostname (boot ++ [MsgSetMode "cloud"])%list initial_world
    = Some (Invoke (AnalyzeCloud None "X" "http://a.test"))
  ∧ analyzeContent "X" "http://a.test" initial_world
    = Resolved (unavailable_result initial_world "X")
  ∧ (λ s, (DETECTION_CACHE s !! "tab1:http://a.test:X:local", responses s))
      <$> run example_hostname
            (mid_switch ++ [MsgAnalyzeContent 1 "http://a.test" "X" false 10;
                            IgnoreChecked 0 11;
                            TabsGet 0 (Some "http://a.test") 12])%list
            initial_world
    = Some (Some {| error := None; isMalicious := false;
                    analysis := "Analysis error: " +:+ null_sessions_message;
                    judgment := "ERROR"; method := "error"; mode := "local";
                    contentLength := 1 |},
            [(0, {| error := None; isMalicious := false;
                    analysis := "Analysis error: " +:+ null_sessions_message;
                    judgment := "ERROR"; method := "error"; mode := "local";
                    contentLength := 1 |})]).
Proof. vm_compute. repeat split. Qed.

(** ** Ignore rule matcher *)

Lemma ignoreRules_loop_throws hostname url pre rule post :
  hostname url = None →
  type rule = "domain" →
  Forall (λ r, ¬ (type r = "url" ∧ pattern r = url)) pre →
  ignoreRules_loop hostname url (pre ++ rule :: post) = Throw "Invalid URL".
Proof.
  intros Hh Ht Hpre. induction Hpre as [|r pre Hr _ IH]; simpl.
  - rewrite Ht, Hh. reflexivity.
  - destruct (bool_decide (type r = "url") && bool_decide (url = pattern r)) eqn:E.
    + apply andb_true_iff in E as [E1 E2].
      apply bool_decide_eq_true_1 in E1, E2. exfalso. apply Hr. done.
    + rewrite Hh. destruct (bool_decide (type r = "domain")); [reflexivity | exact IH].
Qed.



(** ** Cache hit *)

(** C9. On a cache hit the handler sends the cached result, rewrites the
    tab's stored detection (cached result, the sender's URL, the current
    time) and sets the icon; the cache, the registry, the tracker objects
    and the timers are as before. *)
Theorem cache_hit_effects (hostname : string → option string)
    (rq : Request) (now : Z) (s : World) (cached : AnalysisResult) :
  shouldIgnoreUrl hostname (request_url (rq_tabUrl rq)) (stored_ignoreRules s) = false →
  DETECTION_CACHE s
    !! getCacheKey (request_url (rq_tabUrl rq)) (rq_content rq) (rq_tabId rq) s
    = Some cached →
  responses (on_ignore_checked hostname rq now s) = (responses s ++ [(rq_id rq, cached)])%list
  ∧ stored_detections (on_ignore_checked hostname rq now s)
    = <[rq_tabId rq := {| det_result := StoredAnalysis cached;
                          det_url := Some (rq_tabUrl rq);
                          det_timestamp := now |}]> (stored_detections s)
  ∧ badge (on_ignore_checked hostname rq now s)
    = <[rq_tabId rq := badge_icon (isMalicious cached) (Some cached)]> (badge s)
  ∧ DETECTION_CACHE (on_ignore_checked hostname rq now s) = DETECTION_CACHE s
  ∧ ACTIVE_ANALYSES (on_ignore_checked hostname rq now s) = ACTIVE_ANALYSES s
  ∧ activations (on_ignore_checked hostname rq now s) = activations s
  ∧ timers (on_ignore_checked hostname rq now s) = timers s.
Proof.
  intros Hign Hhit. unfold on_ignore_checked. rewrite Hign, Hhit.
  destruct s. repeat split.
Qed.

Lemma cache_hit_effects_witness :
  responses (on_ignore_checked example_hostname example_request 30 (world_after committed))
  = [(0, safe_result); (1, safe_result)]
  ∧ stored_detections
      (on_ignore_checked example_hostname example_request 30 (world_after committed)) !! 1%Z
    = Some {| det_result := StoredAnalysis safe_result;
              det_url := Some "http://a.test"; det_timestamp := 30 |}
  ∧ ACTIVE_ANALYSES
      (on_ignore_checked example_hostname example_request 30 (world_after committed)) = ∅.
Proof.
  destruct (cache_hit_effects example_hostname example_request 30
              (world_after committed) safe_result) as (H1 & H2 & _ & _ & H5 & _).
  - vm_compute. reflexivity.
  - vm_compute. reflexivity.
  - rewrite H1, H2, H5. vm_compute. repeat split.
Defined.

(** ** Invariants of the registry *)

Ltac world_cbv :=
  cbv beta iota zeta delta
    [set_currentSessions set_activeMode set_isAiAvailable set_aiAvailabilityStatus
     set_DETECTION_CACHE set_ACTIVE_ANALYSES set_SCANNING_ANIMATIONS set_activations
     set_timers set_stored_activeMode set_stored_ignoreRules set_stored_detections
     set_badge set_responses set_next_rid set_pending_ignore set_inits
     currentSessions activeMode isAiAvailable aiAvailabilityStatus DETECTION_CACHE
     ACTIVE_ANALYSES SCANNING_ANIMATIONS activations timers stored_activeMode
     stored_ignoreRules stored_detections badge responses next_rid pending_ignore inits
     sendResponse store_detection remove_detection clearTimeout stopScanningAnimation
     startScanningAnimation updateBadge InvA InvB silent] in *.

Section RegistryInvariant.
Variables (reg : gmap Z nat) (acts : list Activation) (tms : gset nat).
Hypothesis HA : InvA_on reg acts tms.

(** Changing the stage of one activation: allowed to become
    [AwaitingTab] only for a tracker that is neither cancelled nor
    registered. *)
Lemma InvA_on_stage k a st :
  acts !! k = Some a →
  (∀ r, st = AwaitingTab r →
     cancelled (a_tracker a) = false ∧ reg !! a_tabId a ≠ Some k) →
  InvA_on reg (<[k := set_stage st a]> acts) tms.
Proof.
  destruct HA as (Hreg & Htm & Hh & Hc). intros Ha Hst. split_and!.
  - intros T k' H'. destruct (Hreg _ _ H') as (a' & Ha' & Ht' & Hc' & Hin & Hs').
    destruct (decide (k' = k)) as [->|Hne].
    + assert (a' = a) as -> by congruence. exists (set_stage st a).
      rewrite list_lookup_insert_eq by (by eapply lookup_lt_Some).
      split_and!; try done. simpl. intros r ->. destruct (Hst r eq_refl) as [_ Hn].
      apply Hn. congruence.
    + exists a'. by rewrite list_lookup_insert_ne.
  - intros k' Hk'. destruct (Htm _ Hk') as (a' & Ha' & Hc').
    destruct (decide (k' = k)) as [->|Hne].
    + assert (a' = a) as -> by congruence. exists (set_stage st a).
      by rewrite list_lookup_insert_eq by (by eapply lookup_lt_Some).
    + exists a'. by rewrite list_lookup_insert_ne.
  - intros k' a' H'. apply list_lookup_insert_Some in H' as [(-> & <- & _)|[_ H']];
      simpl; eauto.
  - intros k' a' H'. apply list_lookup_insert_Some in H' as [(-> & <- & _)|[_ H']];
      simpl; [|eauto].
    intros Hcan r ->. destruct (Hst r eq_refl). congruence.
Qed.

(** Cancelling the tracker registered for a tab and dropping the entry. *)
Lemma InvA_on_cancel T k a :
  reg !! T = Some k → acts !! k = Some a →
  InvA_on (delete T reg) (<[k := set_cancelled a]> acts) (tms ∖ {[k]}).
Proof.
  destruct HA as (Hreg & Htm & Hh & Hc). intros HT Ha.
  destruct (Hreg _ _ HT) as (a0 & Ha0 & Htab & Hcan & Hin & Hst).
  assert (a0 = a) as -> by congruence. split_and!.
  - intros T' k' H'. apply lookup_delete_Some in H' as [Hne H'].
    destruct (Hreg _ _ H') as (a' & Ha' & Ht' & Hc' & Hin' & Hs').
    assert (k' ≠ k) by (intros ->; congruence).
    exists a'. rewrite list_lookup_insert_ne by done. split_and!; try done. set_solver.
  - intros k' Hk'. apply elem_of_difference in Hk' as [Hk' Hnk].
    assert (k' ≠ k) by set_solver.
    destruct (Htm _ Hk') as (a' & ? & ?). exists a'.
    by rewrite list_lookup_insert_ne.
  - intros k' a' H'. apply list_lookup_insert_Some in H' as [(-> & <- & _)|[_ H']];
      simpl; eauto.
  - intros k' a' H'. apply list_lookup_insert_Some in H' as [(-> & <- & _)|[_ H']];
      simpl; eauto.
Qed.

(** Allocating a tracker, filing it under its tab and arming its timer. *)
Lemma InvA_on_register T new :
  a_tabId new = T → cancelled (a_tracker new) = false →
  timeout (a_tracker new) = Some (List.length acts) →
  (∀ r, a_stage new ≠ AwaitingTab r) →
  InvA_on (<[T := List.length acts]> reg) (acts ++ [new]) ({[List.length acts]} ∪ tms).
Proof.
  destruct HA as (Hreg & Htm & Hh & Hc). intros Htab Hcan Hto Hst. split_and!.
  - intros T' k' H'. apply lookup_insert_Some in H' as [[<- <-]|[Hne H']].
    + exists new. rewrite lookup_app_r, Nat.sub_diag by done.
      split_and!; try done. set_solver.
    + destruct (Hreg _ _ H') as (a' & Ha' & Ht' & Hc' & Hin' & Hs').
      exists a'. rewrite lookup_app_l by (by eapply lookup_lt_Some).
      split_and!; try done. set_solver.
  - intros k' Hk'. apply elem_of_union in Hk' as [Hk'|Hk'].
    + apply elem_of_singleton in Hk' as ->. exists new.
      by rewrite lookup_app_r, Nat.sub_diag.
    + destruct (Htm _ Hk') as (a' & ? & ?). exists a'.
      by rewrite lookup_app_l by (by eapply lookup_lt_Some).
  - intros k' a' H'. apply lookup_app_Some in H' as [H'|[Hge H']]; [eauto|].
    apply list_lookup_singleton_Some in H' as [Hk <-].
    rewrite Hto. f_equal. lia.
  - intros k' a' H'. apply lookup_app_Some in H' as [H'|[Hge H']]; [eauto|].
    apply list_lookup_singleton_Some in H' as [Hk <-]. congruence.
Qed.

(** The [.then] callback of a tracker that is not cancelled. *)
Lemma InvA_on_settle k a result :
  acts !! k = Some a → cancelled (a_tracker a) = false →
  InvA_on (delete (a_tabId a) reg)
          (<[k := set_stage (AwaitingTab result) a]> acts) (tms ∖ {[k]}).
Proof.
  destruct HA as (Hreg & Htm & Hh & Hc). intros Ha Hcan. split_and!.
  - intros T' k' H'. apply lookup_delete_Some in H' as [Hne H'].
    destruct (Hreg _ _ H') as (a' & Ha' & Ht' & Hc' & Hin' & Hs').
    assert (k' ≠ k) by (intros ->; congruence).
    exists a'. rewrite list_lookup_insert_ne by done. split_and!; try done. set_solver.
  - intros k' Hk'. apply elem_of_difference in Hk' as [Hk' Hnk].
    assert (k' ≠ k) by set_solver.
    destruct (Htm _ Hk') as (a' & ? & ?). exists a'.
    by rewrite list_lookup_insert_ne.
  - intros k' a' H'. apply list_lookup_insert_Some in H' as [(-> & <- & _)|[_ H']];
      simpl; eauto.
  - intros k' a' H'. apply list_lookup_insert_Some in H' as [(-> & <- & _)|[_ H']];
      simpl; [congruence|eauto].
Qed.

(** The watchdog of a tracker that is not cancelled. *)
Lemma InvA_on_watchdog k a :
  acts !! k = Some a →
  InvA_on (delete (a_tabId a) reg) acts (tms ∖ {[k]}).
Proof.
  destruct HA as (Hreg & Htm & Hh & Hc). intros Ha. split_and!; try done.
  - intros T' k' H'. apply lookup_delete_Some in H' as [Hne H'].
    destruct (Hreg _ _ H') as (a' & Ha' & Ht' & Hc' & Hin' & Hs').
    assert (k' ≠ k) by (intros ->; congruence).
    exists a'. split_and!; try done. set_solver.
  - intros k' Hk'. apply elem_of_difference in Hk' as [Hk' Hnk]. eauto.
Qed.
End RegistryInvariant.

(** *** Every callback preserves the registry invariant *)

Lemma InvA_same s s' :
  ACTIVE_ANALYSES s' = ACTIVE_ANALYSES s → activations s' = activations s →
  timers s' = timers s → InvA s → InvA s'.
Proof. unfold InvA. intros -> -> ->. done. Qed.

Lemma update_stage_InvA k st s :
  InvA s → (∀ r, st ≠ AwaitingTab r) → InvA (update_stage k st s).
Proof.
  intros HA Hst. unfold update_stage.
  destruct (activations s !! k) as [a|] eqn:Ha; [|done].
  destruct s; world_cbv. eapply InvA_on_stage; eauto.
  intros r ->. by destruct (Hst r).
Qed.

Lemma cancel_and_delete_InvA T s : InvA s → InvA (cancel_and_delete T s).
Proof.
  intros HA. unfold cancel_and_delete, cancel_tracker.
  destruct (ACTIVE_ANALYSES s !! T) as [k|] eqn:HT; [|done].
  pose proof HA as (Hreg & _ & Hh & _).
  destruct (Hreg _ _ HT) as (a & Ha & _). rewrite Ha, (Hh _ _ Ha).
  destruct s; world_cbv. by eapply InvA_on_cancel.
Qed.

Lemma then_callback_InvA k result s : InvA s → InvA (then_callback k result s).
Proof.
  intros HA. unfold then_callback.
  destruct (activations s !! k) as [a|] eqn:Ha; [|done].
  destruct (cancelled (a_tracker a)) eqn:Hcan.
  - by apply update_stage_InvA.
  - pose proof HA as (_ & _ & Hh & _). rewrite (Hh _ _ Ha).
    unfold update_stage. destruct s; world_cbv. rewrite Ha.
    by eapply InvA_on_settle.
Qed.

Lemma tabs_get_callback_InvA k result tab now s :
  InvA s → InvA (tabs_get_callback k result tab now s).
Proof.
  intros HA. unfold tabs_get_callback.
  destruct (activations s !! k) as [a|] eqn:Ha; [|done].
  assert (InvA (update_stage k Finished s)) as HA' by (by apply update_stage_InvA).
  destruct tab as [tabUrl|]; [|done].
  case_bool_decide; [done|].
  revert HA'. apply InvA_same; destruct (update_stage k Finished s); reflexivity.
Qed.

Lemma watchdog_InvA k s :
  InvA s → k ∈ timers s →
  InvA (watchdog_callback k (set_timers (timers s ∖ {[k]}) s)).
Proof.
  intros HA Hk. pose proof HA as (_ & Htm & _ & _).
  destruct (Htm _ Hk) as (a & Ha & Hcan). unfold watchdog_callback.
  destruct s; world_cbv. rewrite Ha, Hcan. by eapply InvA_on_watchdog.
Qed.

Lemma register_tracker_InvA rq url cacheKey now s :
  InvA s → InvA (register_tracker rq url cacheKey now s).
Proof.
  intros HA. unfold register_tracker, cancel_previous, cancel_tracker.
  destruct (ACTIVE_ANALYSES s !! rq_tabId rq) as [k|] eqn:HT.
  - pose proof HA as (Hreg & _ & Hh & _).
    destruct (Hreg _ _ HT) as (a & Ha & _). rewrite Ha, (Hh _ _ Ha).
    destruct s; world_cbv.
    rewrite <- (insert_delete_eq ACTIVE_ANALYSES0).
    eapply InvA_on_register; try done.
    by eapply InvA_on_cancel.
  - destruct s; world_cbv. by eapply InvA_on_register.
Qed.

Lemma start_analysis_InvA rq url cacheKey now s :
  InvA s → InvA (start_analysis rq url cacheKey now s).
Proof.
  intros HA. unfold start_analysis.
  pose proof (register_tracker_InvA rq url cacheKey now s HA).
  destruct (analyzeContent _ _ _).
  - by apply then_callback_InvA.
  - by apply update_stage_InvA.
Qed.

Lemma on_ignore_checked_InvA hostname rq now s :
  InvA s → InvA (on_ignore_checked hostname rq now s).
Proof.
  intros HA. unfold on_ignore_checked.
  destruct (shouldIgnoreUrl _ _ _).
  { revert HA. apply InvA_same; destruct s; reflexivity. }
  destruct (DETECTION_CACHE s !! _).
  { revert HA. apply InvA_same; destruct s; reflexivity. }
  by apply start_analysis_InvA.
Qed.

Lemma onRemoved_InvA T s : InvA s → InvA (onRemoved T s).
Proof.
  intros HA. apply (cancel_and_delete_InvA T) in HA. revert HA. unfold onRemoved.
  apply InvA_same; destruct (cancel_and_delete T s); reflexivity.
Qed.

Lemma onUpdated_InvA T status tabUrl now s : InvA s → InvA (onUpdated T status tabUrl now s).
Proof.
  intros HA. unfold onUpdated. case_bool_decide; [|done].
  destruct (is_system_url tabUrl).
  - revert HA. apply InvA_same; destruct s; reflexivity.
  - apply (cancel_and_delete_InvA T) in HA. revert HA.
    apply InvA_same; destruct (cancel_and_delete T s); reflexivity.
Qed.

Lemma step_InvA hostname ev s s' :
  InvA s → step hostname ev s = Some s' → InvA s'.
Proof.
  intros HA Hstep. destruct ev; simpl in Hstep.
  - injection Hstep as <-. revert HA. unfold onMessage_analyzeContent.
    apply InvA_same; destruct s, skipped; reflexivity.
  - destruct (pending_ignore s !! rid) as [rq|]; [|done]. injection Hstep as <-.
    apply on_ignore_checked_InvA. revert HA. apply InvA_same; destruct s; reflexivity.
  - destruct (activations s !! k) as [a|]; [|done]. simpl in Hstep.
    destruct (a_stage a); try done. injection Hstep as <-. by apply then_callback_InvA.
  - destruct (activations s !! k) as [a|]; [|done]. simpl in Hstep.
    destruct (a_stage a); try done. injection Hstep as <-.
    by apply tabs_get_callback_InvA.
  - case_bool_decide; [|done]. injection Hstep as <-. by apply watchdog_InvA.
  - injection Hstep as <-. by apply onRemoved_InvA.
  - injection Hstep as <-. by apply onUpdated_InvA.
  - injection Hstep as <-. revert HA. apply InvA_same; destruct s; reflexivity.
  - destruct (inits s !! i) as [[]|]; try done. injection Hstep as <-.
    revert HA. unfold initializeAI_loaded.
    destruct (bool_decide (stored_activeMode s = Some "compatibility"));
      apply InvA_same; destruct s; reflexivity.
  - destruct (inits s !! i) as [[]|]; try done. injection Hstep as <-.
    revert HA. unfold initializeAI_done.
    apply InvA_same; destruct s, o as [[?|]|]; reflexivity.
  - injection Hstep as <-. revert HA. apply InvA_same; destruct s; reflexivity.
  - injection Hstep as <-. revert HA. unfold cleanup.
    apply InvA_same; destruct s; simpl; case_bool_decide; reflexivity.
  - injection Hstep as <-. revert HA. apply InvA_same; destruct s; reflexivity.
Qed.

Lemma initial_InvA : InvA initial_world.
Proof.
  split_and!; intros ?; intros; simpl in *;
    try (by rewrite ?lookup_empty in *); set_solver.
Qed.

(** ** Invariants of the response log *)

Lemma silent_in_snoc resp rid rid0 r0 :
  silent_in resp rid → rid ≠ rid0 → silent_in (resp ++ [(rid0, r0)]) rid.
Proof.
  intros Hs Hne r Hin. apply elem_of_app in Hin as [Hin|Hin]; [by eapply Hs|].
  apply list_elem_of_singleton in Hin. congruence.
Qed.

Section ResponseInvariant.
Variables (reg : gmap Z nat) (acts : list Activation).
Variables (pend : gmap nat Request) (resp : list (nat * AnalysisResult)) (nrid : nat).
Hypothesis HB : InvB_on reg acts pend resp nrid.

(** A message that is not skipped: a new pending request. *)
Lemma InvB_on_new_pending rq :
  rq_id rq = nrid → InvB_on reg acts (<[nrid := rq]> pend) resp (S nrid).
Proof.
  destruct HB as ((Hr1 & Hr2 & Hr3 & Hr4) & Hu1 & Hu2). intros Hid.
  split; [split_and!|split]; try done.
  - intros k a Ha. destruct (Hr1 _ _ Ha) as [Hlt Hnp]. split; [lia|].
    rewrite lookup_insert_ne by lia. done.
  - intros rid rq' H'. apply lookup_insert_Some in H' as [[<- <-]|[Hne H']].
    + split_and!; [lia|done|]. intros r Hin. apply Hr4 in Hin. lia.
    + destruct (Hr3 _ _ H') as (? & ? & ?). split_and!; [lia|done..].
  - intros rid r Hin. apply Hr4 in Hin. lia.
Qed.

(** A skipped message: answered at once on a new identifier. *)
Lemma InvB_on_answer_fresh r :
  InvB_on reg acts pend (resp ++ [(nrid, r)]) (S nrid).
Proof.
  destruct HB as ((Hr1 & Hr2 & Hr3 & Hr4) & Hu1 & Hu2).
  split; [split_and!|split]; try done.
  - intros k a Ha. destruct (Hr1 _ _ Ha) as [Hlt Hnp]. split; [lia|done].
  - intros rid rq' H'. destruct (Hr3 _ _ H') as (? & ? & ?).
    split_and!; [lia|done|]. apply silent_in_snoc; [done|lia].
  - intros rid r' Hin. apply elem_of_app in Hin as [Hin|Hin].
    + apply Hr4 in Hin. lia.
    + apply list_elem_of_singleton in Hin. injection Hin as -> _. lia.
  - intros T k a HT Ha. apply silent_in_snoc; [by eapply Hu1|].
    destruct (Hr1 _ _ Ha). lia.
  - intros k a Ha Hc. apply silent_in_snoc; [by eapply Hu2|].
    destruct (Hr1 _ _ Ha). lia.
Qed.

(** An ignored page or a cache hit: a pending request is answered. *)
Lemma InvB_on_answer_pending rid rq r :
  pend !! rid = Some rq →
  InvB_on reg acts (delete rid pend) (resp ++ [(rid, r)]) nrid.
Proof.
  destruct HB as ((Hr1 & Hr2 & Hr3 & Hr4) & Hu1 & Hu2). intros Hp.
  assert (∀ k a, acts !! k = Some a → a_rid a ≠ rid) as Hne.
  { intros k a Ha E. destruct (Hr1 _ _ Ha). congruence. }
  split; [split_and!|split]; try done.
  - intros k a Ha. destruct (Hr1 _ _ Ha) as [Hlt Hnp]. split; [done|].
    apply lookup_delete_None. by right.
  - intros rid' rq' H'. apply lookup_delete_Some in H' as [Hn H'].
    destruct (Hr3 _ _ H') as (? & ? & ?). split_and!; try done.
    by apply silent_in_snoc.
  - intros rid' r' Hin. apply elem_of_app in Hin as [Hin|Hin]; [by eapply Hr4|].
    apply list_elem_of_singleton in Hin. injection Hin as -> _.
    by destruct (Hr3 _ _ Hp).
  - intros T k a HT Ha. apply silent_in_snoc; [by eapply Hu1|by eapply Hne].
  - intros k a Ha Hc. apply silent_in_snoc; [by eapply Hu2|by eapply Hne].
Qed.

(** Cancelling the registered tracker of a tab. *)
Lemma InvB_on_cancel T k a :
  reg !! T = Some k → acts !! k = Some a →
  InvB_on (delete T reg) (<[k := set_cancelled a]> acts) pend resp nrid.
Proof.
  destruct HB as ((Hr1 & Hr2 & Hr3 & Hr4) & Hu1 & Hu2). intros HT Ha.
  split; [split_and!|split]; try done.
  - intros k' a' H'. apply list_lookup_insert_Some in H' as [(-> & <- & _)|[_ H']];
      simpl; eauto.
  - intros k1 k2 a1 a2 H1 H2.
    apply list_lookup_insert_Some in H1 as [(-> & <- & _)|[? H1]];
      apply list_lookup_insert_Some in H2 as [(-> & <- & _)|[? H2]]; simpl; eauto.
  - intros T' k' a' H' Ha'. apply lookup_delete_Some in H' as [_ H'].
    apply list_lookup_insert_Some in Ha' as [(-> & <- & _)|[_ Ha']]; simpl; eauto.
  - intros k' a' H'. apply list_lookup_insert_Some in H' as [(-> & <- & _)|[_ H']];
      simpl; eauto.
Qed.

(** Dropping a registry entry. *)
Lemma InvB_on_unregister T : InvB_on (delete T reg) acts pend resp nrid.
Proof.
  destruct HB as (Hr & Hu1 & Hu2). split; [done|split; [|done]].
  intros T' k a H'. apply lookup_delete_Some in H' as [_ H']. eauto.
Qed.

(** Changing the stage of an activation. *)
Lemma InvB_on_stage k a st :
  acts !! k = Some a → InvB_on reg (<[k := set_stage st a]> acts) pend resp nrid.
Proof.
  destruct HB as ((Hr1 & Hr2 & Hr3 & Hr4) & Hu1 & Hu2). intros Ha.
  split; [split_and!|split]; try done.
  - intros k' a' H'. apply list_lookup_insert_Some in H' as [(-> & <- & _)|[_ H']];
      simpl; eauto.
  - intros k1 k2 a1 a2 H1 H2.
    apply list_lookup_insert_Some in H1 as [(-> & <- & _)|[? H1]];
      apply list_lookup_insert_Some in H2 as [(-> & <- & _)|[? H2]]; simpl; eauto.
  - intros T' k' a' H' Ha'.
    apply list_lookup_insert_Some in Ha' as [(-> & <- & _)|[_ Ha']]; simpl; eauto.
  - intros k' a' H'. apply list_lookup_insert_Some in H' as [(-> & <- & _)|[_ H']];
      simpl; eauto.
Qed.

(** Allocating the tracker of a pending request and filing it. *)
Lemma InvB_on_register T rid rq new :
  (∀ T' k, reg !! T' = Some k → k < List.length acts) →
  pend !! rid = Some rq → a_rid new = rid → cancelled (a_tracker new) = false →
  InvB_on (<[T := List.length acts]> reg) (acts ++ [new]) (delete rid pend) resp nrid.
Proof.
  destruct HB as ((Hr1 & Hr2 & Hr3 & Hr4) & Hu1 & Hu2). intros Hreg Hp Hid Hcan.
  destruct (Hr3 _ _ Hp) as (Hlt & _ & Hsil).
  assert (∀ k a, acts !! k = Some a → a_rid a ≠ rid) as Hne.
  { intros k a Ha E. destruct (Hr1 _ _ Ha). congruence. }
  split; [split_and!|split].
  - intros k a Ha. apply lookup_app_Some in Ha as [Ha|[_ Ha]].
    + destruct (Hr1 _ _ Ha). split; [done|]. apply lookup_delete_None. by right.
    + apply list_lookup_singleton_Some in Ha as [_ <-]. rewrite Hid.
      split; [done|]. apply lookup_delete_None. by left.
  - intros k1 k2 a1 a2 H1 H2 E.
    apply lookup_app_Some in H1 as [H1|[Hg1 H1]];
      apply lookup_app_Some in H2 as [H2|[Hg2 H2]].
    + eauto.
    + apply list_lookup_singleton_Some in H2 as [_ <-]. exfalso.
      eapply Hne; [exact H1|congruence].
    + apply list_lookup_singleton_Some in H1 as [_ <-]. exfalso.
      eapply Hne; [exact H2|congruence].
    + apply list_lookup_singleton_Some in H1 as [? _].
      apply list_lookup_singleton_Some in H2 as [? _]. lia.
  - intros rid' rq' H'. apply lookup_delete_Some in H' as [_ H']. eauto.
  - done.
  - intros T' k a H' Ha. apply lookup_insert_Some in H' as [[<- <-]|[_ H']].
    + rewrite lookup_app_r, Nat.sub_diag in Ha by done. simpl in Ha.
      injection Ha as <-. by rewrite Hid.
    + apply lookup_app_Some in Ha as [Ha|[Hg Ha]]; [eauto|].
      apply Hreg in H'. lia.
  - intros k a Ha Hc. apply lookup_app_Some in Ha as [Ha|[_ Ha]]; [eauto|].
    apply list_lookup_singleton_Some in Ha as [_ <-]. congruence.
Qed.

(** The watchdog or the [chrome.tabs.get] callback answers the request of
    a tracker that is neither cancelled nor registered. *)
Lemma InvB_on_answer k a r :
  acts !! k = Some a → cancelled (a_tracker a) = false →
  (∀ T, reg !! T ≠ Some k) →
  InvB_on reg acts pend (resp ++ [(a_rid a, r)]) nrid.
Proof.
  destruct HB as ((Hr1 & Hr2 & Hr3 & Hr4) & Hu1 & Hu2). intros Ha Hcan Hnr.
  split; [split_and!|split]; try done.
  - intros rid' rq' H'. destruct (Hr3 _ _ H') as (? & ? & ?). split_and!; try done.
    apply silent_in_snoc; [done|]. intros ->. destruct (Hr1 _ _ Ha). congruence.
  - intros rid' r' Hin. apply elem_of_app in Hin as [Hin|Hin]; [by eapply Hr4|].
    apply list_elem_of_singleton in Hin. injection Hin as -> _.
    by destruct (Hr1 _ _ Ha).
  - intros T k' a' HT Ha'. apply silent_in_snoc; [by eapply Hu1|].
    intros E. assert (k' = k) as -> by eauto. by eapply Hnr.
  - intros k' a' Ha' Hc. apply silent_in_snoc; [by eapply Hu2|].
    intros E. assert (k' = k) as -> by eauto. congruence.
Qed.
End ResponseInvariant.

(** *** Every callback preserves the response invariant *)

Lemma InvB_same s s' :
  ACTIVE_ANALYSES s' = ACTIVE_ANALYSES s → activations s' = activations s →
  pending_ignore s' = pending_ignore s → responses s' = responses s →
  next_rid s' = next_rid s → InvB s → InvB s'.
Proof. unfold InvB. intros -> -> -> -> ->. done. Qed.

Lemma InvA_registered_lt s T k :
  InvA s → ACTIVE_ANALYSES s !! T = Some k → k < List.length (activations s).
Proof.
  intros (Hreg & _) HT. destruct (Hreg _ _ HT) as (a & Ha & _).
  by eapply lookup_lt_Some.
Qed.

Lemma update_stage_InvB k st s : InvB s → InvB (update_stage k st s).
Proof.
  intros HB. unfold update_stage.
  destruct (activations s !! k) as [a|] eqn:Ha; [|done].
  destruct s; world_cbv. by eapply InvB_on_stage.
Qed.

Lemma cancel_and_delete_InvB T s : InvA s → InvB s → InvB (cancel_and_delete T s).
Proof.
  intros HA HB. unfold cancel_and_delete, cancel_tracker.
  destruct (ACTIVE_ANALYSES s !! T) as [k|] eqn:HT; [|done].
  pose proof HA as (Hreg & _ & Hh & _).
  destruct (Hreg _ _ HT) as (a & Ha & _). rewrite Ha, (Hh _ _ Ha).
  destruct s; world_cbv. by eapply InvB_on_cancel.
Qed.

Lemma then_callback_InvB k result s : InvA s → InvB s → InvB (then_callback k result s).
Proof.
  intros HA HB. unfold then_callback.
  destruct (activations s !! k) as [a|] eqn:Ha; [|done].
  destruct (cancelled (a_tracker a)) eqn:Hcan.
  - by apply update_stage_InvB.
  - pose proof HA as (_ & _ & Hh & _). rewrite (Hh _ _ Ha).
    unfold update_stage. destruct s; world_cbv. rewrite Ha.
    eapply InvB_on_stage; [|done]. by apply InvB_on_unregister.
Qed.

Lemma tabs_get_callback_InvB k result tab now s a :
  InvA s → InvB s →
  activations s !! k = Some a → a_stage a = AwaitingTab result →
  InvB (tabs_get_callback k result tab now s).
Proof.
  intros HA HB Ha Hst. unfold tabs_get_callback. rewrite Ha.
  assert (InvB (update_stage k Finished s)) as HB' by (by apply update_stage_InvB).
  destruct tab as [tabUrl|]; [|done].
  case_bool_decide; [done|].
  pose proof HA as (Hreg & _ & _ & Hq).
  assert (cancelled (a_tracker a) = false) as Hcan.
  { destruct (cancelled (a_tracker a)) eqn:E; [|done].
    by destruct (Hq _ _ Ha E result). }
  assert (∀ T, ACTIVE_ANALYSES s !! T ≠ Some k) as Hnr.
  { intros T HT. destruct (Hreg _ _ HT) as (a' & Ha' & _ & _ & _ & Hs').
    assert (a' = a) as -> by congruence. by destruct (Hs' result). }
  clear HB'. unfold update_stage. rewrite Ha.
  destruct s; world_cbv.
  eapply InvB_on_stage; [|done]. by eapply InvB_on_answer.
Qed.

Lemma watchdog_InvB k s :
  InvA s → InvB s → k ∈ timers s →
  InvB (watchdog_callback k (set_timers (timers s ∖ {[k]}) s)).
Proof.
  intros HA HB Hk. pose proof HA as (Hreg & Htm & _ & _).
  destruct (Htm _ Hk) as (a & Ha & Hcan). unfold watchdog_callback.
  assert (∀ T, delete (a_tabId a) (ACTIVE_ANALYSES s) !! T ≠ Some k) as Hnr.
  { intros T HT. apply lookup_delete_Some in HT as [Hne HT].
    destruct (Hreg _ _ HT) as (a' & Ha' & Ht' & _). congruence. }
  destruct s; world_cbv. rewrite Ha, Hcan.
  eapply InvB_on_answer; [|done..]. by apply InvB_on_unregister.
Qed.

Lemma register_tracker_InvB rid rq url cacheKey now s :
  InvA s → InvB s → pending_ignore s !! rid = Some rq →
  InvB (register_tracker rq url cacheKey now
          (set_pending_ignore (delete rid (pending_ignore s)) s)).
Proof.
  intros HA HB Hp.
  assert (rq_id rq = rid) as Hid.
  { destruct HB as ((_ & _ & Hr3 & _) & _). by destruct (Hr3 _ _ Hp) as (_ & ? & _). }
  unfold register_tracker, cancel_previous, cancel_tracker.
  pose proof HA as (Hreg & _ & Hh & _).
  destruct s; world_cbv.
  destruct (ACTIVE_ANALYSES0 !! rq_tabId rq) as [k|] eqn:HT.
  - destruct (Hreg _ _ HT) as (a & Ha & _). rewrite Ha, (Hh _ _ Ha).
    rewrite <- (insert_delete_eq ACTIVE_ANALYSES0).
    eapply InvB_on_register; try done.
    + by eapply InvB_on_cancel.
    + intros T' k' H'. apply lookup_delete_Some in H' as [_ H'].
      rewrite length_insert. destruct (Hreg _ _ H') as (a' & Ha' & _).
      by eapply lookup_lt_Some.
  - eapply InvB_on_register; try done.
    intros T' k' H'. destruct (Hreg _ _ H') as (a' & Ha' & _).
    by eapply lookup_lt_Some.
Qed.

Lemma on_ignore_checked_InvB hostname rid rq now s :
  InvA s → InvB s → pending_ignore s !! rid = Some rq →
  InvB (on_ignore_checked hostname rq now
          (set_pending_ignore (delete rid (pending_ignore s)) s)).
Proof.
  intros HA HB Hp.
  assert (rq_id rq = rid) as Hid.
  { destruct HB as ((_ & _ & Hr3 & _) & _). by destruct (Hr3 _ _ Hp) as (_ & ? & _). }
  unfold on_ignore_checked.
  destruct (shouldIgnoreUrl _ _ _).
  { destruct s; world_cbv. rewrite Hid. by eapply InvB_on_answer_pending. }
  destruct (DETECTION_CACHE _ !! _).
  { destruct s; world_cbv. rewrite Hid. by eapply InvB_on_answer_pending. }
  unfold start_analysis.
  pose proof (register_tracker_InvB rid rq (request_url (rq_tabUrl rq))
                (getCacheKey (request_url (rq_tabUrl rq)) (rq_content rq) (rq_tabId rq)
                   (set_pending_ignore (delete rid (pending_ignore s)) s))
                now s HA HB Hp) as HB'.
  assert (InvA (set_pending_ignore (delete rid (pending_ignore s)) s)) as HA1.
  { revert HA. apply InvA_same; destruct s; reflexivity. }
  pose proof (register_tracker_InvA rq (request_url (rq_tabUrl rq))
                (getCacheKey (request_url (rq_tabUrl rq)) (rq_content rq) (rq_tabId rq)
                   (set_pending_ignore (delete rid (pending_ignore s)) s))
                now _ HA1) as HA'.
  destruct (analyzeContent _ _ _).
  - by apply then_callback_InvB.
  - by apply update_stage_InvB.
Qed.

Lemma onMessage_InvB tabId tabUrl content skipped now s :
  InvB s → InvB (onMessage_analyzeContent tabId tabUrl content skipped now s).
Proof.
  intros HB. unfold onMessage_analyzeContent. destruct skipped.
  - destruct s; world_cbv. by apply InvB_on_answer_fresh.
  - destruct s; world_cbv. by apply InvB_on_new_pending.
Qed.

Lemma step_InvB hostname ev s s' :
  InvA s → InvB s → step hostname ev s = Some s' → InvB s'.
Proof.
  intros HA HB Hstep. destruct ev; simpl in Hstep.
  - injection Hstep as <-. by apply onMessage_InvB.
  - destruct (pending_ignore s !! rid) as [rq|] eqn:Hp; [|done]. injection Hstep as <-.
    by apply on_ignore_checked_InvB.
  - destruct (activations s !! k) as [a|]; [|done]. simpl in Hstep.
    destruct (a_stage a); try done. injection Hstep as <-. by apply then_callback_InvB.
  - destruct (activations s !! k) as [a|] eqn:Ha; [|done]. simpl in Hstep.
    destruct (a_stage a) eqn:Hst; try done. injection Hstep as <-.
    by eapply tabs_get_callback_InvB.
  - case_bool_decide; [|done]. injection Hstep as <-. by apply watchdog_InvB.
  - injection Hstep as <-. apply (cancel_and_delete_InvB tabId) in HB; [|done].
    revert HB. unfold onRemoved.
    apply InvB_same; destruct (cancel_and_delete tabId s); reflexivity.
  - injection Hstep as <-. unfold onUpdated. case_bool_decide; [|done].
    destruct (is_system_url tabUrl).
    + revert HB. apply InvB_same; destruct s; reflexivity.
    + apply (cancel_and_delete_InvB tabId) in HB; [|done]. revert HB.
      apply InvB_same; destruct (cancel_and_delete tabId s); reflexivity.
  - injection Hstep as <-. revert HB. apply InvB_same; destruct s; reflexivity.
  - destruct (inits s !! i) as [[]|]; try done. injection Hstep as <-.
    revert HB. unfold initializeAI_loaded.
    destruct (bool_decide (stored_activeMode s = Some "compatibility"));
      apply InvB_same; destruct s; reflexivity.
  - destruct (inits s !! i) as [[]|]; try done. injection Hstep as <-.
    revert HB. unfold initializeAI_done.
    apply InvB_same; destruct s, o as [[?|]|]; reflexivity.
  - injection Hstep as <-. revert HB. apply InvB_same; destruct s; reflexivity.
  - injection Hstep as <-. revert HB. unfold cleanup.
    apply InvB_same; destruct s; simpl; case_bool_decide; reflexivity.
  - injection Hstep as <-. revert HB. apply InvB_same; destruct s; reflexivity.
Qed.

Lemma initial_InvB : InvB initial_world.
Proof.
  split; [split_and!|split]; intros ?; intros; simpl in *;
    try (by rewrite ?lookup_empty in *); try done; set_solver.
Qed.

Lemma run_Inv hostname evs s s' :
  InvA s → InvB s → run hostname evs s = Some s' → InvA s' ∧ InvB s'.
Proof.
  revert s. induction evs as [|ev evs IH]; intros s HA HB Hrun; simpl in Hrun.
  - by injection Hrun as <-.
  - destruct (step hostname ev s) as [s1|] eqn:Hstep; [|done]. simpl in Hrun.
    eapply IH; [| |done]; [by eapply step_InvA|by eapply step_InvB].
Qed.

Lemma reachable_Inv hostname s : reachable hostname s → InvA s ∧ InvB s.
Proof. intros [evs Hrun]. eapply run_Inv; [apply initial_InvA|apply initial_InvB|done]. Qed.

(** ** Activations over time *)

Lemma evolves_refl a : evolves a a.
Proof. by repeat split. Qed.

Lemma acts_evolve_refl acts : acts_evolve acts acts.
Proof. intros k a Ha. exists a. split; [done|apply evolves_refl]. Qed.

Lemma acts_evolve_trans acts1 acts2 acts3 :
  acts_evolve acts1 acts2 → acts_evolve acts2 acts3 → acts_evolve acts1 acts3.
Proof.
  intros H12 H23 k a Ha. destruct (H12 _ _ Ha) as (a2 & Ha2 & E2).
  destruct (H23 _ _ Ha2) as (a3 & Ha3 & E3). exists a3. split; [done|].
  destruct E2 as (?&?&?&?&?&?), E3 as (?&?&?&?&?&?).
  repeat split; try congruence. eauto.
Qed.

Lemma acts_evolve_insert acts k a a' :
  acts !! k = Some a → evolves a a' → acts_evolve acts (<[k := a']> acts).
Proof.
  intros Ha E k' b Hb. destruct (decide (k' = k)) as [->|Hne].
  - assert (b = a) as -> by congruence. exists a'.
    by rewrite list_lookup_insert_eq by (by eapply lookup_lt_Some).
  - exists b. rewrite list_lookup_insert_ne by done. split; [done|apply evolves_refl].
Qed.

Lemma acts_evolve_app acts new : acts_evolve acts (acts ++ new).
Proof.
  intros k a Ha. exists a. split; [|apply evolves_refl].
  by apply lookup_app_l_Some.
Qed.

Lemma evolves_set_stage st a : evolves a (set_stage st a).
Proof. by repeat split. Qed.

Lemma evolves_set_cancelled a : evolves a (set_cancelled a).
Proof. by repeat split. Qed.

Lemma update_stage_evolves k st s :
  acts_evolve (activations s) (activations (update_stage k st s)).
Proof.
  unfold update_stage. destruct (activations s !! k) as [a|] eqn:Ha;
    [|apply acts_evolve_refl].
  replace (activations (set_activations (<[k:=set_stage st a]> (activations s)) s))
    with (<[k:=set_stage st a]> (activations s)) by (by destruct s).
  eapply acts_evolve_insert; [done|apply evolves_set_stage].
Qed.

Lemma cancel_tracker_evolves k s :
  acts_evolve (activations s) (activations (cancel_tracker k s)).
Proof.
  unfold cancel_tracker. destruct (activations s !! k) as [a|] eqn:Ha;
    [|apply acts_evolve_refl].
  replace (activations (clearTimeout _ _))
    with (<[k:=set_cancelled a]> (activations s))
    by (by destruct s, (timeout (a_tracker a))).
  eapply acts_evolve_insert; [done|apply evolves_set_cancelled].
Qed.

Lemma cancel_and_delete_evolves T s :
  acts_evolve (activations s) (activations (cancel_and_delete T s)).
Proof.
  unfold cancel_and_delete. destruct (ACTIVE_ANALYSES s !! T) as [k|];
    [|apply acts_evolve_refl].
  replace (activations (set_ACTIVE_ANALYSES _ (cancel_tracker k s)))
    with (activations (cancel_tracker k s)) by (by destruct (cancel_tracker k s)).
  apply cancel_tracker_evolves.
Qed.

Lemma then_callback_evolves k result s :
  acts_evolve (activations s) (activations (then_callback k result s)).
Proof.
  unfold then_callback. destruct (activations s !! k) as [a|] eqn:Ha;
    [|apply acts_evolve_refl].
  destruct (cancelled (a_tracker a)); [apply update_stage_evolves|].
  eapply acts_evolve_trans; [|apply update_stage_evolves].
  replace (activations (set_ACTIVE_ANALYSES _ _)) with (activations s)
    by (by destruct s, (timeout (a_tracker a))).
  apply acts_evolve_refl.
Qed.

Lemma tabs_get_callback_evolves k result tab now s :
  acts_evolve (activations s) (activations (tabs_get_callback k result tab now s)).
Proof.
  unfold tabs_get_callback. destruct (activations s !! k) as [a|] eqn:Ha;
    [|apply acts_evolve_refl].
  destruct tab as [tabUrl|]; [|apply update_stage_evolves].
  case_bool_decide; [apply update_stage_evolves|].
  eapply acts_evolve_trans; [apply (update_stage_evolves k Finished)|].
  replace (activations (sendResponse _ _ _)) with (activations (update_stage k Finished s))
    by (by destruct (update_stage k Finished s)).
  apply acts_evolve_refl.
Qed.

Lemma watchdog_callback_activations k s :
  activations (watchdog_callback k s) = activations s.
Proof.
  unfold watchdog_callback. destruct (activations s !! k) as [a|]; [|done].
  destruct (cancelled (a_tracker a)); [done|]. by destruct s.
Qed.

Lemma register_tracker_evolves rq url cacheKey now s :
  acts_evolve (activations s) (activations (register_tracker rq url cacheKey now s)).
Proof.
  unfold register_tracker.
  eapply acts_evolve_trans with (activations (cancel_previous (rq_tabId rq) s)).
  { unfold cancel_previous. destruct (ACTIVE_ANALYSES s !! rq_tabId rq);
      [apply cancel_tracker_evolves|apply acts_evolve_refl]. }
  destruct (cancel_previous (rq_tabId rq) s). simpl. apply acts_evolve_app.
Qed.

Lemma start_analysis_evolves rq url cacheKey now s :
  acts_evolve (activations s) (activations (start_analysis rq url cacheKey now s)).
Proof.
  unfold start_analysis.
  eapply acts_evolve_trans; [apply (register_tracker_evolves rq url cacheKey now)|].
  destruct (analyzeContent _ _ _); [apply then_callback_evolves|apply update_stage_evolves].
Qed.

Lemma step_evolves hostname ev s s' :
  step hostname ev s = Some s' → acts_evolve (activations s) (activations s').
Proof.
  intros Hstep. destruct ev; simpl in Hstep.
  - injection Hstep as <-. unfold onMessage_analyzeContent.
    replace (activations (if skipped then _ else _)) with (activations s)
      by (by destruct s, skipped).
    apply acts_evolve_refl.
  - destruct (pending_ignore s !! rid) as [rq|]; [|done]. injection Hstep as <-.
    unfold on_ignore_checked.
    destruct (shouldIgnoreUrl _ _ _).
    { replace (activations (sendResponse _ _ _)) with (activations s) by (by destruct s).
      apply acts_evolve_refl. }
    destruct (DETECTION_CACHE _ !! _).
    { replace (activations (updateBadge _ _ _ _)) with (activations s) by (by destruct s).
      apply acts_evolve_refl. }
    eapply acts_evolve_trans; [|apply start_analysis_evolves].
    replace (activations (set_pending_ignore _ s)) with (activations s) by (by destruct s).
    apply acts_evolve_refl.
  - destruct (activations s !! k) as [a|]; [|done]. simpl in Hstep.
    destruct (a_stage a); try done. injection Hstep as <-. apply then_callback_evolves.
  - destruct (activations s !! k) as [a|]; [|done]. simpl in Hstep.
    destruct (a_stage a); try done. injection Hstep as <-.
    apply tabs_get_callback_evolves.
  - case_bool_decide; [|done]. injection Hstep as <-.
    rewrite watchdog_callback_activations.
    replace (activations (set_timers _ s)) with (activations s) by (by destruct s).
    apply acts_evolve_refl.
  - injection Hstep as <-. unfold onRemoved.
    replace (activations (set_DETECTION_CACHE _ _))
      with (activations (cancel_and_delete tabId s))
      by (by destruct (cancel_and_delete tabId s)).
    apply cancel_and_delete_evolves.
  - injection Hstep as <-. unfold onUpdated. case_bool_decide; [|apply acts_evolve_refl].
    destruct (is_system_url tabUrl).
    + replace (activations (set_badge _ _)) with (activations s) by (by destruct s).
      apply acts_evolve_refl.
    + replace (activations (startScanningAnimation _ _))
        with (activations (cancel_and_delete tabId s))
        by (by destruct (cancel_and_delete tabId s)).
      apply cancel_and_delete_evolves.
  - injection Hstep as <-.
    replace (activations (switchMode _ s)) with (activations s) by (by destruct s).
    apply acts_evolve_refl.
  - destruct (inits s !! i) as [[]|]; try done. injection Hstep as <-.
    replace (activations (initializeAI_loaded i s)) with (activations s).
    { apply acts_evolve_refl. }
    unfold initializeAI_loaded.
    by destruct (bool_decide (stored_activeMode s = Some "compatibility")), s.
  - destruct (inits s !! i) as [[]|]; try done. injection Hstep as <-.
    replace (activations (initializeAI_done i cloud o s)) with (activations s)
      by (by destruct s, o as [[?|]|]).
    apply acts_evolve_refl.
  - injection Hstep as <-.
    replace (activations (clearTabCache _ s)) with (activations s) by (by destruct s).
    apply acts_evolve_refl.
  - injection Hstep as <-.
    replace (activations (cleanup _ s)) with (activations s).
    { apply acts_evolve_refl. }
    unfold cleanup. by destruct (bool_decide _), s.
  - injection Hstep as <-.
    replace (activations (set_stored_ignoreRules _ s)) with (activations s)
      by (by destruct s).
    apply acts_evolve_refl.
Qed.

Lemma run_evolves hostname evs s s' :
  run hostname evs s = Some s' → acts_evolve (activations s) (activations s').
Proof.
  revert s. induction evs as [|ev evs IH]; intros s Hrun; simpl in Hrun.
  - injection Hrun as <-. apply acts_evolve_refl.
  - destruct (step hostname ev s) as [s1|] eqn:Hstep; [|done]. simpl in Hrun.
    eapply acts_evolve_trans; [by eapply step_evolves|by apply IH].
Qed.

Lemma run_app hostname evs1 evs2 s s1 s2 :
  run hostname evs1 s = Some s1 → run hostname evs2 s1 = Some s2 →
  run hostname (evs1 ++ evs2) s = Some s2.
Proof.
  revert s. induction evs1 as [|ev evs1 IH]; intros s H1 H2; simpl in *.
  - by injection H1 as <-.
  - destruct (step hostname ev s) as [s'|]; [|done]. simpl in *. by eapply IH.
Qed.

Lemma reachable_run hostname evs s s' :
  reachable hostname s → run hostname evs s = Some s' → reachable hostname s'.
Proof. intros [evs0 H0] H. exists (evs0 ++ evs)%list. by eapply run_app. Qed.

(** Once a tracker is cancelled, nothing is ever sent on its request. *)
Lemma cancelled_forever_silent hostname s k a evs s' :
  reachable hostname s → activations s !! k = Some a →
  cancelled (a_tracker a) = true →
  run hostname evs s = Some s' → silent (a_rid a) s'.
Proof.
  intros Hreach Ha Hcan Hrun.
  destruct (run_evolves _ _ _ _ Hrun _ _ Ha) as (a' & Ha' & Hrid & _ & _ & _ & _ & Hc').
  destruct (reachable_Inv hostname s') as [_ (_ & _ & Hu2)];
    [by eapply reachable_run|].
  rewrite <- Hrid. eapply Hu2; eauto.
Qed.

(** ** Effects of the settlement callbacks *)

Lemma update_stage_outputs k st s : same_outputs s (update_stage k st s).
Proof.
  unfold update_stage, same_outputs.
  destruct (activations s !! k); [|done]. by destruct s.
Qed.

Lemma same_outputs_trans s1 s2 s3 :
  same_outputs s1 s2 → same_outputs s2 s3 → same_outputs s1 s3.
Proof. unfold same_outputs. intros (<- & <- & <- & <-) (<- & <- & <- & <-). done. Qed.

Lemma then_callback_outputs k result s : same_outputs s (then_callback k result s).
Proof.
  unfold then_callback.
  destruct (activations s !! k) as [a|]; [|done].
  destruct (cancelled (a_tracker a)); [apply update_stage_outputs|].
  eapply same_outputs_trans; [|apply update_stage_outputs].
  unfold same_outputs. by destruct s, (timeout (a_tracker a)).
Qed.

Lemma tabs_get_callback_discards k result tab now s a :
  activations s !! k = Some a → tab ≠ Some (a_url a) →
  same_outputs s (tabs_get_callback k result tab now s).
Proof.
  intros Ha Hne. unfold tabs_get_callback. rewrite Ha.
  destruct tab as [tabUrl|]; [|apply update_stage_outputs].
  rewrite bool_decide_eq_true_2 by congruence. apply update_stage_outputs.
Qed.

Lemma tabs_get_callback_commits k result now s a :
  activations s !! k = Some a →
  DETECTION_CACHE (tabs_get_callback k result (Some (a_url a)) now s)
  = <[a_cacheKey a := result]> (DETECTION_CACHE s)
  ∧ stored_detections (tabs_get_callback k result (Some (a_url a)) now s)
    = <[a_tabId a := {| det_result := StoredAnalysis result;
                        det_url := Some (a_url a);
                        det_timestamp := now |}]> (stored_detections s)
  ∧ responses (tabs_get_callback k result (Some (a_url a)) now s)
    = (responses s ++ [(a_rid a, result)])%list.
Proof.
  intros Ha. unfold tabs_get_callback. rewrite Ha.
  rewrite bool_decide_eq_false_2 by (intros H; by apply H).
  destruct (update_stage_outputs k Finished s) as (Hc & Hd & _ & Hr).
  revert Hc Hd Hr. destruct (update_stage k Finished s). simpl.
  by intros -> -> ->.
Qed.

Lemma catch_callback_no_commit k message s :
  DETECTION_CACHE (catch_callback k message s) = DETECTION_CACHE s
  ∧ stored_detections (catch_callback k message s) = stored_detections s
  ∧ badge (catch_callback k message s) = badge s.
Proof.
  unfold catch_callback. destruct (activations s !! k) as [a|]; [|done].
  destruct (cancelled (a_tracker a)).
  { by destruct (update_stage_outputs k Finished s) as (-> & -> & -> & _). }
  match goal with |- context [update_stage k Finished ?w] =>
    destruct (update_stage_outputs k Finished w) as (Hc & Hd & Hb & _);
    revert Hc Hd Hb; destruct (update_stage k Finished w) end.
  simpl. intros -> -> ->. by destruct s, (timeout (a_tracker a)).
Qed.

Lemma update_stage_lookup k st s a :
  activations s !! k = Some a →
  activations (update_stage k st s) !! k = Some (set_stage st a).
Proof.
  intros Ha. unfold update_stage. rewrite Ha.
  pose proof (lookup_lt_Some _ _ _ Ha) as Hlt. destruct s; world_cbv.
  by apply list_lookup_insert_eq.
Qed.

(** ** Cancellation paths *)

Lemma not_elem_of_removed (X : gset nat) (k : nat) : k ∉ X ∖ {[k]}.
Proof.
  intros Hin. apply elem_of_difference in Hin as [_ Hn].
  apply Hn. by apply elem_of_singleton.
Qed.

Lemma cancelled_and_cleared_same k s s' :
  activations s' = activations s → timers s' = timers s →
  cancelled_and_cleared k s → cancelled_and_cleared k s'.
Proof. unfold cancelled_and_cleared. by intros -> ->. Qed.

Lemma cancel_and_delete_cancels T k s :
  InvA s → ACTIVE_ANALYSES s !! T = Some k →
  cancelled_and_cleared k (cancel_and_delete T s)
  ∧ ACTIVE_ANALYSES (cancel_and_delete T s) = delete T (ACTIVE_ANALYSES s).
Proof.
  intros (Hreg & _ & Hh & _) HT. unfold cancel_and_delete, cancel_tracker. rewrite HT.
  destruct (Hreg _ _ HT) as (a & Ha & _). rewrite Ha, (Hh _ _ Ha).
  pose proof (lookup_lt_Some _ _ _ Ha) as Hlt.
  unfold cancelled_and_cleared. destruct s; world_cbv. split_and!; try done.
  - exists (set_cancelled a). split; [|done]. by apply list_lookup_insert_eq.
  - apply not_elem_of_removed.
Qed.

Lemma register_tracker_cancels rq url cacheKey now k s :
  InvA s → ACTIVE_ANALYSES s !! rq_tabId rq = Some k →
  cancelled_and_cleared k (cancel_previous (rq_tabId rq) s)
  ∧ ACTIVE_ANALYSES (cancel_previous (rq_tabId rq) s) = ACTIVE_ANALYSES s
  ∧ cancelled_and_cleared k (register_tracker rq url cacheKey now s).
Proof.
  intros (Hreg & _ & Hh & _) HT. unfold register_tracker, cancel_previous, cancel_tracker.
  rewrite HT. destruct (Hreg _ _ HT) as (a & Ha & _). rewrite Ha, (Hh _ _ Ha).
  pose proof (lookup_lt_Some _ _ _ Ha) as Hlt.
  unfold cancelled_and_cleared. destruct s; world_cbv. split_and!; try done.
  - exists (set_cancelled a). split; [|done]. by apply list_lookup_insert_eq.
  - apply not_elem_of_removed.
  - exists (set_cancelled a). split; [|done].
    rewrite lookup_app_l by (by rewrite length_insert).
    by apply list_lookup_insert_eq.
  - rewrite length_insert. intros Hin.
    apply elem_of_union in Hin as [Hin|Hin]; [|by eapply not_elem_of_removed].
    apply elem_of_singleton in Hin. lia.
Qed.

Lemma register_tracker_registry rq url cacheKey now s :
  ACTIVE_ANALYSES (register_tracker rq url cacheKey now s)
  = <[rq_tabId rq := List.length (activations s)]> (ACTIVE_ANALYSES s)
  ∧ List.length (activations s) ∈ timers (register_tracker rq url cacheKey now s).
Proof.
  unfold register_tracker, cancel_previous, cancel_tracker.
  destruct (ACTIVE_ANALYSES s !! rq_tabId rq) as [k|].
  - destruct (activations s !! k) as [a|] eqn:Ha.
    + destruct s, (timeout (a_tracker a)); world_cbv; rewrite length_insert;
        (split; [done|set_solver]).
    + destruct s; world_cbv; (split; [done|set_solver]).
  - destruct s; world_cbv; (split; [done|set_solver]).
Qed.

Lemma cancel_and_delete_registry T s :
  ACTIVE_ANALYSES (cancel_and_delete T s) !! T = None.
Proof.
  unfold cancel_and_delete, cancel_tracker.
  destruct (ACTIVE_ANALYSES s !! T) as [k|] eqn:HT; [|done].
  destruct (activations s !! k) as [a|].
  - destruct s, (timeout (a_tracker a)); world_cbv; apply lookup_delete_eq.
  - destruct s; world_cbv. apply lookup_delete_eq.
Qed.

Lemma onRemoved_registry T s : ACTIVE_ANALYSES (onRemoved T s) !! T = None.
Proof.
  unfold onRemoved. pose proof (cancel_and_delete_registry T s) as H.
  revert H. by destruct (cancel_and_delete T s).
Qed.

Lemma onUpdated_navigation T tabUrl now s :
  is_system_url tabUrl = false →
  ACTIVE_ANALYSES (onUpdated T "loading" tabUrl now s)
  = ACTIVE_ANALYSES (cancel_and_delete T s)
  ∧ activations (onUpdated T "loading" tabUrl now s)
    = activations (cancel_and_delete T s)
  ∧ timers (onUpdated T "loading" tabUrl now s) = timers (cancel_and_delete T s).
Proof.
  intros Hsys. unfold onUpdated. rewrite Hsys. simpl.
  by destruct (cancel_and_delete T s).
Qed.

Lemma then_callback_registry k result s a :
  activations s !! k = Some a → cancelled (a_tracker a) = false →
  ACTIVE_ANALYSES (then_callback k result s) !! a_tabId a = None.
Proof.
  intros Ha Hc. unfold then_callback, update_stage. rewrite Ha, Hc.
  destruct s, (timeout (a_tracker a)); world_cbv; rewrite Ha; apply lookup_delete_eq.
Qed.

Lemma catch_callback_registry k message s a :
  activations s !! k = Some a → cancelled (a_tracker a) = false →
  ACTIVE_ANALYSES (catch_callback k message s) !! a_tabId a = None.
Proof.
  intros Ha Hc. unfold catch_callback, update_stage. rewrite Ha, Hc.
  destruct s, (timeout (a_tracker a)); world_cbv; rewrite Ha; apply lookup_delete_eq.
Qed.

Lemma watchdog_callback_fires k s a :
  activations s !! k = Some a → cancelled (a_tracker a) = false →
  ACTIVE_ANALYSES (watchdog_callback k s) = delete (a_tabId a) (ACTIVE_ANALYSES s)
  ∧ responses (watchdog_callback k s)
    = (responses s ++ [(a_rid a, timeout_result s (a_content a))])%list
  ∧ timers (watchdog_callback k s) = timers s.
Proof.
  intros Ha Hc. unfold watchdog_callback. rewrite Ha, Hc. by destruct s.
Qed.

Lemma silent_responses_of rid s : silent rid s → responses_of rid s = [].
Proof.
  unfold silent, responses_of. induction (responses s) as [|[rid' r] resp IH]; [done|].
  intros H. rewrite filter_cons. destruct (decide _) as [E|E]; simpl in E.
  - subst. exfalso. eapply H. left.
  - apply IH. intros r0 Hin. eapply H. right. exact Hin.
Qed.

Lemma world_after_reachable evs s :
  run example_hostname evs initial_world = Some s → reachable example_hostname s.
Proof. intros H. by exists evs. Qed.

(** ** Navigation race *)

(** C1. For an analysis [k] in a reachable world: the [.then] callback
    writes no cache entry, no stored detection, no icon and no response;
    once the tracker is cancelled the [chrome.tabs.get] callback (the only
    place that commits) can never run for it, now or after the detector
    settles, and the [.catch] callback changes nothing either (and never
    writes the cache, the stored detection or the icon, cancelled or not);
    when [chrome.tabs.get] reports a missing tab or another URL nothing is
    written; a callback that does write found the tracker uncancelled and
    the tab at the request's URL; and a navigation ([loading] of a page that
    is not a system page) cancels the tab's registered tracker. *)
Theorem settlement_commit_guard (hostname : string → option string)
    (s : World) (k : nat) (a : Activation) :
  reachable hostname s →
  activations s !! k = Some a →
  (∀ o s', step hostname (BackendSettled k o) s = Some s' → same_outputs s s')
  ∧ (cancelled (a_tracker a) = true →
       (∀ tab now, step hostname (TabsGet k tab now) s = None)
       ∧ (∀ o s', step hostname (BackendSettled k o) s = Some s' →
            ∀ tab now, step hostname (TabsGet k tab now) s' = None)
       ∧ (∀ message, same_outputs s (catch_callback k message s)))
  ∧ (∀ message,
       DETECTION_CACHE (catch_callback k message s) = DETECTION_CACHE s
       ∧ stored_detections (catch_callback k message s) = stored_detections s
       ∧ badge (catch_callback k message s) = badge s)
  ∧ (∀ tab now s', step hostname (TabsGet k tab now) s = Some s' →
       tab ≠ Some (a_url a) → same_outputs s s')
  ∧ (∀ tab now s', step hostname (TabsGet k tab now) s = Some s' →
       ¬ same_outputs s s' →
       cancelled (a_tracker a) = false ∧ tab = Some (a_url a))
  ∧ (∀ tabUrl now, is_system_url tabUrl = false →
       ACTIVE_ANALYSES s !! a_tabId a = Some k →
       cancelled_and_cleared k (onUpdated (a_tabId a) "loading" tabUrl now s)).
Proof.
  intros Hreach Ha. destruct (reachable_Inv _ _ Hreach) as [HA HB].
  pose proof HA as (Hreg & Htm & Hh & Hq).
  split_and!.
  - intros o s' Hstep. simpl in Hstep. rewrite Ha in Hstep. simpl in Hstep.
    destruct (a_stage a); try done. injection Hstep as <-.
    apply then_callback_outputs.
  - intros Hcan. split_and!.
    + intros tab now. simpl. rewrite Ha. simpl.
      destruct (a_stage a) eqn:Hst; try done. by destruct (Hq _ _ Ha Hcan result).
    + intros o s' Hstep tab now. simpl in Hstep. rewrite Ha in Hstep. simpl in Hstep.
      destruct (a_stage a); try done. injection Hstep as <-.
      unfold then_callback. rewrite Ha, Hcan. simpl.
      by rewrite (update_stage_lookup _ _ _ _ Ha).
    + intros message. unfold catch_callback. rewrite Ha, Hcan.
      apply update_stage_outputs.
  - intros message. apply catch_callback_no_commit.
  - intros tab now s' Hstep Hne. simpl in Hstep. rewrite Ha in Hstep. simpl in Hstep.
    destruct (a_stage a); try done. injection Hstep as <-.
    by eapply tabs_get_callback_discards.
  - intros tab now s' Hstep Hdiff. simpl in Hstep. rewrite Ha in Hstep. simpl in Hstep.
    destruct (a_stage a) eqn:Hst; try done. injection Hstep as <-. split.
    + destruct (cancelled (a_tracker a)) eqn:Hcan; [|done].
      by destruct (Hq _ _ Ha Hcan result).
    + destruct (decide (tab = Some (a_url a))) as [|Hne]; [done|].
      exfalso. apply Hdiff. by eapply tabs_get_callback_discards.
  - intros tabUrl now Hsys HT.
    destruct (onUpdated_navigation (a_tabId a) tabUrl now s Hsys) as (_ & E2 & E3).
    eapply cancelled_and_cleared_same; [exact E2|exact E3|].
    by apply cancel_and_delete_cancels.
Qed.

Lemma settlement_commit_guard_witness :
  same_outputs (world_after one_request)
    (then_callback 0 safe_result (world_after one_request))
  ∧ cancelled_and_cleared 0
      (onUpdated 1 "loading" (Some "http://b.test") 12 (world_after one_request)).
Proof.
  destruct (settlement_commit_guard example_hostname (world_after one_request) 0
              {| a_rid := 0; a_tabId := 1; a_url := "http://a.test"; a_content := "X";
                 a_cacheKey := "tab1:http://a.test:X:cloud";
                 a_tracker := {| cancelled := false; timeout := Some 0; startTime := 11 |};
                 a_stage := AwaitingBackend
                              (AnalyzeCloud (Some ready_sessions) "X" "http://a.test") |})
    as (H1 & _ & _ & _ & _ & H5).
  - apply (world_after_reachable one_request). vm_compute. reflexivity.
  - vm_compute. reflexivity.
  - split.
    + apply (H1 (Fulfilled safe_result)). vm_compute. reflexivity.
    + apply (H5 (Some "http://b.test") 12%Z); vm_compute; reflexivity.
Defined.

(** ** Watchdog and cancellation *)

(** C10. A cancelled tracker never produces a timeout result: its watchdog
    callback returns the world unchanged, its timer is not armed (so the
    callback cannot even be scheduled), and in every later world nothing
    has been sent on its request and the timer is still disarmed.  Each
    cancellation path, applied to the tab's registered tracker, sets the
    flag and disarms the timer: a newer request ([cancel_previous], then the
    whole registration), a navigation, and the closing of the tab. *)
Theorem cancelled_watchdog_is_silent (hostname : string → option string)
    (s : World) (k : nat) (a : Activation) :
  reachable hostname s →
  activations s !! k = Some a →
  (cancelled (a_tracker a) = true →
     watchdog_callback k s = s
     ∧ (k ∉ timers s)
     ∧ step hostname (WatchdogFired k) s = None
     ∧ ∀ evs s', run hostname evs s = Some s' →
         responses_of (a_rid a) s' = [] ∧ k ∉ timers s')
  ∧ (ACTIVE_ANALYSES s !! a_tabId a = Some k →
     (∀ rq url cacheKey now, rq_tabId rq = a_tabId a →
        cancelled_and_cleared k (cancel_previous (a_tabId a) s)
        ∧ cancelled_and_cleared k (register_tracker rq url cacheKey now s))
     ∧ (∀ tabUrl now, is_system_url tabUrl = false →
        cancelled_and_cleared k (onUpdated (a_tabId a) "loading" tabUrl now s))
     ∧ cancelled_and_cleared k (onRemoved (a_tabId a) s)).
Proof.
  intros Hreach Ha. destruct (reachable_Inv _ _ Hreach) as [HA HB].
  pose proof HA as (Hreg & Htm & Hh & Hq).
  assert (∀ s1 a1, reachable hostname s1 → activations s1 !! k = Some a1 →
            cancelled (a_tracker a1) = true → k ∉ timers s1) as Hoff.
  { intros s1 a1 Hr1 Ha1 Hc1 Hin. destruct (reachable_Inv _ _ Hr1) as [(_ & Htm1 & _) _].
    destruct (Htm1 _ Hin) as (a2 & Ha2 & Hc2). congruence. }
  split.
  - intros Hcan. split_and!.
    + unfold watchdog_callback. by rewrite Ha, Hcan.
    + by eapply Hoff.
    + simpl. rewrite bool_decide_eq_false_2; [done|]. by eapply Hoff.
    + intros evs s' Hrun. split.
      * apply silent_responses_of. by eapply cancelled_forever_silent.
      * destruct (run_evolves _ _ _ _ Hrun _ _ Ha) as (a' & Ha' & _ & _ & _ & _ & _ & Hc').
        eapply Hoff; [by eapply reachable_run|exact Ha'|by apply Hc'].
  - intros HT. split_and!.
    + intros rq url cacheKey now Htab.
      destruct (register_tracker_cancels rq url cacheKey now k s HA) as (H1 & _ & H3);
        [by rewrite Htab|].
      rewrite Htab in H1. done.
    + intros tabUrl now Hsys.
      destruct (onUpdated_navigation (a_tabId a) tabUrl now s Hsys) as (_ & E2 & E3).
      eapply cancelled_and_cleared_same; [exact E2|exact E3|].
      by apply cancel_and_delete_cancels.
    + eapply (cancelled_and_cleared_same _ (cancel_and_delete (a_tabId a) s)).
      * unfold onRemoved. by destruct (cancel_and_delete (a_tabId a) s).
      * unfold onRemoved. by destruct (cancel_and_delete (a_tabId a) s).
      * by apply cancel_and_delete_cancels.
Qed.

Lemma cancelled_watchdog_is_silent_witness :
  watchdog_callback 0 (world_after navigation_race) = world_after navigation_race
  ∧ cancelled_and_cleared 0 (onRemoved 1 (world_after one_request)).
Proof.
  split.
  - destruct (cancelled_watchdog_is_silent example_hostname (world_after navigation_race) 0
                {| a_rid := 0; a_tabId := 1; a_url := "http://a.test"; a_content := "X";
                   a_cacheKey := "tab1:http://a.test:X:cloud";
                   a_tracker := {| cancelled := true; timeout := Some 0; startTime := 11 |};
                   a_stage := Finished |}) as ((H & _) & _).
    + apply (world_after_reachable navigation_race). vm_compute. reflexivity.
    + vm_compute. reflexivity.
    + reflexivity.
    + exact H.
  - destruct (cancelled_watchdog_is_silent example_hostname (world_after one_request) 0
                {| a_rid := 0; a_tabId := 1; a_url := "http://a.test"; a_content := "X";
                   a_cacheKey := "tab1:http://a.test:X:cloud";
                   a_tracker := {| cancelled := false; timeout := Some 0; startTime := 11 |};
                   a_stage := AwaitingBackend
                                (AnalyzeCloud (Some ready_sessions) "X" "http://a.test") |})
      as (_ & H).
    + apply (world_after_reachable one_request). vm_compute. reflexivity.
    + vm_compute. reflexivity.
    + destruct H as (_ & _ & H); [vm_compute; reflexivity|exact H].
Defined.

(** ** Registry *)

(** C4. In every reachable world the registry maps tab [T] to at most one
    tracker, and that tracker was created for [T], is not cancelled, has its
    watchdog armed and is filed under no other tab.  Registering a request
    for [T] first cancels the tracker registered for [T] (flag set, timer
    disarmed, entry still in place), then files the new tracker under [T].
    Closing the tab and navigating leave no entry for [T]; so do the
    [.then] callback, the [.catch] callback and the watchdog of a tracker of
    [T] that is not cancelled; and a cancelled tracker is no longer the
    entry for its tab. *)
Theorem registry_one_tracker_per_tab (hostname : string → option string)
    (s : World) (T : Z) :
  reachable hostname s →
  (∀ k1 k2, ACTIVE_ANALYSES s !! T = Some k1 → ACTIVE_ANALYSES s !! T = Some k2 → k1 = k2)
  ∧ (∀ k, ACTIVE_ANALYSES s !! T = Some k →
       ∃ a, activations s !! k = Some a ∧ a_tabId a = T
            ∧ cancelled (a_tracker a) = false ∧ k ∈ timers s
            ∧ ∀ T', ACTIVE_ANALYSES s !! T' = Some k → T' = T)
  ∧ (∀ rq url cacheKey now, rq_tabId rq = T →
       ACTIVE_ANALYSES (cancel_previous T s) = ACTIVE_ANALYSES s
       ∧ ACTIVE_ANALYSES (register_tracker rq url cacheKey now s) !! T
         = Some (List.length (activations s))
       ∧ List.length (activations s) ∈ timers (register_tracker rq url cacheKey now s)
       ∧ ∀ k, ACTIVE_ANALYSES s !! T = Some k →
           k ≠ List.length (activations s)
           ∧ cancelled_and_cleared k (cancel_previous T s)
           ∧ cancelled_and_cleared k (register_tracker rq url cacheKey now s))
  ∧ ACTIVE_ANALYSES (onRemoved T s) !! T = None
  ∧ (∀ tabUrl now, is_system_url tabUrl = false →
       ACTIVE_ANALYSES (onUpdated T "loading" tabUrl now s) !! T = None)
  ∧ (∀ k a, activations s !! k = Some a → a_tabId a = T →
       cancelled (a_tracker a) = false →
       (∀ result, ACTIVE_ANALYSES (then_callback k result s) !! T = None)
       ∧ (∀ message, ACTIVE_ANALYSES (catch_callback k message s) !! T = None)
       ∧ ACTIVE_ANALYSES (watchdog_callback k s) !! T = None)
  ∧ (∀ k a, activations s !! k = Some a → a_tabId a = T →
       cancelled (a_tracker a) = true → ACTIVE_ANALYSES s !! T ≠ Some k).
Proof.
  intros Hreach. destruct (reachable_Inv _ _ Hreach) as [HA HB].
  pose proof HA as (Hreg & Htm & Hh & Hq).
  split_and!.
  - congruence.
  - intros k HT. destruct (Hreg _ _ HT) as (a & Ha & Htab & Hcan & Hin & _).
    exists a. split_and!; try done.
    intros T' HT'. destruct (Hreg _ _ HT') as (a' & Ha' & Htab' & _). congruence.
  - intros rq url cacheKey now <-.
    destruct (register_tracker_registry rq url cacheKey now s) as [E Hin].
    split_and!.
    + unfold cancel_previous, cancel_tracker.
      destruct (ACTIVE_ANALYSES s !! rq_tabId rq) as [k|]; [|done].
      destruct (activations s !! k) as [a|]; [|done].
      by destruct s, (timeout (a_tracker a)).
    + rewrite E. apply lookup_insert_eq.
    + exact Hin.
    + intros k HT.
      destruct (register_tracker_cancels rq url cacheKey now k s HA HT) as (H1 & _ & H3).
      split_and!; try done.
      pose proof (InvA_registered_lt _ _ _ HA HT). lia.
  - apply onRemoved_registry.
  - intros tabUrl now Hsys.
    destruct (onUpdated_navigation T tabUrl now s Hsys) as (-> & _).
    apply cancel_and_delete_registry.
  - intros k a Ha <- Hcan. split_and!.
    + intros result. by apply then_callback_registry.
    + intros message. by apply catch_callback_registry.
    + destruct (watchdog_callback_fires k s a Ha Hcan) as (-> & _).
      apply lookup_delete_eq.
  - intros k a Ha <- Hcan HT.
    destruct (Hreg _ _ HT) as (a' & Ha' & _ & Hc' & _). congruence.
Qed.

Lemma registry_one_tracker_per_tab_witness :
  ACTIVE_ANALYSES (world_after one_request) !! 1%Z = Some 0
  ∧ ACTIVE_ANALYSES
      (register_tracker example_request "http://a.test" "key" 20 (world_after one_request))
      !! 1%Z = Some 1
  ∧ cancelled_and_cleared 0
      (register_tracker example_request "http://a.test" "key" 20 (world_after one_request)).
Proof.
  destruct (registry_one_tracker_per_tab example_hostname (world_after one_request) 1)
    as (_ & _ & H & _).
  - apply (world_after_reachable one_request). vm_compute. reflexivity.
  - destruct (H example_request "http://a.test" "key" 20%Z eq_refl) as (_ & H2 & _ & H4).
    destruct (H4 0) as (_ & _ & H5); [vm_compute; reflexivity|].
    split_and!; [vm_compute; reflexivity|exact H2|exact H5].
Defined.

(** ** Watchdog timeout *)

(** C3, as the code has it.  When the watchdog of a tracker that is not
    cancelled fires, one result is sent on the request: [method] is
    ['timeout'], [error] is ['Analysis timeout'], and [judgment] is the
    human-readable text ['Unable to scan. Proceed with caution.'] (not a
    taxonomy tag); the entry of the tab is deleted from the registry and the
    timer is gone. *)
Theorem watchdog_timeout_result (hostname : string → option string)
    (s : World) (k : nat) (a : Activation) :
  k ∈ timers s →
  activations s !! k = Some a →
  cancelled (a_tracker a) = false →
  ∃ s', step hostname (WatchdogFired k) s = Some s'
        ∧ responses s' = (responses s ++ [(a_rid a, timeout_result s (a_content a))])%list
        ∧ method (timeout_result s (a_content a)) = "timeout"
        ∧ judgment (timeout_result s (a_content a))
          = "Unable to scan. Proceed with caution."
        ∧ error (timeout_result s (a_content a)) = Some "Analysis timeout"
        ∧ isMalicious (timeout_result s (a_content a)) = false
        ∧ ACTIVE_ANALYSES s' = delete (a_tabId a) (ACTIVE_ANALYSES s)
        ∧ ACTIVE_ANALYSES s' !! a_tabId a = None
        ∧ k ∉ timers s'.
Proof.
  intros Hin Ha Hcan. eexists. split.
  { simpl. rewrite bool_decide_eq_true_2 by done. reflexivity. }
  destruct (watchdog_callback_fires k (set_timers (timers s ∖ {[k]}) s) a)
    as (E1 & E2 & E3); [by destruct s|done|].
  rewrite E1, E2, E3. split_and!; try done.
  - by destruct s.
  - by destruct s.
  - destruct s; simpl. apply lookup_delete_eq.
  - destruct s; simpl. apply not_elem_of_removed.
Qed.

Lemma watchdog_timeout_result_witness :
  ∃ s', step example_hostname (WatchdogFired 0) (world_after one_request) = Some s'
        ∧ responses s'
          = [(0, timeout_result (world_after one_request) "X")]
        ∧ ACTIVE_ANALYSES s' !! 1%Z = None.
Proof.
  destruct (watchdog_timeout_result example_hostname (world_after one_request) 0
              {| a_rid := 0; a_tabId := 1; a_url := "http://a.test"; a_content := "X";
                 a_cacheKey := "tab1:http://a.test:X:cloud";
                 a_tracker := {| cancelled := false; timeout := Some 0; startTime := 11 |};
                 a_stage := AwaitingBackend
                              (AnalyzeCloud (Some ready_sessions) "X" "http://a.test") |})
    as (s' & H1 & H2 & _ & _ & _ & _ & _ & H8 & _).
  - vm_compute. reflexivity.
  - vm_compute. reflexivity.
  - reflexivity.
  - exists s'. split_and!; [exact H1|exact H2|exact H8].
Defined.

(** C3, counterexample: the result the watchdog sends for the request of
    [one_request] carries the caution text in [judgment], not ['TIMEOUT']. *)
Lemma watchdog_judgment_is_not_TIMEOUT :
  (λ s, judgment <$> responses_of 0 s)
    <$> run example_hostname (one_request ++ [WatchdogFired 0]) initial_world
  = Some ["Unable to scan. Proceed with caution."]
  ∧ "Unable to scan. Proceed with caution." ≠ "TIMEOUT".
Proof. split; [vm_compute; reflexivity|discriminate]. Qed.

(** C2, the failing run: the watchdog fires for request 0, then the
    detector call settles and the tab is still on the request's URL.  The
    late settlement finds [cancelled] still false, so a second result is sent
    on the same request, and the cache and the stored detection are written
    after the timeout was reported. *)
Theorem late_settlement_sends_twice :
  responses_of 0 <$> run example_hostname late_settlement initial_world
  = Some [timeout_result (world_after one_request) "X"; safe_result]
  ∧ (λ s, DETECTION_CACHE s !! "tab1:http://a.test:X:cloud")
      <$> run example_hostname late_settlement initial_world
    = Some (Some safe_result)
  ∧ (λ s, det_result <$> stored_detections s !! 1%Z)
      <$> run example_hostname late_settlement initial_world
    = Some (Some (StoredAnalysis safe_result)).
Proof. vm_compute. repeat split. Qed.

(** ** The coordinator's answers *)


(** * Further properties of the code *)

(** ** Cache keys and tab-scoped clearing *)

Lemma prefix_app (p t : string) : String.prefix p (p +:+ t) = true.
Proof.
  induction p as [|c p IH]; [by destruct t|].
  change (String.prefix (String c p) (String c (p +:+ t)) = true).
  simpl. by destruct (ascii_dec c c).
Qed.

Lemma prefix_inv (p s : string) : String.prefix p s = true → ∃ t, s = p +:+ t.
Proof.
  revert s. induction p as [|c p IH]; intros s H.
  - by exists s.
  - destruct s as [|d s]; [done|]. simpl in H.
    destruct (ascii_dec c d) as [->|]; [|done].
    destruct (IH _ H) as [t ->]. by exists t.
Qed.

Lemma lacks_split (c : ascii) (a b x y : string) :
  lacks c a = true → lacks c b = true →
  a +:+ String c x = b +:+ String c y → a = b.
Proof.
  revert b. induction a as [|d a IH]; intros [|e b] Ha Hb E.
  - done.
  - change (String c x = String e (b +:+ String c y)) in E.
    injection E as -> _. simpl in Hb. by rewrite bool_decide_eq_true_2 in Hb.
  - change (String d (a +:+ String c x) = String c y) in E.
    injection E as -> _. simpl in Ha. by rewrite bool_decide_eq_true_2 in Ha.
  - change (String d (a +:+ String c x) = String e (b +:+ String c y)) in E.
    injection E as -> E. simpl in Ha, Hb.
    apply andb_true_iff in Ha as [_ Ha]. apply andb_true_iff in Hb as [_ Hb].
    f_equal. by eapply IH.
Qed.

Lemma pretty_N_char_not_colon (x : N) : pretty_N_char x ≠ ":"%char.
Proof. unfold pretty_N_char. by repeat case_match. Qed.

Lemma pretty_N_go_lacks_colon (x : N) (s : string) :
  lacks ":" s = true → lacks ":" (pretty_N_go x s) = true.
Proof.
  revert s. induction (N.lt_wf_0 x) as [x _ IH]. intros s Hs.
  destruct (decide (0 < x)%N) as [Hx|Hx].
  - rewrite pretty_N_go_step by done. apply IH.
    + apply N.div_lt; lia.
    + simpl. rewrite Hs, andb_true_r. apply negb_true_iff.
      apply bool_decide_eq_false_2, pretty_N_char_not_colon.
  - assert (x = 0%N) as -> by lia. by rewrite pretty_N_go_0.
Qed.

Lemma pretty_Z_lacks_colon (z : Z) : lacks ":" (pretty z) = true.
Proof.
  destruct z as [|p|p]; [done|..].
  - unfold pretty, pretty_Z, pretty, pretty_positive, pretty, pretty_N.
    case_decide; [done|]. by apply pretty_N_go_lacks_colon.
  - unfold pretty, pretty_Z, pretty, pretty_positive, pretty, pretty_N.
    case_decide; [done|].
    change (lacks ":" (String "-" (pretty_N_go (N.pos p) "")) = true).
    simpl. by apply pretty_N_go_lacks_colon.
Qed.

Lemma getCacheKey_tab_prefix url content tabId s :
  startsWith (getCacheKey url content tabId s) (tab_prefix tabId) = true.
Proof.
  unfold startsWith.
  replace (getCacheKey url content tabId s)
    with (tab_prefix tabId
          +:+ (url +:+ ":" +:+ String.substring 0 500 content +:+ ":" +:+ activeMode s)).
  - apply prefix_app.
  - unfold getCacheKey, tab_prefix. by rewrite !string_app_assoc.
Qed.

Lemma getCacheKey_other_tab url content tabId tabId' s :
  tabId ≠ tabId' →
  startsWith (getCacheKey url content tabId' s) (tab_prefix tabId) = false.
Proof.
  intros Hne. destruct (startsWith _ _) eqn:E; [|done]. exfalso. apply Hne.
  unfold startsWith in E. apply prefix_inv in E as [t E].
  unfold getCacheKey, tab_prefix in E. rewrite !string_app_assoc in E.
  apply String.app_inj in E.
  change (pretty tabId' +:+ String ":" (url +:+ ":" +:+ String.substring 0 500 content
                                        +:+ ":" +:+ activeMode s)
          = pretty tabId +:+ String ":" t) in E.
  apply lacks_split in E; [|apply pretty_Z_lacks_colon..].
  symmetry. by apply (inj pretty).
Qed.

Lemma delete_tab_keys_lookup (tabId tabId' : Z) (url content : string) (s0 : World)
    (cache : gmap string AnalysisResult) :
  delete_tab_keys tabId cache !! getCacheKey url content tabId s0 = None
  ∧ (tabId ≠ tabId' →
     delete_tab_keys tabId cache !! getCacheKey url content tabId' s0
     = cache !! getCacheKey url content tabId' s0).
Proof.
  unfold delete_tab_keys. split.
  - apply map_lookup_filter_None. right. intros r _. cbn [fst].
    by rewrite getCacheKey_tab_prefix.
  - intros Hne. destruct (cache !! _) as [r|] eqn:E.
    + apply map_lookup_filter_Some. split; [done|]. cbn [fst].
      by apply getCacheKey_other_tab.
    + apply map_lookup_filter_None. by left.
Qed.

(** X1. Clearing the cache of a tab ([clearTabCache], also the loop of
    [tabs.onRemoved]) deletes every entry whose key [getCacheKey] built for
    that tab, whatever the URL, content and mode, and keeps every entry
    built for any other tab: [tab1:] is not a prefix of a key of tab 12. *)
Theorem clearTabCache_exact (tabId tabId' : Z) (url content : string) (s0 s : World) :
  DETECTION_CACHE (clearTabCache tabId s) !! getCacheKey url content tabId s0 = None
  ∧ (tabId ≠ tabId' →
     DETECTION_CACHE (clearTabCache tabId s) !! getCacheKey url content tabId' s0
     = DETECTION_CACHE s !! getCacheKey url content tabId' s0).
Proof.
  assert (DETECTION_CACHE (clearTabCache tabId s)
          = delete_tab_keys tabId (DETECTION_CACHE s)) as -> by (by destruct s).
  apply delete_tab_keys_lookup.
Qed.

Lemma clearTabCache_exact_witness :
  DETECTION_CACHE (clearTabCache 1 (world_after committed))
    !! getCacheKey "http://a.test" "X" 1 (world_after committed) = None
  ∧ DETECTION_CACHE (clearTabCache 12 (world_after committed))
      !! getCacheKey "http://a.test" "X" 1 (world_after committed) = Some safe_result.
Proof.
  split.
  - apply (clearTabCache_exact 1 1 "http://a.test" "X").
  - destruct (clearTabCache_exact 12 1 "http://a.test" "X" (world_after committed)
                (world_after committed)) as [_ H].
    rewrite H; [vm_compute; reflexivity|lia].
Defined.

(** ** Tab lifecycle: closing and navigating *)

Lemma cancel_and_delete_frame T s :
  DETECTION_CACHE (cancel_and_delete T s) = DETECTION_CACHE s
  ∧ stored_detections (cancel_and_delete T s) = stored_detections s
  ∧ SCANNING_ANIMATIONS (cancel_and_delete T s) = SCANNING_ANIMATIONS s
  ∧ badge (cancel_and_delete T s) = badge s
  ∧ responses (cancel_and_delete T s) = responses s
  ∧ activeMode (cancel_and_delete T s) = activeMode s
  ∧ stored_ignoreRules (cancel_and_delete T s) = stored_ignoreRules s.
Proof.
  unfold cancel_and_delete, cancel_tracker.
  destruct (ACTIVE_ANALYSES s !! T) as [k|]; [|done].
  destruct (activations s !! k) as [a|]; [|by destruct s].
  by destruct s, (timeout (a_tracker a)).
Qed.

Lemma cancel_and_delete_other T T' s :
  T ≠ T' → ACTIVE_ANALYSES (cancel_and_delete T s) !! T' = ACTIVE_ANALYSES s !! T'.
Proof.
  intros Hne. unfold cancel_and_delete, cancel_tracker.
  destruct (ACTIVE_ANALYSES s !! T) as [k|]; [|done].
  destruct (activations s !! k) as [a|].
  - destruct s, (timeout (a_tracker a)); world_cbv; by apply lookup_delete_ne.
  - destruct s; world_cbv. by apply lookup_delete_ne.
Qed.

(** X2. Closing a tab leaves nothing of it behind: no cache entry under any
    key built for the tab, no stored detection, no animation, no registry
    entry.  For any other tab the cache entries, the stored detection, the
    animation and the registry entry are as before. *)
Theorem tab_close_purges_only_that_tab (T T' : Z) (url content : string) (s0 s : World) :
  (DETECTION_CACHE (onRemoved T s) !! getCacheKey url content T s0 = None
   ∧ stored_detections (onRemoved T s) !! T = None
   ∧ (T ∉ SCANNING_ANIMATIONS (onRemoved T s))
   ∧ ACTIVE_ANALYSES (onRemoved T s) !! T = None)
  ∧ (T ≠ T' →
     DETECTION_CACHE (onRemoved T s) !! getCacheKey url content T' s0
     = DETECTION_CACHE s !! getCacheKey url content T' s0
     ∧ stored_detections (onRemoved T s) !! T' = stored_detections s !! T'
     ∧ (T' ∈ SCANNING_ANIMATIONS (onRemoved T s) ↔ T' ∈ SCANNING_ANIMATIONS s)
     ∧ ACTIVE_ANALYSES (onRemoved T s) !! T' = ACTIVE_ANALYSES s !! T').
Proof.
  destruct (cancel_and_delete_frame T s) as (Ec & Ed & Ea & _).
  assert (DETECTION_CACHE (onRemoved T s) = delete_tab_keys T (DETECTION_CACHE s)) as E1.
  { unfold onRemoved. rewrite <- Ec. by destruct (cancel_and_delete T s). }
  assert (stored_detections (onRemoved T s) = delete T (stored_detections s)) as E2.
  { unfold onRemoved. rewrite <- Ed. by destruct (cancel_and_delete T s). }
  assert (SCANNING_ANIMATIONS (onRemoved T s) = SCANNING_ANIMATIONS s ∖ {[T]}) as E3.
  { unfold onRemoved. rewrite <- Ea. by destruct (cancel_and_delete T s). }
  assert (ACTIVE_ANALYSES (onRemoved T s) = ACTIVE_ANALYSES (cancel_and_delete T s)) as E4.
  { unfold onRemoved. by destruct (cancel_and_delete T s). }
  rewrite E1, E2, E3, E4.
  destruct (delete_tab_keys_lookup T T' url content s0 (DETECTION_CACHE s)) as [H1 H2].
  split; [split_and!|].
  - exact H1.
  - apply lookup_delete_eq.
  - intros Hin. apply elem_of_difference in Hin as [_ Hn]. apply Hn.
    by apply elem_of_singleton.
  - apply cancel_and_delete_registry.
  - intros Hne. split_and!.
    + by apply H2.
    + by apply lookup_delete_ne.
    + rewrite elem_of_difference, elem_of_singleton.
      split; [by intros [? _]|]. intros Hin. split; [done|congruence].
    + by apply cancel_and_delete_other.
Qed.

Lemma tab_close_purges_only_that_tab_witness :
  DETECTION_CACHE (onRemoved 1 (world_after committed))
    !! getCacheKey "http://a.test" "X" 1 (world_after committed) = None
  ∧ stored_detections (onRemoved 2 (world_after committed)) !! 1%Z
    = stored_detections (world_after committed) !! 1%Z.
Proof.
  split.
  - apply (tab_close_purges_only_that_tab 1 1 "http://a.test" "X").
  - destruct (tab_close_purges_only_that_tab 2 1 "http://a.test" "X"
                (world_after committed) (world_after committed)) as [_ H].
    destruct H as (_ & H & _); [lia|exact H].
Defined.

Lemma onUpdated_cache T status tabUrl now s :
  DETECTION_CACHE (onUpdated T status tabUrl now s) = DETECTION_CACHE s
  ∧ activeMode (onUpdated T status tabUrl now s) = activeMode s
  ∧ stored_ignoreRules (onUpdated T status tabUrl now s) = stored_ignoreRules s
  ∧ responses (onUpdated T status tabUrl now s) = responses s.
Proof.
  unfold onUpdated. case_bool_decide; [|done].
  destruct (is_system_url tabUrl); [by destruct s|].
  destruct (cancel_and_delete_frame T s) as (<- & _ & _ & _ & <- & <- & <-).
  by destruct (cancel_and_delete T s).
Qed.

(** X3. Navigation never touches the cache: whatever [tabs.onUpdated]
    reports, [DETECTION_CACHE] is unchanged; a [loading] event of an
    ordinary page deletes the tab's stored detection and starts the
    animation, so the popup shows the scanning state; an event with another
    status changes nothing at all.  So a request for a page whose result is
    cached is, after any navigation event, still answered from the cache and
    allocates no tracker. *)
Theorem navigation_keeps_cache (hostname : string → option string)
    (T : Z) (status : string) (tabUrl : option string) (now now' : Z) (s : World)
    (rq : Request) (cached : AnalysisResult) :
  DETECTION_CACHE (onUpdated T status tabUrl now s) = DETECTION_CACHE s
  ∧ (status ≠ "loading" → onUpdated T status tabUrl now s = s)
  ∧ (status = "loading" → is_system_url tabUrl = false →
     stored_detections (onUpdated T status tabUrl now s) = delete T (stored_detections s)
     ∧ T ∈ SCANNING_ANIMATIONS (onUpdated T status tabUrl now s)
     ∧ loadStatus T (onUpdated T status tabUrl now s) = Scanning)
  ∧ (shouldIgnoreUrl hostname (request_url (rq_tabUrl rq)) (stored_ignoreRules s) = false →
     DETECTION_CACHE s
       !! getCacheKey (request_url (rq_tabUrl rq)) (rq_content rq) (rq_tabId rq) s
       = Some cached →
     responses (on_ignore_checked hostname rq now' (onUpdated T status tabUrl now s))
     = (responses s ++ [(rq_id rq, cached)])%list
     ∧ activations (on_ignore_checked hostname rq now' (onUpdated T status tabUrl now s))
       = activations (onUpdated T status tabUrl now s)).
Proof.
  destruct (onUpdated_cache T status tabUrl now s) as (Ec & Em & Ei & Er).
  split_and!.
  - exact Ec.
  - intros Hst. unfold onUpdated. by rewrite bool_decide_eq_false_2.
  - intros -> Hsys. unfold onUpdated, loadStatus. rewrite Hsys. simpl.
    destruct (cancel_and_delete_frame T s) as (_ & Ed & _).
    revert Ed. destruct (cancel_and_delete T s). simpl. intros ->.
    split_and!; [done| |by rewrite lookup_delete_eq].
    apply elem_of_union. left. by apply elem_of_singleton.
  - intros Hign Hhit. unfold on_ignore_checked. rewrite Ei, Hign.
    replace (getCacheKey (request_url (rq_tabUrl rq)) (rq_content rq) (rq_tabId rq)
               (onUpdated T status tabUrl now s))
      with (getCacheKey (request_url (rq_tabUrl rq)) (rq_content rq) (rq_tabId rq) s)
      by (unfold getCacheKey; by rewrite Em).
    rewrite Ec, Hhit. rewrite <- Er.
    by destruct (onUpdated T status tabUrl now s).
Qed.

Lemma navigation_keeps_cache_witness :
  responses
    (on_ignore_checked example_hostname example_request 40
       (onUpdated 1 "loading" (Some "http://a.test") 30 (world_after committed)))
  = [(0, safe_result); (1, safe_result)]
  ∧ loadStatus 1 (onUpdated 1 "loading" (Some "http://a.test") 30 (world_after committed))
    = Scanning.
Proof.
  destruct (navigation_keeps_cache example_hostname 1 "loading" (Some "http://a.test")
              30 40 (world_after committed) example_request safe_result)
    as (_ & _ & H3 & H4).
  split.
  - destruct H4 as [H4 _]; [vm_compute; reflexivity..|]. rewrite H4.
    vm_compute. reflexivity.
  - destruct H3 as (_ & _ & H3); [reflexivity|vm_compute; reflexivity|exact H3].
Defined.

(** X4. A [loading] event of a system page (no URL, [chrome://],
    [chrome-extension://], [about:], [edge://]) returns before the
    cancellation code: the registry, the tracker objects and the timers are
    untouched, so an analysis of the previous page keeps running; the tab's
    stored detection becomes the skipped placeholder, the icon the skipped
    one, and the popup shows the page as skipped. *)
Theorem system_page_does_not_cancel (T : Z) (tabUrl : option string) (now : Z) (s : World) :
  is_system_url tabUrl = true →
  ACTIVE_ANALYSES (onUpdated T "loading" tabUrl now s) = ACTIVE_ANALYSES s
  ∧ activations (onUpdated T "loading" tabUrl now s) = activations s
  ∧ timers (onUpdated T "loading" tabUrl now s) = timers s
  ∧ SCANNING_ANIMATIONS (onUpdated T "loading" tabUrl now s) = SCANNING_ANIMATIONS s
  ∧ stored_detections (onUpdated T "loading" tabUrl now s) !! T
    = Some {| det_result := StoredSystemPage; det_url := None; det_timestamp := now |}
  ∧ badge (onUpdated T "loading" tabUrl now s) !! T = Some IconSkipped
  ∧ loadStatus T (onUpdated T "loading" tabUrl now s) = Shown ShowSkipped.
Proof.
  intros Hsys. unfold onUpdated, loadStatus. rewrite Hsys. simpl.
  destruct s; simpl. rewrite !lookup_insert_eq. done.
Qed.

Lemma system_page_does_not_cancel_witness :
  ACTIVE_ANALYSES (onUpdated 1 "loading" (Some "chrome://newtab/") 12 (world_after one_request))
  = ACTIVE_ANALYSES (world_after one_request)
  ∧ loadStatus 1 (onUpdated 1 "loading" (Some "chrome://newtab/") 12 (world_after one_request))
    = Shown ShowSkipped.
Proof.
  destruct (system_page_does_not_cancel 1 (Some "chrome://newtab/") 12
              (world_after one_request)) as (H1 & _ & _ & _ & _ & _ & H7).
  - vm_compute. reflexivity.
  - split; [exact H1|exact H7].
Defined.

(** ** Periodic clean-up *)

(** X5. After the five-minute clean-up the cache holds at most 100 entries:
    a cache of at most 100 entries is left as it is, a larger one is
    emptied.  The clean-up never touches the registry, the tracker objects
    or the timers. *)
Theorem cleanup_bounds_cache (now : Z) (s : World) :
  (size (DETECTION_CACHE (cleanup now s)) ≤ 100)%nat
  ∧ ((size (DETECTION_CACHE s) ≤ 100)%nat → DETECTION_CACHE (cleanup now s) = DETECTION_CACHE s)
  ∧ ((100 < size (DETECTION_CACHE s))%nat → DETECTION_CACHE (cleanup now s) = ∅)
  ∧ ACTIVE_ANALYSES (cleanup now s) = ACTIVE_ANALYSES s
  ∧ activations (cleanup now s) = activations s
  ∧ timers (cleanup now s) = timers s.
Proof.
  unfold cleanup. case_bool_decide as Hsz.
  - destruct s; simpl in *. rewrite map_size_empty. split_and!; try done; lia.
  - destruct s; simpl in *. split_and!; try done; lia.
Qed.

Lemma cleanup_bounds_cache_witness :
  DETECTION_CACHE (cleanup 5000000 (world_after committed))
  = DETECTION_CACHE (world_after committed).
Proof.
  destruct (cleanup_bounds_cache 5000000 (world_after committed)) as (_ & H & _).
  apply H. vm_compute. lia.
Defined.

(** What the one-step [cleanup] does to the stored detections. *)
Lemma cleanup_stored_detections (now : Z) (s : World) (T : Z) (d : Detection) :
  stored_detections (cleanup now s) !! T = Some d
  ↔ stored_detections s !! T = Some d
    ∧ (det_timestamp d = 0 ∨ now - det_timestamp d ≤ 3600000)%Z.
Proof.
  assert (stored_detections (cleanup now s)
          = filter (λ kv, is_stale now kv.2 = false) (stored_detections s)) as ->.
  { unfold cleanup. case_bool_decide; by destruct s. }
  rewrite map_lookup_filter_Some. cbn [snd]. unfold is_stale.
  split; intros [H1 H2]; (split; [done|]).
  - apply andb_false_iff in H2 as [H2|H2].
    + apply bool_decide_eq_false_1 in H2. left.
      destruct (decide (det_timestamp d = 0%Z)); [done|by destruct H2].
    + apply bool_decide_eq_false_1 in H2. right. lia.
  - apply andb_false_iff. destruct H2 as [H2|H2].
    + left. apply bool_decide_eq_false_2. intros Hn. by apply Hn.
    + right. apply bool_decide_eq_false_2. lia.
Qed.

Lemma is_stale_false (now : Z) (d : Detection) :
  is_stale now d = false ↔ (det_timestamp d = 0 ∨ now - det_timestamp d ≤ 3600000)%Z.
Proof.
  unfold is_stale. rewrite andb_false_iff. split; intros [H|H].
  - apply bool_decide_eq_false_1 in H. left.
    destruct (decide (det_timestamp d = 0%Z)); [done|by destruct H].
  - apply bool_decide_eq_false_1 in H. right. lia.
  - left. apply bool_decide_eq_false_2. intros Hn. by apply Hn.
  - right. apply bool_decide_eq_false_2. lia.
Qed.

Lemma elem_of_keysToRemove (allStorage : gmap Z Detection) (now : Z) (T : Z) :
  T ∈ keysToRemove allStorage now
  ↔ ∃ d0, allStorage !! T = Some d0 ∧ is_stale now d0 = true.
Proof.
  unfold keysToRemove. rewrite elem_of_dom. split.
  - intros [d0 H]. apply map_lookup_filter_Some in H as [H1 H2]. by exists d0.
  - intros (d0 & H1 & H2). exists d0. by apply map_lookup_filter_Some.
Qed.

Lemma cleanup_resume_lookup (allStorage : gmap Z Detection) (now : Z) (s : World)
    (T : Z) (d : Detection) :
  stored_detections (cleanup_resume allStorage now s) !! T = Some d
  ↔ stored_detections s !! T = Some d ∧ (T ∉ keysToRemove allStorage now).
Proof.
  unfold cleanup_resume. destruct (bool_decide _) eqn:E.
  - apply bool_decide_eq_true_1 in E. rewrite E. split; [|by intros [? _]].
    intros H. split; [done|]. apply not_elem_of_empty.
  - assert (stored_detections
              (set_stored_detections
                 (filter (λ kv, kv.1 ∉ keysToRemove allStorage now) (stored_detections s)) s)
            = filter (λ kv, kv.1 ∉ keysToRemove allStorage now) (stored_detections s))
      as -> by (by destruct s).
    by rewrite map_lookup_filter_Some.
Qed.

(** X6. The clean-up removes stored detections by the snapshot it read:
    when the continuation runs, an entry of the storage survives exactly when
    the snapshot had no entry under its key, or one whose timestamp is 0 or
    at most 3 600 000 ms before [now]; nothing is added or altered, and
    nothing but the stored detections changes.  When nothing was written
    between the read and the continuation, the two halves amount to keeping
    every entry that is itself not older than an hour.  When the message
    listener stored a detection for the tab in between, that detection is
    removed, however fresh it is, if the snapshot's entry for the tab was
    stale. *)
Theorem cleanup_removes_by_snapshot (allStorage : gmap Z Detection) (now : Z)
    (s : World) (T : Z) (d fresh : Detection) :
  (stored_detections (cleanup_resume allStorage now s) !! T = Some d
   ↔ stored_detections s !! T = Some d
     ∧ ∀ d0, allStorage !! T = Some d0 →
         (det_timestamp d0 = 0 ∨ now - det_timestamp d0 ≤ 3600000)%Z)
  ∧ (stored_detections (cleanup_resume (stored_detections s) now (cleanup_begin s)) !! T
     = Some d
     ↔ stored_detections s !! T = Some d
       ∧ (det_timestamp d = 0 ∨ now - det_timestamp d ≤ 3600000)%Z)
  ∧ cleanup_resume (stored_detections s) now (cleanup_begin s) = cleanup now s
  ∧ (∀ d0, allStorage !! T = Some d0 → det_timestamp d0 ≠ 0%Z →
       (3600000 < now - det_timestamp d0)%Z →
       stored_detections (cleanup_resume allStorage now (store_detection T fresh s)) !! T
       = None)
  ∧ DETECTION_CACHE (cleanup_resume allStorage now s) = DETECTION_CACHE s
  ∧ ACTIVE_ANALYSES (cleanup_resume allStorage now s) = ACTIVE_ANALYSES s
  ∧ responses (cleanup_resume allStorage now s) = responses s.
Proof.
  assert (∀ m : gmap Z Detection,
            filter (λ kv, kv.1 ∉ keysToRemove m now) m
            = filter (λ kv, is_stale now kv.2 = false) m) as Hfilter.
  { intros m. apply map_eq. intros i. apply option_eq. intros x.
    rewrite !map_lookup_filter_Some. cbn [fst snd]. split; intros [H1 H2]; (split; [done|]).
    - destruct (is_stale now x) eqn:E; [|done]. exfalso. apply H2.
      apply elem_of_keysToRemove. by exists x.
    - intros Hin. apply elem_of_keysToRemove in Hin as (d0 & Hd0 & Hst). congruence. }
  assert (stored_detections (cleanup_begin s) = stored_detections s) as Hbegin.
  { unfold cleanup_begin. case_bool_decide; by destruct s. }
  assert (cleanup_resume (stored_detections s) now (cleanup_begin s) = cleanup now s)
    as Hatomic.
  { unfold cleanup_resume, cleanup. fold (cleanup_begin s). rewrite Hbegin, Hfilter.
    destruct (bool_decide (keysToRemove (stored_detections s) now = ∅)) eqn:E; [|done].
    apply bool_decide_eq_true_1 in E.
    assert (filter (λ kv, is_stale now kv.2 = false) (stored_detections s)
            = stored_detections s) as ->.
    { rewrite <- Hfilter. apply map_eq. intros i. apply option_eq. intros x.
      rewrite map_lookup_filter_Some, E. cbn [fst]. split; [by intros [? _]|].
      intros H. split; [done|]. apply not_elem_of_empty. }
    rewrite <- Hbegin. by destruct (cleanup_begin s). }
  split_and!.
  - rewrite cleanup_resume_lookup. split; intros [H1 H2]; (split; [done|]).
    + intros d0 Hd0. apply is_stale_false.
      destruct (is_stale now d0) eqn:E; [|done]. exfalso. apply H2.
      apply elem_of_keysToRemove. by exists d0.
    + intros Hin. apply elem_of_keysToRemove in Hin as (d0 & Hd0 & Hst).
      apply H2, is_stale_false in Hd0. congruence.
  - rewrite Hatomic. apply cleanup_stored_detections.
  - exact Hatomic.
  - intros d0 Hd0 Hne Hold.
    destruct (stored_detections (cleanup_resume allStorage now (store_detection T fresh s))
                !! T) as [d'|] eqn:E; [|done].
    apply cleanup_resume_lookup in E as [_ E]. exfalso. apply E.
    apply elem_of_keysToRemove. exists d0. split; [done|]. unfold is_stale.
    rewrite bool_decide_eq_true_2 by done. by rewrite bool_decide_eq_true_2 by done.
  - unfold cleanup_resume. case_bool_decide; by destruct s.
  - unfold cleanup_resume. case_bool_decide; by destruct s.
  - unfold cleanup_resume. case_bool_decide; by destruct s.
Qed.

Lemma cleanup_removes_by_snapshot_witness :
  stored_detections
    (cleanup_resume (stored_detections (world_after committed)) 4000000
       (store_detection 1
          {| det_result := StoredAnalysis safe_result; det_url := Some "http://a.test";
             det_timestamp := 3999999 |}
          (world_after committed))) !! 1%Z
  = None.
Proof.
  destruct (cleanup_removes_by_snapshot (stored_detections (world_after committed)) 4000000
              (world_after committed) 1
              {| det_result := StoredAnalysis safe_result; det_url := Some "http://a.test";
                 det_timestamp := 20 |}
              {| det_result := StoredAnalysis safe_result; det_url := Some "http://a.test";
                 det_timestamp := 3999999 |}) as (_ & _ & _ & H & _).
  apply (H {| det_result := StoredAnalysis safe_result; det_url := Some "http://a.test";
              det_timestamp := 20 |}).
  - vm_compute. reflexivity.
  - discriminate.
  - vm_compute. reflexivity.
Defined.

(** ** Mode controller: initialisation *)

(** X7. The mode in force after [initializeAI] read the stored preference
    is never ['compatibility'] and never empty, and the stored preference is
    not ['compatibility'] either.  A switch to any other non-empty mode
    survives the re-initialisation ([switchMode] stores it, [initializeAI]
    reads it back); a switch to ['compatibility'] or to the empty string
    ends in cloud mode. *)
Theorem mode_after_initialisation (i : nat) (m : string) (s : World) :
  (activeMode (initializeAI_loaded i s) ≠ "compatibility"
   ∧ activeMode (initializeAI_loaded i s) ≠ ""
   ∧ stored_activeMode (initializeAI_loaded i s) ≠ Some "compatibility")
  ∧ (m ≠ "" → m ≠ "compatibility" →
     activeMode (initializeAI_loaded i (switchMode m s)) = m
     ∧ stored_activeMode (initializeAI_loaded i (switchMode m s)) = Some m)
  ∧ (m = "" ∨ m = "compatibility" →
     activeMode (initializeAI_loaded i (switchMode m s)) = "cloud").
Proof.
  assert (∀ w, activeMode (initializeAI_loaded i w)
               = or_default (if bool_decide (stored_activeMode w = Some "compatibility")
                             then Some "cloud" else stored_activeMode w) "cloud") as Ha.
  { intros w. unfold initializeAI_loaded.
    by destruct (bool_decide (stored_activeMode w = Some "compatibility")), w. }
  assert (∀ w, stored_activeMode (initializeAI_loaded i w)
               = if bool_decide (stored_activeMode w = Some "compatibility")
                 then Some "cloud" else stored_activeMode w) as Hs.
  { intros w. unfold initializeAI_loaded.
    by destruct (bool_decide (stored_activeMode w = Some "compatibility")), w. }
  assert (stored_activeMode (switchMode m s) = Some m) as Hm by (by destruct s).
  split_and!.
  - rewrite Ha. case_bool_decide as Hc; [done|]. unfold or_default.
    destruct (stored_activeMode s) as [x|]; [|done].
    case_bool_decide; [done|]. congruence.
  - rewrite Ha. case_bool_decide as Hc; [done|]. unfold or_default.
    destruct (stored_activeMode s) as [x|]; [|done]. by case_bool_decide.
  - rewrite Hs. case_bool_decide; [done|]. congruence.
  - intros H1 H2. rewrite Ha, Hs, Hm.
    rewrite bool_decide_eq_false_2 by congruence. simpl.
    by rewrite bool_decide_eq_false_2.
  - intros [->| ->]; rewrite Ha, Hm; done.
Qed.

Lemma mode_after_initialisation_witness :
  activeMode (initializeAI_loaded 1 (switchMode "local" (world_after boot))) = "local"
  ∧ activeMode (initializeAI_loaded 1 (switchMode "compatibility" (world_after boot)))
    = "cloud".
Proof.
  destruct (mode_after_initialisation 1 "local" (world_after boot)) as (_ & H & _).
  destruct (mode_after_initialisation 1 "compatibility" (world_after boot)) as (_ & _ & H').
  split.
  - apply H; discriminate.
  - apply H'. by right.
Defined.

(** X8. What an initialisation leaves behind decides the dispatch.  When the
    initialiser throws or returns [null], the flag is cleared and the status
    keeps its previous value, and (unless that value is
    ['configure-required']) every later [analyzeContent] returns the
    unavailable ['ERROR'] result without calling a detector.  When the cloud
    initialiser returns sessions whose availability is ['readily'] and the
    mode is still cloud, [analyzeContent] calls the cloud detector with
    exactly those sessions; when it returns ['configure-required'],
    [analyzeContent] answers ['CONFIGURATION_ERROR']. *)
Theorem initialisation_decides_dispatch (i : nat) (cloud : bool) (o : InitOutcome)
    (ss : Sessions) (content url : string) (s : World) :
  (o = InitThrew ∨ o = InitReturned None →
     isAiAvailable (initializeAI_done i cloud o s) = false
     ∧ aiAvailabilityStatus (initializeAI_done i cloud o s) = aiAvailabilityStatus s
     ∧ (aiAvailabilityStatus s ≠ "configure-required" →
        analyzeContent content url (initializeAI_done i cloud o s)
        = Resolved (unavailable_result s content)))
  ∧ (activeMode s = "cloud" → availability ss = Some "readily" →
     analyzeContent content url (initializeAI_done i true (InitReturned (Some ss)) s)
     = Invoke (AnalyzeCloud (Some ss) content url))
  ∧ (activeMode s = "cloud" → availability ss = Some "configure-required" →
     analyzeContent content url (initializeAI_done i true (InitReturned (Some ss)) s)
     = Resolved (configuration_result content))
  ∧ aiAvailabilityStatus (initializeAI_done i cloud (InitReturned (Some ss)) s) ≠ "".
Proof.
  split_and!.
  - intros Ho.
    assert (isAiAvailable (initializeAI_done i cloud o s) = false
            ∧ aiAvailabilityStatus (initializeAI_done i cloud o s) = aiAvailabilityStatus s
            ∧ activeMode (initializeAI_done i cloud o s) = activeMode s) as (E1 & E2 & E3).
    { destruct Ho as [-> | ->]; by destruct s. }
    split_and!; [done..|]. intros Hst.
    unfold analyzeContent, unavailable_result. rewrite E1, E2, E3.
    by rewrite bool_decide_eq_false_2.
  - intros Hm Hav. unfold analyzeContent.
    destruct s; simpl in *. rewrite Hav, Hm. done.
  - intros Hm Hav. unfold analyzeContent.
    destruct s; simpl in *. rewrite Hav, Hm. done.
  - destruct s; simpl. unfold or_default.
    destruct (availability ss) as [x|]; [|done]. by case_bool_decide.
Qed.

Lemma initialisation_decides_dispatch_witness :
  analyzeContent "X" "http://a.test" (initializeAI_done 0 true InitThrew initial_world)
  = Resolved (unavailable_result initial_world "X")
  ∧ analyzeContent "X" "http://a.test"
      (initializeAI_done 0 true (InitReturned (Some ready_sessions)) initial_world)
    = Invoke (AnalyzeCloud (Some ready_sessions) "X" "http://a.test").
Proof.
  destruct (initialisation_decides_dispatch 0 true InitThrew ready_sessions
              "X" "http://a.test" initial_world) as (H1 & H2 & _).
  split.
  - destruct H1 as (_ & _ & H1); [by left|]. apply H1. discriminate.
  - apply H2; reflexivity.
Defined.

(** ** Icon *)

(** X9. Which icon [updateBadge] sets: the danger icon exactly when the page
    is malicious or the result's judgment is ['QUOTA_EXCEEDED'] (a quota
    error shows danger although [isMalicious] is false); the skipped icon
    exactly when neither holds and the result is a skipped one; otherwise
    the safe icon.  Without a result object only the flag counts. *)
Theorem badge_icon_priority (malicious : bool) (result : option AnalysisResult) :
  (badge_icon malicious result = IconDanger
   ↔ malicious = true ∨ ∃ r, result = Some r ∧ judgment r = "QUOTA_EXCEEDED")
  ∧ (badge_icon malicious result = IconSkipped
     ↔ malicious = false
       ∧ ∃ r, result = Some r ∧ judgment r ≠ "QUOTA_EXCEEDED"
              ∧ (judgment r = "SKIPPED" ∨ method r = "skipped"))
  ∧ badge_icon malicious None = (if malicious then IconDanger else IconSafe).
Proof.
  unfold badge_icon. split_and!.
  - destruct result as [r|].
    + case_bool_decide as Hq.
      { split; [|done]. intros _. right. by exists r. }
      destruct malicious.
      { split; [|done]. intros _. by left. }
      split.
      * by destruct (bool_decide (judgment r = "SKIPPED") || bool_decide (method r = "skipped")).
      * intros [?|(r' & [= <-] & ?)]; congruence.
    + destruct malicious; split; try done.
      * intros _. by left.
      * intros [?|(r' & ? & _)]; congruence.
  - destruct result as [r|].
    + case_bool_decide as Hq.
      { split; [done|]. intros (_ & r' & [= <-] & ? & _). congruence. }
      destruct malicious.
      { split; [done|]. by intros [? _]. }
      destruct (bool_decide (judgment r = "SKIPPED") || bool_decide (method r = "skipped"))
        eqn:Hs.
      * split; [|done]. intros _. split; [done|]. exists r. split_and!; [done..|].
        apply orb_true_iff in Hs as [Hs|Hs]; apply bool_decide_eq_true_1 in Hs; eauto.
      * split; [done|]. intros (_ & r' & [= <-] & _ & H). exfalso.
        apply orb_false_iff in Hs as [H1 H2].
        apply bool_decide_eq_false_1 in H1, H2. by destruct H.
    + destruct malicious; split; try done; by intros (_ & r' & ? & _).
  - done.
Qed.

(** ** What the watchdog leaves alone *)

(** X10. A timeout is reported on the message channel only: the watchdog
    callback writes no cache entry and no stored detection, sets no icon and
    does not stop the scanning animation, so the popup keeps showing for
    every tab what it showed before. *)
Theorem watchdog_reports_only_to_caller (hostname : string → option string)
    (k : nat) (s s' : World) (T : Z) :
  step hostname (WatchdogFired k) s = Some s' →
  DETECTION_CACHE s' = DETECTION_CACHE s
  ∧ stored_detections s' = stored_detections s
  ∧ badge s' = badge s
  ∧ SCANNING_ANIMATIONS s' = SCANNING_ANIMATIONS s
  ∧ loadStatus T s' = loadStatus T s.
Proof.
  intros Hstep. simpl in Hstep. case_bool_decide; [|done]. injection Hstep as <-.
  unfold watchdog_callback, loadStatus.
  replace (activations (set_timers (timers s ∖ {[k]}) s)) with (activations s)
    by (by destruct s).
  destruct (activations s !! k) as [a|]; [|by destruct s].
  destruct (cancelled (a_tracker a)); by destruct s.
Qed.

Lemma watchdog_reports_only_to_caller_witness :
  ∃ s', step example_hostname (WatchdogFired 0) (world_after one_request) = Some s'
        ∧ loadStatus 1 s' = Scanning
        ∧ SCANNING_ANIMATIONS s' = SCANNING_ANIMATIONS (world_after one_request).
Proof.
  destruct (step example_hostname (WatchdogFired 0) (world_after one_request))
    as [s'|] eqn:E; [|vm_compute in E; discriminate].
  exists s'. split; [reflexivity|].
  destruct (watchdog_reports_only_to_caller example_hostname 0
              (world_after one_request) s' 1 E) as (_ & _ & _ & H4 & H5).
  split; [rewrite H5; vm_compute; reflexivity|exact H4].
Defined.

(** ** The short-circuit paths of the coordinator *)

(** X11. A message marked [skipped] is answered without consulting the
    ignore rules or the cache and without a tracker: cache, registry,
    tracker objects, timers and pending checks are unchanged whatever the
    content; the result stored for the tab is the ['SKIPPED'] one with
    content length 0, the icon is the skipped one, the animation is stopped
    and the popup shows the page as skipped. *)
Theorem skipped_message_short_circuits (T : Z) (tabUrl content : string) (now : Z)
    (s : World) :
  DETECTION_CACHE (onMessage_analyzeContent T tabUrl content true now s) = DETECTION_CACHE s
  ∧ ACTIVE_ANALYSES (onMessage_analyzeContent T tabUrl content true now s)
    = ACTIVE_ANALYSES s
  ∧ activations (onMessage_analyzeContent T tabUrl content true now s) = activations s
  ∧ timers (onMessage_analyzeContent T tabUrl content true now s) = timers s
  ∧ pending_ignore (onMessage_analyzeContent T tabUrl content true now s)
    = pending_ignore s
  ∧ stored_detections (onMessage_analyzeContent T tabUrl content true now s) !! T
    = Some {| det_result := StoredAnalysis (skip_result s);
              det_url := Some tabUrl; det_timestamp := now |}
  ∧ contentLength (skip_result s) = 0
  ∧ badge (onMessage_analyzeContent T tabUrl content true now s) !! T = Some IconSkipped
  ∧ (T ∉ SCANNING_ANIMATIONS (onMessage_analyzeContent T tabUrl content true now s))
  ∧ loadStatus T (onMessage_analyzeContent T tabUrl content true now s)
    = Shown ShowSkipped.
Proof.
  unfold loadStatus. destruct s; simpl. rewrite !lookup_insert_eq.
  split_and!; try done.
  intros Hin. apply elem_of_difference in Hin as [_ Hn]. apply Hn.
  by apply elem_of_singleton.
Qed.

(** X12. An ignored page is answered without a cache lookup and without a
    tracker: cache, registry, tracker objects and timers are unchanged; the
    ['IGNORED'] result is stored for the tab and the popup shows the page as
    ignored.  Unlike the skip path, the icon is the safe one ([updateBadge]
    is called without the result) and the scanning animation is not
    stopped. *)
Theorem ignored_page_short_circuits (hostname : string → option string)
    (rq : Request) (now : Z) (s : World) :
  shouldIgnoreUrl hostname (request_url (rq_tabUrl rq)) (stored_ignoreRules s) = true →
  DETECTION_CACHE (on_ignore_checked hostname rq now s) = DETECTION_CACHE s
  ∧ ACTIVE_ANALYSES (on_ignore_checked hostname rq now s) = ACTIVE_ANALYSES s
  ∧ activations (on_ignore_checked hostname rq now s) = activations s
  ∧ timers (on_ignore_checked hostname rq now s) = timers s
  ∧ stored_detections (on_ignore_checked hostname rq now s) !! rq_tabId rq
    = Some {| det_result := StoredAnalysis (ignore_result s (rq_content rq));
              det_url := Some (rq_tabUrl rq); det_timestamp := now |}
  ∧ badge (on_ignore_checked hostname rq now s) !! rq_tabId rq = Some IconSafe
  ∧ SCANNING_ANIMATIONS (on_ignore_checked hostname rq now s) = SCANNING_ANIMATIONS s
  ∧ loadStatus (rq_tabId rq) (on_ignore_checked hostname rq now s) = Shown ShowIgnored.
Proof.
  intros Hign. unfold on_ignore_checked, loadStatus. rewrite Hign.
  destruct s; simpl. rewrite !lookup_insert_eq. done.
Qed.

Lemma ignored_page_short_circuits_witness :
  badge (on_ignore_checked example_hostname example_request 30
           (set_stored_ignoreRules (Some example_rules) (world_after boot))) !! 1%Z
  = Some IconSafe
  ∧ loadStatus 1 (on_ignore_checked example_hostname example_request 30
                    (set_stored_ignoreRules (Some example_rules) (world_after boot)))
    = Shown ShowIgnored.
Proof.
  destruct (ignored_page_short_circuits example_hostname example_request 30
              (set_stored_ignoreRules (Some example_rules) (world_after boot)))
    as (_ & _ & _ & _ & _ & H6 & _ & H8).
  - vm_compute. reflexivity.
  - split; [exact H6|exact H8].
Defined.

(** X13. After a navigation started the scanning animation, a request that
    is answered as ignored or from the cache leaves it running: neither path
    calls [stopScanningAnimation]. *)
Theorem animation_survives_ignore_and_cache_hit (hostname : string → option string)
    (rq : Request) (tabUrl : option string) (now now' : Z) (s : World) :
  is_system_url tabUrl = false →
  (shouldIgnoreUrl hostname (request_url (rq_tabUrl rq)) (stored_ignoreRules s) = true
   ∨ is_Some (DETECTION_CACHE s
                !! getCacheKey (request_url (rq_tabUrl rq)) (rq_content rq) (rq_tabId rq) s)) →
  rq_tabId rq
  ∈ SCANNING_ANIMATIONS
      (on_ignore_checked hostname rq now' (onUpdated (rq_tabId rq) "loading" tabUrl now s)).
Proof.
  intros Hsys Hcase.
  destruct (onUpdated_cache (rq_tabId rq) "loading" tabUrl now s) as (Ec & Em & Ei & _).
  assert (rq_tabId rq ∈ SCANNING_ANIMATIONS (onUpdated (rq_tabId rq) "loading" tabUrl now s))
    as Hin.
  { unfold onUpdated. rewrite Hsys. simpl.
    destruct (cancel_and_delete (rq_tabId rq) s). simpl.
    apply elem_of_union. left. by apply elem_of_singleton. }
  unfold on_ignore_checked. rewrite Ei.
  replace (getCacheKey (request_url (rq_tabUrl rq)) (rq_content rq) (rq_tabId rq)
             (onUpdated (rq_tabId rq) "loading" tabUrl now s))
    with (getCacheKey (request_url (rq_tabUrl rq)) (rq_content rq) (rq_tabId rq) s)
    by (unfold getCacheKey; by rewrite Em).
  rewrite Ec.
  destruct (shouldIgnoreUrl _ _ _) eqn:Hign.
  { revert Hin. by destruct (onUpdated (rq_tabId rq) "loading" tabUrl now s). }
  destruct Hcase as [?|[cached Hhit]]; [done|]. rewrite Hhit.
  revert Hin. by destruct (onUpdated (rq_tabId rq) "loading" tabUrl now s).
Qed.

Lemma animation_survives_ignore_and_cache_hit_witness :
  (1%Z : Z)
  ∈ SCANNING_ANIMATIONS
      (on_ignore_checked example_hostname example_request 40
         (onUpdated 1 "loading" (Some "http://a.test") 30 (world_after committed))).
Proof.
  apply (animation_survives_ignore_and_cache_hit example_hostname example_request
           (Some "http://a.test") 30 40 (world_after committed)).
  - vm_compute. reflexivity.
  - right. eexists. vm_compute. reflexivity.
Defined.

(** ** Settlement, end to end *)

Lemma update_stage_frame k st s :
  ACTIVE_ANALYSES (update_stage k st s) = ACTIVE_ANALYSES s
  ∧ timers (update_stage k st s) = timers s
  ∧ SCANNING_ANIMATIONS (update_stage k st s) = SCANNING_ANIMATIONS s
  ∧ activeMode (update_stage k st s) = activeMode s
  ∧ stored_ignoreRules (update_stage k st s) = stored_ignoreRules s.
Proof. unfold update_stage. destruct (activations s !! k); by destruct s. Qed.

Lemma then_callback_live k result s a :
  activations s !! k = Some a → cancelled (a_tracker a) = false →
  activations (then_callback k result s) !! k = Some (set_stage (AwaitingTab result) a)
  ∧ SCANNING_ANIMATIONS (then_callback k result s) = SCANNING_ANIMATIONS s
  ∧ activeMode (then_callback k result s) = activeMode s
  ∧ stored_ignoreRules (then_callback k result s) = stored_ignoreRules s
  ∧ ACTIVE_ANALYSES (then_callback k result s) = delete (a_tabId a) (ACTIVE_ANALYSES s)
  ∧ timers (then_callback k result s) = timers (clearTimeout (timeout (a_tracker a)) s).
Proof.
  intros Ha Hcan. unfold then_callback. rewrite Ha, Hcan.
  match goal with |- context [update_stage k ?st ?w] =>
    destruct (update_stage_frame k st w) as (-> & -> & -> & -> & ->);
    rewrite (update_stage_lookup k st w a)
  end.
  - by destruct s, (timeout (a_tracker a)).
  - by destruct s, (timeout (a_tracker a)).
Qed.

Lemma tabs_get_callback_frame k result tabUrl now s a :
  activations s !! k = Some a → tabUrl = a_url a →
  SCANNING_ANIMATIONS (tabs_get_callback k result (Some tabUrl) now s)
  = SCANNING_ANIMATIONS s ∖ {[a_tabId a]}
  ∧ badge (tabs_get_callback k result (Some tabUrl) now s)
    = <[a_tabId a := badge_icon (isMalicious result) (Some result)]> (badge s)
  ∧ ACTIVE_ANALYSES (tabs_get_callback k result (Some tabUrl) now s) = ACTIVE_ANALYSES s
  ∧ activeMode (tabs_get_callback k result (Some tabUrl) now s) = activeMode s
  ∧ stored_ignoreRules (tabs_get_callback k result (Some tabUrl) now s)
    = stored_ignoreRules s.
Proof.
  intros Ha ->. unfold tabs_get_callback. rewrite Ha.
  rewrite bool_decide_eq_false_2 by (intros H; by apply H).
  destruct (update_stage_frame k Finished s) as (E1 & _ & E3 & E4 & E5).
  destruct (update_stage_outputs k Finished s) as (_ & _ & Eb & _).
  revert E1 E3 E4 E5 Eb. destruct (update_stage k Finished s). simpl.
  by intros -> -> -> -> ->.
Qed.

(** X14. An analysis that is not cancelled when its detector call settles,
    on a tab that is still at the request's URL, commits whatever
    [analyzeContent] resolved with: the result is cached under the key
    computed at request time, stored for the tab, sent once, the animation
    is stopped and the registry entry is gone.  A detector that throws is
    no exception: the ['ERROR'] result built from the exception is cached
    like a verdict, and the next request with the same key is answered with
    that ['ERROR'] result from the cache. *)
Theorem settlement_commits_and_caches (hostname : string → option string)
    (s : World) (k : nat) (a : Activation) (c : BackendCall) (o : BackendOutcome)
    (now now' : Z) (rq : Request) :
  activations s !! k = Some a →
  a_stage a = AwaitingBackend c →
  cancelled (a_tracker a) = false →
  ∃ s', run hostname [BackendSettled k o; TabsGet k (Some (a_url a)) now] s = Some s'
    ∧ DETECTION_CACHE s' !! a_cacheKey a = Some (analyzeContent_resume (a_content a) o s)
    ∧ stored_detections s' !! a_tabId a
      = Some {| det_result := StoredAnalysis (analyzeContent_resume (a_content a) o s);
                det_url := Some (a_url a); det_timestamp := now |}
    ∧ responses s'
      = (responses s ++ [(a_rid a, analyzeContent_resume (a_content a) o s)])%list
    ∧ (a_tabId a ∉ SCANNING_ANIMATIONS s')
    ∧ ACTIVE_ANALYSES s' !! a_tabId a = None
    ∧ (∀ message, o = Rejected message →
         judgment (analyzeContent_resume (a_content a) o s) = "ERROR"
         ∧ isMalicious (analyzeContent_resume (a_content a) o s) = false)
    ∧ (shouldIgnoreUrl hostname (request_url (rq_tabUrl rq)) (stored_ignoreRules s) = false →
       getCacheKey (request_url (rq_tabUrl rq)) (rq_content rq) (rq_tabId rq) s
       = a_cacheKey a →
       responses (on_ignore_checked hostname rq now' s')
       = (responses s' ++ [(rq_id rq, analyzeContent_resume (a_content a) o s)])%list).
Proof.
  intros Ha Hst Hcan.
  set (result := analyzeContent_resume (a_content a) o s).
  destruct (then_callback_live k result s a Ha Hcan) as (Ha1 & Ea1 & Em1 & Ei1 & Er1 & _).
  destruct (then_callback_outputs k result s) as (Ec1 & Ed1 & Eb1 & Ep1).
  set (s1 := then_callback k result s) in *.
  destruct (tabs_get_callback_commits k result now s1 _ Ha1) as (Ec2 & Ed2 & Ep2).
  destruct (tabs_get_callback_frame k result (a_url a) now s1 _ Ha1 eq_refl)
    as (Ea2 & _ & Er2 & Em2 & Ei2).
  simpl in Ec2, Ed2, Ep2, Ea2.
  exists (tabs_get_callback k result (Some (a_url a)) now s1). split_and!.
  - simpl. rewrite Ha. simpl. rewrite Hst. fold result. fold s1.
    simpl. rewrite Ha1. simpl. reflexivity.
  - rewrite Ec2. apply lookup_insert_eq.
  - rewrite Ed2. apply lookup_insert_eq.
  - by rewrite Ep2, Ep1.
  - rewrite Ea2. apply not_elem_of_difference. right. by apply elem_of_singleton.
  - rewrite Er2, Er1. apply lookup_delete_eq.
  - intros message ->. done.
  - intros Hign Hkey. unfold on_ignore_checked. rewrite Ei2, Ei1, Hign.
    replace (getCacheKey (request_url (rq_tabUrl rq)) (rq_content rq) (rq_tabId rq)
               (tabs_get_callback k result (Some (a_url a)) now s1))
      with (a_cacheKey a)
      by (rewrite <- Hkey; unfold getCacheKey; by rewrite Em2, Em1).
    rewrite Ec2, lookup_insert_eq.
    by destruct (tabs_get_callback k result (Some (a_url a)) now s1).
Qed.

Lemma settlement_commits_and_caches_witness :
  ∃ s', run example_hostname
          [BackendSettled 0 (Rejected "network down"); TabsGet 0 (Some "http://a.test") 20]
          (world_after one_request) = Some s'
        ∧ judgment <$> DETECTION_CACHE s' !! "tab1:http://a.test:X:cloud" = Some "ERROR"
        ∧ judgment <$> responses_of 1 (on_ignore_checked example_hostname example_request 30 s')
          = ["ERROR"].
Proof.
  destruct (settlement_commits_and_caches example_hostname (world_after one_request) 0
              {| a_rid := 0; a_tabId := 1; a_url := "http://a.test"; a_content := "X";
                 a_cacheKey := "tab1:http://a.test:X:cloud";
                 a_tracker := {| cancelled := false; timeout := Some 0; startTime := 11 |};
                 a_stage := AwaitingBackend
                              (AnalyzeCloud (Some ready_sessions) "X" "http://a.test") |}
              (AnalyzeCloud (Some ready_sessions) "X" "http://a.test")
              (Rejected "network down") 20 30 example_request)
    as (s' & Hrun & Hc & _ & Hr & _ & _ & _ & Hhit).
  - vm_compute. reflexivity.
  - reflexivity.
  - reflexivity.
  - exists s'. split_and!; [exact Hrun| |].
    + simpl in Hc. rewrite Hc. reflexivity.
    + unfold responses_of. rewrite Hhit, Hr; [|vm_compute; reflexivity..].
      vm_compute. reflexivity.
Defined.

Lemma register_tracker_effect rq url cacheKey now s :
  activations (register_tracker rq url cacheKey now s) !! List.length (activations s)
  = Some {| a_rid := rq_id rq; a_tabId := rq_tabId rq; a_url := url;
            a_content := rq_content rq; a_cacheKey := cacheKey;
            a_tracker := {| cancelled := false;
                            timeout := Some (List.length (activations s));
                            startTime := now |};
            a_stage := Finished |}
  ∧ isAiAvailable (register_tracker rq url cacheKey now s) = isAiAvailable s
  ∧ aiAvailabilityStatus (register_tracker rq url cacheKey now s) = aiAvailabilityStatus s
  ∧ activeMode (register_tracker rq url cacheKey now s) = activeMode s
  ∧ currentSessions (register_tracker rq url cacheKey now s) = currentSessions s
  ∧ responses (register_tracker rq url cacheKey now s) = responses s
  ∧ DETECTION_CACHE (register_tracker rq url cacheKey now s) = DETECTION_CACHE s.
Proof.
  unfold register_tracker, cancel_previous, cancel_tracker.
  destruct (ACTIVE_ANALYSES s !! rq_tabId rq) as [k|].
  - destruct (activations s !! k) as [a|] eqn:Ha.
    + destruct s, (timeout (a_tracker a)); world_cbv; rewrite length_insert;
        (split_and!; [|done..]);
        by rewrite lookup_app_r, length_insert, Nat.sub_diag by (by rewrite length_insert).
    + destruct s; world_cbv. split_and!; [|done..].
      by rewrite lookup_app_r, Nat.sub_diag.
  - destruct s; world_cbv. split_and!; [|done..].
    by rewrite lookup_app_r, Nat.sub_diag.
Qed.

(** X15. While the detector is unavailable (and not merely unconfigured) a
    request that misses the cache is settled in the same callback that
    registered it: the tracker is already out of the registry, its watchdog
    is disarmed, nothing has been sent yet, and the analysis waits for
    [chrome.tabs.get] with the unavailable ['ERROR'] result.  If the tab is
    still on the page that result is cached under the request's key, so the
    "unavailable" answer outlives the outage. *)
Theorem unavailable_request_settles_at_once (rq : Request) (url cacheKey : string)
    (now now' : Z) (s : World) :
  isAiAvailable s = false →
  aiAvailabilityStatus s ≠ "configure-required" →
  ACTIVE_ANALYSES (start_analysis rq url cacheKey now s) !! rq_tabId rq = None
  ∧ (List.length (activations s) ∉ timers (start_analysis rq url cacheKey now s))
  ∧ responses (start_analysis rq url cacheKey now s) = responses s
  ∧ a_stage <$> activations (start_analysis rq url cacheKey now s)
                  !! List.length (activations s)
    = Some (AwaitingTab (unavailable_result s (rq_content rq)))
  ∧ DETECTION_CACHE
      (tabs_get_callback (List.length (activations s))
         (unavailable_result s (rq_content rq)) (Some url) now'
         (start_analysis rq url cacheKey now s)) !! cacheKey
    = Some (unavailable_result s (rq_content rq)).
Proof.
  intros Hav Hst. unfold start_analysis.
  destruct (register_tracker_effect rq url cacheKey now s)
    as (Ha & E1 & E2 & E3 & _ & Er & _).
  set (s1 := register_tracker rq url cacheKey now s) in *.
  set (n := List.length (activations s)) in *.
  assert (analyzeContent (rq_content rq) url s1
          = Resolved (unavailable_result s (rq_content rq))) as ->.
  { unfold analyzeContent, unavailable_result. rewrite E1, E2, E3, Hav.
    by rewrite bool_decide_eq_false_2. }
  set (result := unavailable_result s (rq_content rq)).
  destruct (then_callback_live n result s1 _ Ha eq_refl) as (Ha2 & _ & _ & _ & Er2 & Et2).
  destruct (then_callback_outputs n result s1) as (_ & _ & _ & Ep2).
  split_and!.
  - rewrite Er2. apply lookup_delete_eq.
  - rewrite Et2. simpl. destruct s1; simpl. apply not_elem_of_removed.
  - by rewrite Ep2.
  - by rewrite Ha2.
  - destruct (tabs_get_callback_commits n result now' _ _ Ha2) as (Ec & _).
    simpl in Ec. rewrite Ec. apply lookup_insert_eq.
Qed.

Lemma unavailable_request_settles_at_once_witness :
  ACTIVE_ANALYSES
    (start_analysis example_request "http://a.test" "tab1:http://a.test:X:cloud" 5
       initial_world) !! 1%Z = None
  ∧ responses
      (start_analysis example_request "http://a.test" "tab1:http://a.test:X:cloud" 5
         initial_world) = [].
Proof.
  destruct (unavailable_request_settles_at_once example_request "http://a.test"
              "tab1:http://a.test:X:cloud" 5 6 initial_world) as (H1 & _ & H3 & _).
  - reflexivity.
  - discriminate.
  - split; [exact H1|exact H3].
Defined.

(** ** Ignore rules: matcher, popup buttons, settings page *)

Lemma ignoreRules_loop_parsed hostname url h rules :
  hostname url = Some h →
  ignoreRules_loop hostname url rules = Normal (existsb (rule_matches url h) rules).
Proof.
  intros Hh. induction rules as [|rule rules IH]; [done|].
  simpl. rewrite Hh, IH. unfold rule_matches.
  destruct (bool_decide (type rule = "url")) eqn:Eu;
    destruct (bool_decide (url = pattern rule)) eqn:Ep;
    destruct (bool_decide (type rule = "domain")) eqn:Ed;
    destruct (bool_decide (h = pattern rule)) eqn:Eh; simpl; try done.
Qed.

Lemma ignoreRules_loop_unparsed hostname url rules :
  hostname url = None →
  match ignoreRules_loop hostname url rules with
  | Normal b => b = url_rule_before_domain url rules
  | Throw _ => url_rule_before_domain url rules = false
  end.
Proof.
  intros Hh. induction rules as [|rule rules IH]; [done|].
  simpl. rewrite Hh.
  destruct (bool_decide (type rule = "url") && bool_decide (url = pattern rule)); [done|].
  destruct (bool_decide (type rule = "domain")); [done|]. exact IH.
Qed.

Lemma existsb_elem_of {A} (f : A → bool) (l : list A) :
  existsb f l = true ↔ ∃ x, x ∈ l ∧ f x = true.
Proof.
  rewrite existsb_exists. split; intros (x & Hin & Hf); exists x;
    (split; [by apply list_elem_of_In|done]).
Qed.

Lemma shouldIgnoreUrl_parsed hostname url h stored :
  hostname url = Some h →
  shouldIgnoreUrl hostname url stored
  = is_internal_page url || existsb (rule_matches url h) (default [] stored).
Proof.
  intros Hh. unfold shouldIgnoreUrl, shouldIgnoreUrl_try.
  destruct (is_internal_page url); [done|]. simpl.
  by rewrite (ignoreRules_loop_parsed _ _ h).
Qed.

(** X16. For a URL that parses, [shouldIgnoreUrl] is true exactly when the
    page is an internal page or some stored rule matches (an exact [url]
    rule, or a [domain] rule for the host); so the answer does not depend on
    the order of the rules. *)
Theorem shouldIgnoreUrl_order_independent (hostname : string → option string)
    (url h : string) (rules rules' : list IgnoreRule) :
  hostname url = Some h →
  rules ≡ₚ rules' →
  (shouldIgnoreUrl hostname url (Some rules) = true
   ↔ is_internal_page url = true
     ∨ ∃ rule, rule ∈ rules ∧ rule_matches url h rule = true)
  ∧ shouldIgnoreUrl hostname url (Some rules) = shouldIgnoreUrl hostname url (Some rules').
Proof.
  intros Hh Hperm.
  assert (∀ l, shouldIgnoreUrl hostname url (Some l)
               = is_internal_page url || existsb (rule_matches url h) l) as Hchar.
  { intros l. by rewrite (shouldIgnoreUrl_parsed _ _ h). }
  split.
  - rewrite Hchar, orb_true_iff, existsb_elem_of. done.
  - rewrite !Hchar. f_equal.
    apply eq_true_iff_eq. rewrite !existsb_elem_of.
    split; intros (x & Hin & Hf); exists x; (split; [|done]).
    + by rewrite <- Hperm.
    + by rewrite Hperm.
Qed.

Lemma shouldIgnoreUrl_order_independent_witness :
  shouldIgnoreUrl example_hostname "http://a.test" (Some example_rules)
  = shouldIgnoreUrl example_hostname "http://a.test" (Some (reverse example_rules))
  ∧ shouldIgnoreUrl example_hostname "http://a.test" (Some example_rules) = true.
Proof.
  destruct (shouldIgnoreUrl_order_independent example_hostname "http://a.test" "a.test"
              example_rules (reverse example_rules)) as [H1 H2].
  - vm_compute. reflexivity.
  - symmetry. apply reverse_Permutation.
  - split; [exact H2|]. apply H1. right.
    exists {| pattern := "a.test"; type := "domain"; addedAt := 2 |}.
    split; [|vm_compute; reflexivity].
    apply list_elem_of_In. right. left. reflexivity.
Defined.

(** X17. For a URL that does not parse, [shouldIgnoreUrl] is true exactly
    when the page is an internal page or an exact [url] rule for it occurs
    before the first [domain] rule: the first [domain] rule ends the search,
    also for exact rules stored after it. *)
Theorem shouldIgnoreUrl_unparsed (hostname : string → option string)
    (url : string) (stored : option (list IgnoreRule)) :
  hostname url = None →
  shouldIgnoreUrl hostname url stored
  = is_internal_page url || url_rule_before_domain url (default [] stored).
Proof.
  intros Hh. unfold shouldIgnoreUrl, shouldIgnoreUrl_try.
  destruct (is_internal_page url); [done|]. simpl.
  pose proof (ignoreRules_loop_unparsed hostname url (default [] stored) Hh) as H.
  by destruct (ignoreRules_loop hostname url (default [] stored)).
Qed.

Lemma shouldIgnoreUrl_unparsed_witness :
  shouldIgnoreUrl example_hostname "unknown"
    (Some [ {| pattern := "a.test"; type := "domain"; addedAt := 1 |};
            {| pattern := "unknown"; type := "url"; addedAt := 2 |} ]) = false
  ∧ shouldIgnoreUrl example_hostname "unknown"
      (Some [ {| pattern := "unknown"; type := "url"; addedAt := 2 |};
              {| pattern := "a.test"; type := "domain"; addedAt := 1 |} ]) = true.
Proof.
  split; rewrite shouldIgnoreUrl_unparsed by (vm_compute; reflexivity);
    vm_compute; reflexivity.
Defined.

Lemma rule_exists_spec p t rules :
  rule_exists p t rules = true ↔ ∃ rule, rule ∈ rules ∧ pattern rule = p ∧ type rule = t.
Proof.
  unfold rule_exists. rewrite existsb_elem_of.
  split; intros (rule & Hin & H); exists rule; (split; [done|]).
  - apply andb_true_iff in H as [H1 H2]. by apply bool_decide_eq_true_1 in H1, H2.
  - destruct H as [H1 H2]. by rewrite !bool_decide_eq_true_2.
Qed.

Lemma addIgnoreRule_stored p t now s :
  stored_ignoreRules (addIgnoreRule p t now s)
  = if rule_exists p t (default [] (stored_ignoreRules s)) then stored_ignoreRules s
    else Some (default [] (stored_ignoreRules s)
               ++ [{| pattern := p; type := t; addedAt := now |}])%list.
Proof. unfold addIgnoreRule. destruct (rule_exists _ _ _); by destruct s. Qed.

Lemma addIgnoreRule_exists p t now s :
  rule_exists p t (default [] (stored_ignoreRules (addIgnoreRule p t now s))) = true.
Proof.
  rewrite addIgnoreRule_stored.
  destruct (rule_exists p t (default [] (stored_ignoreRules s))) eqn:E; [exact E|].
  simpl. apply rule_exists_spec.
  exists {| pattern := p; type := t; addedAt := now |}. split; [|done].
  apply elem_of_app. right. by apply list_elem_of_singleton.
Qed.

(** X18. [addIgnoreRule] never stores the same (pattern, type) twice: after
    it the rule exists, adding it again changes nothing, the rules already
    stored keep their places, and a list without duplicate (pattern, type)
    pairs stays without duplicates. *)
Theorem addIgnoreRule_idempotent (p t : string) (now now' : Z) (s : World) :
  rule_exists p t (default [] (stored_ignoreRules (addIgnoreRule p t now s))) = true
  ∧ addIgnoreRule p t now' (addIgnoreRule p t now s) = addIgnoreRule p t now s
  ∧ default [] (stored_ignoreRules s)
    `prefix_of` default [] (stored_ignoreRules (addIgnoreRule p t now s))
  ∧ (NoDup ((λ rule, (pattern rule, type rule)) <$> default [] (stored_ignoreRules s)) →
     NoDup ((λ rule, (pattern rule, type rule))
              <$> default [] (stored_ignoreRules (addIgnoreRule p t now s)))).
Proof.
  pose proof (addIgnoreRule_exists p t now s) as Hex.
  split_and!.
  - exact Hex.
  - unfold addIgnoreRule at 1. by rewrite Hex.
  - rewrite addIgnoreRule_stored.
    destruct (rule_exists p t (default [] (stored_ignoreRules s))); [done|].
    simpl. by apply prefix_app_r.
  - intros Hnd. rewrite addIgnoreRule_stored.
    destruct (rule_exists p t (default [] (stored_ignoreRules s))) eqn:E; [done|].
    simpl. rewrite fmap_app. apply NoDup_app. split_and!; [done| |apply NoDup_singleton].
    intros [p' t'] Hin Hin'. apply list_elem_of_singleton in Hin'. injection Hin' as -> ->.
    apply list_elem_of_fmap in Hin as (rule & [= Hp Ht] & Hin).
    assert (rule_exists p t (default [] (stored_ignoreRules s)) = true); [|congruence].
    apply rule_exists_spec. by exists rule.
Qed.

Lemma addIgnoreRule_idempotent_witness :
  NoDup ((λ rule, (pattern rule, type rule))
           <$> default [] (stored_ignoreRules
                             (addIgnoreRule "a.test" "domain" 9
                                (set_stored_ignoreRules (Some example_rules) initial_world)))).
Proof.
  destruct (addIgnoreRule_idempotent "a.test" "domain" 9 10
              (set_stored_ignoreRules (Some example_rules) initial_world))
    as (_ & _ & _ & H).
  apply H. apply (bool_decide_eq_true_1 _). vm_compute. reflexivity.
Defined.

Lemma addIgnoreRule_frame p t now s :
  responses (addIgnoreRule p t now s) = responses s
  ∧ activeMode (addIgnoreRule p t now s) = activeMode s
  ∧ DETECTION_CACHE (addIgnoreRule p t now s) = DETECTION_CACHE s.
Proof. unfold addIgnoreRule. destruct (rule_exists _ _ _); by destruct s. Qed.

(** X19. The popup's ignore buttons take effect on the next scan.  For a
    tab whose URL is not empty and parses, after "Ignore URL" and after
    "Ignore Domain" [shouldIgnoreUrl] is true for that URL, whatever rules
    were stored before; a scan request from the page is then answered with
    the ['IGNORED'] result. *)
Theorem ignore_buttons_take_effect (hostname : string → option string)
    (tabUrl h : string) (now now' : Z) (rq : Request) (s : World) :
  tabUrl ≠ "" →
  hostname tabUrl = Some h →
  rq_tabUrl rq = tabUrl →
  shouldIgnoreUrl hostname (request_url tabUrl)
    (stored_ignoreRules (ignoreUrlClicked tabUrl now s)) = true
  ∧ shouldIgnoreUrl hostname (request_url tabUrl)
      (stored_ignoreRules (ignoreDomainClicked hostname tabUrl now s)) = true
  ∧ responses (on_ignore_checked hostname rq now' (ignoreUrlClicked tabUrl now s))
    = (responses s ++ [(rq_id rq, ignore_result s (rq_content rq))])%list
  ∧ responses (on_ignore_checked hostname rq now'
                 (ignoreDomainClicked hostname tabUrl now s))
    = (responses s ++ [(rq_id rq, ignore_result s (rq_content rq))])%list.
Proof.
  intros Hne Hh Hrq.
  assert (request_url tabUrl = tabUrl) as Eu.
  { unfold request_url. by rewrite bool_decide_eq_false_2. }
  assert (∀ p t w,
            (t = "url" ∧ p = tabUrl ∨ t = "domain" ∧ p = h) →
            rule_exists p t (default [] (stored_ignoreRules w)) = true →
            shouldIgnoreUrl hostname tabUrl (stored_ignoreRules w) = true) as Hmatch.
  { intros p t w Hpt Hex. rewrite (shouldIgnoreUrl_parsed _ _ h) by done.
    apply orb_true_iff. right. apply existsb_elem_of.
    apply rule_exists_spec in Hex as (rule & Hin & Hp & Ht). exists rule.
    split; [done|]. unfold rule_matches. rewrite Hp, Ht.
    destruct Hpt as [[-> ->]|[-> ->]].
    - rewrite (bool_decide_eq_true_2 ("url" = "url")) by done.
      by rewrite (bool_decide_eq_true_2 (tabUrl = tabUrl)).
    - rewrite (bool_decide_eq_true_2 ("domain" = "domain")) by done.
      rewrite (bool_decide_eq_true_2 (h = h)) by done. apply orb_true_r. }
  assert (shouldIgnoreUrl hostname tabUrl
            (stored_ignoreRules (ignoreUrlClicked tabUrl now s)) = true) as H1.
  { apply (Hmatch tabUrl "url"); [by left|]. apply addIgnoreRule_exists. }
  assert (shouldIgnoreUrl hostname tabUrl
            (stored_ignoreRules (ignoreDomainClicked hostname tabUrl now s)) = true) as H2.
  { unfold ignoreDomainClicked. rewrite Hh.
    apply (Hmatch h "domain"); [by right|]. apply addIgnoreRule_exists. }
  rewrite Eu. split_and!; [done..| |].
  - unfold on_ignore_checked. rewrite Hrq, Eu, H1. unfold ignoreUrlClicked.
    destruct (addIgnoreRule_frame tabUrl "url" now s) as (Er & Em & _).
    rewrite <- Er. unfold ignore_result. rewrite <- Em.
    by destruct (addIgnoreRule tabUrl "url" now s).
  - unfold on_ignore_checked. rewrite Hrq, Eu, H2. unfold ignoreDomainClicked.
    rewrite Hh.
    destruct (addIgnoreRule_frame h "domain" now s) as (Er & Em & _).
    rewrite <- Er. unfold ignore_result. rewrite <- Em.
    by destruct (addIgnoreRule h "domain" now s).
Qed.

Lemma ignore_buttons_take_effect_witness :
  shouldIgnoreUrl example_hostname (request_url "http://a.test")
    (stored_ignoreRules
       (ignoreDomainClicked example_hostname "http://a.test" 5 (world_after boot))) = true.
Proof.
  destruct (ignore_buttons_take_effect example_hostname "http://a.test" "a.test" 5 6
              example_request (world_after boot)) as (_ & H & _).
  - discriminate.
  - vm_compute. reflexivity.
  - reflexivity.
  - exact H.
Defined.

(** X20. [removeIgnoreRule(index)] stores the list without the element at
    [index]; an index past the end leaves the rules as they are; removing
    right after adding a rule that did not exist restores the previous
    list; and for a URL that parses, removing a rule never makes a page
    ignored that was not ignored before. *)
Theorem removeIgnoreRule_effects (hostname : string → option string)
    (index : nat) (p t url h : string) (now : Z) (s : World) :
  stored_ignoreRules (removeIgnoreRule index s)
  = Some (take index (default [] (stored_ignoreRules s))
          ++ drop (S index) (default [] (stored_ignoreRules s)))%list
  ∧ ((List.length (default [] (stored_ignoreRules s)) ≤ index)%nat →
     stored_ignoreRules (removeIgnoreRule index s)
     = Some (default [] (stored_ignoreRules s)))
  ∧ ((index < List.length (default [] (stored_ignoreRules s)))%nat →
     S (List.length (default [] (stored_ignoreRules (removeIgnoreRule index s))))
     = List.length (default [] (stored_ignoreRules s)))
  ∧ (rule_exists p t (default [] (stored_ignoreRules s)) = false →
     stored_ignoreRules
       (removeIgnoreRule (List.length (default [] (stored_ignoreRules s)))
          (addIgnoreRule p t now s))
     = Some (default [] (stored_ignoreRules s)))
  ∧ (hostname url = Some h →
     shouldIgnoreUrl hostname url (stored_ignoreRules (removeIgnoreRule index s)) = true →
     shouldIgnoreUrl hostname url (stored_ignoreRules s) = true).
Proof.
  assert (∀ j w, stored_ignoreRules (removeIgnoreRule j w)
                 = Some (delete j (default [] (stored_ignoreRules w)))) as E
    by (intros j w; by destruct w).
  split_and!.
  - by rewrite E, delete_take_drop.
  - intros Hge. rewrite E, delete_take_drop, take_ge, drop_ge by lia.
    by rewrite app_nil_r.
  - intros Hlt. rewrite E. simpl. rewrite length_delete.
    + lia.
    + by apply lookup_lt_is_Some_2.
  - intros Hex. rewrite E, addIgnoreRule_stored, Hex. simpl.
    by rewrite delete_middle, app_nil_r.
  - intros Hh. rewrite E, !(shouldIgnoreUrl_parsed _ _ h) by done. simpl.
    rewrite !orb_true_iff, !existsb_elem_of.
    intros [?|(rule & Hin & Hm)]; [by left|]. right. exists rule.
    split; [|done]. by eapply list_elem_of_delete_inv.
Qed.

Lemma removeIgnoreRule_effects_witness :
  stored_ignoreRules
    (removeIgnoreRule 2
       (addIgnoreRule "b.test" "domain" 7
          (set_stored_ignoreRules (Some example_rules) initial_world)))
  = Some example_rules.
Proof.
  destruct (removeIgnoreRule_effects example_hostname 0 "b.test" "domain" "" "" 7
              (set_stored_ignoreRules (Some example_rules) initial_world))
    as (_ & _ & _ & H & _).
  apply H. vm_compute. reflexivity.
Defined.

(** ** Popup *)

(** X21. The popup files every result the background service builds itself
    under the intended heading: skipped, ignored, error (unavailable, not
    configured, detector exception) and timed out; the watchdog's result is
    recognised by its [method], its [judgment] being free text.  A threat is
    shown only for a malicious result that carries none of the skipped,
    ignored, timeout and error tags; an ['ERROR'] result is never shown as
    a threat or as safe. *)
Theorem popup_files_synthetic_results (s : World) (content message : string)
    (r : AnalysisResult) :
  displayResult (skip_result s) = ShowSkipped
  ∧ displayResult (ignore_result s content) = ShowIgnored
  ∧ displayResult (unavailable_result s content) = ShowError
  ∧ displayResult (configuration_result content) = ShowError
  ∧ displayResult (caught_result s content message) = ShowError
  ∧ displayResult (timeout_result s content) = ShowTimedOut
  ∧ displayResult (rejection_result s content message)
    = (if includes message "timeout" then ShowTimedOut else ShowError)
  ∧ (displayResult r = ShowThreat
     ↔ isMalicious r = true
       ∧ judgment r ≠ "SKIPPED" ∧ method r ≠ "skipped"
       ∧ judgment r ≠ "IGNORED" ∧ method r ≠ "ignored"
       ∧ judgment r ≠ "TIMEOUT" ∧ method r ≠ "timeout"
       ∧ judgment r ≠ "ERROR" ∧ method r ≠ "error").
Proof.
  split_and!; try done.
  - unfold rejection_result, displayResult. simpl.
    by destruct (includes message "timeout").
  - unfold displayResult.
    repeat case_bool_decide; simpl; destruct (isMalicious r);
      split; try done; intros (? & ? & ? & ? & ? & ? & ? & ? & ?); done.
Qed.

(** ** Invariants of timers and answers *)

Lemma count_snoc (resp : list (nat * AnalysisResult)) rid rid0 r0 :
  List.length (filter (λ p, p.1 = rid) (resp ++ [(rid0, r0)])%list)
  = (List.length (filter (λ p, p.1 = rid) resp) + (if decide (rid0 = rid) then 1 else 0))%nat.
Proof.
  rewrite filter_app, length_app. f_equal.
  rewrite filter_cons, filter_nil. simpl. by destruct (decide (rid0 = rid)).
Qed.

Lemma silent_in_count (resp : list (nat * AnalysisResult)) rid :
  silent_in resp rid → List.length (filter (λ p, p.1 = rid) resp) = 0.
Proof.
  intros Hs. induction resp as [|[rid' r] resp IH]; [done|].
  rewrite filter_cons. destruct (decide _) as [E|E]; simpl in E.
  - subst. exfalso. eapply Hs. left.
  - apply IH. intros r0 Hin. eapply Hs. right. exact Hin.
Qed.

Section AnswerInvariant.
Variables (reg : gmap Z nat) (acts : list Activation) (tms : gset nat).
Variables (pend : gmap nat Request) (resp : list (nat * AnalysisResult)) (nrid : nat).
Hypothesis HB : InvB_on reg acts pend resp nrid.
Hypothesis HC : InvC_on acts tms pend resp nrid.

(** Disarming timers. *)
Lemma InvC_on_disarm (X : gset nat) :
  (∀ k, k ∈ X → k ∈ tms) → InvC_on acts X pend resp nrid.
Proof.
  destruct HC as (Hc1 & Hc2 & Hc3). intros Hsub. split_and!; [|done..].
  intros k Hk. by apply Hc1, Hsub.
Qed.

(** A skipped message. *)
Lemma InvC_on_answer_fresh r : InvC_on acts tms pend (resp ++ [(nrid, r)])%list (S nrid).
Proof.
  destruct HB as ((Hr1 & Hr2 & Hr3 & Hr4) & Hu1 & Hu2).
  destruct HC as (Hc1 & Hc2 & Hc3). split_and!.
  - intros k Hk. destruct (Hc1 _ Hk) as (a & c & Ha & Hst & Hs).
    exists a, c. split_and!; [done..|]. apply silent_in_snoc; [done|].
    destruct (Hr1 _ _ Ha). lia.
  - intros rid Hlt Hp Hna. rewrite count_snoc.
    destruct (decide (nrid = rid)) as [<-|Hne].
    + rewrite silent_in_count; [done|]. intros r' Hin. apply Hr4 in Hin. lia.
    + rewrite Hc2; [done|lia|done..].
  - intros k a Ha. rewrite count_snoc.
    destruct (decide (nrid = a_rid a)) as [E|Hne]; [|rewrite Nat.add_0_r; eauto].
    destruct (Hr1 _ _ Ha). lia.
Qed.

(** A message that is not skipped. *)
Lemma InvC_on_new_pending rq : InvC_on acts tms (<[nrid := rq]> pend) resp (S nrid).
Proof.
  destruct HC as (Hc1 & Hc2 & Hc3). split_and!; [done| |done].
  intros rid Hlt Hp Hna. apply lookup_insert_None in Hp as [Hp Hne].
  apply Hc2; [lia|done..].
Qed.

(** An ignored page or a cache hit. *)
Lemma InvC_on_answer_pending rid rq r :
  pend !! rid = Some rq →
  InvC_on acts tms (delete rid pend) (resp ++ [(rid, r)])%list nrid.
Proof.
  destruct HB as ((Hr1 & Hr2 & Hr3 & Hr4) & Hu1 & Hu2).
  destruct HC as (Hc1 & Hc2 & Hc3). intros Hp.
  destruct (Hr3 _ _ Hp) as (Hlt & _ & Hsil).
  assert (∀ k a, acts !! k = Some a → a_rid a ≠ rid) as Hne.
  { intros k a Ha E. destruct (Hr1 _ _ Ha). congruence. }
  split_and!.
  - intros k Hk. destruct (Hc1 _ Hk) as (a & c & Ha & Hst & Hs).
    exists a, c. split_and!; [done..|]. apply silent_in_snoc; [done|by eapply Hne].
  - intros rid' Hlt' Hp' Hna. rewrite count_snoc.
    destruct (decide (rid = rid')) as [<-|Hn].
    + by rewrite silent_in_count.
    + rewrite Hc2; [done..| |done]. apply lookup_delete_None in Hp' as [|]; done.
  - intros k a Ha. rewrite count_snoc.
    destruct (decide (rid = a_rid a)) as [E|_]; [|rewrite Nat.add_0_r; eauto].
    exfalso. by eapply Hne.
Qed.

(** Setting the flag of a tracker. *)
Lemma InvC_on_cancel k a :
  acts !! k = Some a →
  InvC_on (<[k := set_cancelled a]> acts) (tms ∖ {[k]}) pend resp nrid.
Proof.
  destruct HC as (Hc1 & Hc2 & Hc3). intros Ha. split_and!.
  - intros k' Hk'. apply elem_of_difference in Hk' as [Hk' Hn].
    assert (k' ≠ k) by (intros ->; apply Hn; by apply elem_of_singleton).
    destruct (Hc1 _ Hk') as (a' & c & Ha' & Hst & Hs). exists a', c.
    by rewrite list_lookup_insert_ne.
  - intros rid Hlt Hp Hna. apply Hc2; [done..|].
    intros k' a' Ha'. destruct (decide (k' = k)) as [->|Hne].
    + assert (a' = a) as -> by congruence.
      apply (Hna k (set_cancelled a)).
      apply list_lookup_insert_eq. by eapply lookup_lt_Some.
    + apply (Hna k' a'). by rewrite list_lookup_insert_ne.
  - intros k' a' H'. apply list_lookup_insert_Some in H' as [(-> & <- & _)|[_ H']];
      simpl; eauto.
Qed.

(** Moving a disarmed analysis to a later stage. *)
Lemma InvC_on_stage k a st :
  acts !! k = Some a → k ∉ tms →
  (stage_bound (a_stage a) ≤ stage_bound st)%nat →
  InvC_on (<[k := set_stage st a]> acts) tms pend resp nrid.
Proof.
  destruct HC as (Hc1 & Hc2 & Hc3). intros Ha Hk Hb. split_and!.
  - intros k' Hk'. assert (k' ≠ k) by congruence.
    destruct (Hc1 _ Hk') as (a' & c & Ha' & Hst & Hs). exists a', c.
    by rewrite list_lookup_insert_ne.
  - intros rid Hlt Hp Hna. apply Hc2; [done..|].
    intros k' a' Ha'. destruct (decide (k' = k)) as [->|Hne].
    + assert (a' = a) as -> by congruence.
      apply (Hna k (set_stage st a)).
      apply list_lookup_insert_eq. by eapply lookup_lt_Some.
    + apply (Hna k' a'). by rewrite list_lookup_insert_ne.
  - intros k' a' H'. apply list_lookup_insert_Some in H' as [(-> & <- & _)|[_ H']];
      simpl; [|eauto]. specialize (Hc3 _ _ Ha). lia.
Qed.

(** The watchdog of an armed analysis sends its result. *)
Lemma InvC_on_timeout k a r :
  acts !! k = Some a → k ∈ tms →
  InvC_on acts (tms ∖ {[k]}) pend (resp ++ [(a_rid a, r)])%list nrid.
Proof.
  destruct HB as ((Hr1 & Hr2 & Hr3 & Hr4) & Hu1 & Hu2).
  destruct HC as (Hc1 & Hc2 & Hc3). intros Ha Hk.
  destruct (Hc1 _ Hk) as (a0 & c & Ha0 & Hst & Hs).
  assert (a0 = a) as -> by congruence. split_and!.
  - intros k' Hk'. apply elem_of_difference in Hk' as [Hk' Hn].
    assert (k' ≠ k) by (intros ->; apply Hn; by apply elem_of_singleton).
    destruct (Hc1 _ Hk') as (a' & c' & Ha' & Hst' & Hs'). exists a', c'.
    split_and!; [done..|]. apply silent_in_snoc; [done|]. intros E. eauto.
  - intros rid Hlt Hp Hna. rewrite count_snoc.
    destruct (decide (a_rid a = rid)) as [E|_]; [by destruct (Hna _ _ Ha)|].
    rewrite Nat.add_0_r. by apply Hc2.
  - intros k' a' Ha'. rewrite count_snoc.
    destruct (decide (a_rid a = a_rid a')) as [E|_]; [|rewrite Nat.add_0_r; eauto].
    assert (k' = k) as -> by eauto. assert (a' = a) as -> by congruence.
    rewrite silent_in_count by done. rewrite Hst. simpl. lia.
Qed.

(** The [chrome.tabs.get] callback commits and finishes the analysis. *)
Lemma InvC_on_commit k a r0 r :
  acts !! k = Some a → a_stage a = AwaitingTab r0 →
  InvC_on (<[k := set_stage Finished a]> acts) tms pend (resp ++ [(a_rid a, r)])%list nrid.
Proof.
  destruct HB as ((Hr1 & Hr2 & Hr3 & Hr4) & Hu1 & Hu2).
  destruct HC as (Hc1 & Hc2 & Hc3). intros Ha Hst.
  assert (k ∉ tms) as Hk.
  { intros Hk. destruct (Hc1 _ Hk) as (a0 & c & Ha0 & Hst0 & _). congruence. }
  split_and!.
  - intros k' Hk'. assert (k' ≠ k) by congruence.
    destruct (Hc1 _ Hk') as (a' & c' & Ha' & Hst' & Hs'). exists a', c'.
    rewrite list_lookup_insert_ne by done.
    split_and!; [done..|]. apply silent_in_snoc; [done|]. intros E. eauto.
  - intros rid Hlt Hp Hna. rewrite count_snoc.
    destruct (decide (a_rid a = rid)) as [E|_].
    { exfalso. apply (Hna k (set_stage Finished a)); [|done].
      apply list_lookup_insert_eq. by eapply lookup_lt_Some. }
    rewrite Nat.add_0_r. apply Hc2; [done..|].
    intros k' a' Ha'. destruct (decide (k' = k)) as [->|Hne].
    + assert (a' = a) as -> by congruence.
      apply (Hna k (set_stage Finished a)).
      apply list_lookup_insert_eq. by eapply lookup_lt_Some.
    + apply (Hna k' a'). by rewrite list_lookup_insert_ne.
  - intros k' a' H'. rewrite count_snoc.
    apply list_lookup_insert_Some in H' as [(-> & <- & _)|[Hne H']]; simpl.
    + rewrite decide_True by done. specialize (Hc3 _ _ Ha). rewrite Hst in Hc3.
      simpl in Hc3. lia.
    + destruct (decide (a_rid a = a_rid a')) as [E|_]; [|rewrite Nat.add_0_r; eauto].
      exfalso. apply Hne. symmetry. eauto.
Qed.

(** Allocating the activation of a pending request, armed with the
    detector call in flight, or already disarmed. *)
Lemma InvC_on_allocate rid rq new (armed : bool) :
  pend !! rid = Some rq → a_rid new = rid →
  (armed = true → ∃ c, a_stage new = AwaitingBackend c) →
  InvC_on (acts ++ [new])%list
          (if armed then {[List.length acts]} ∪ tms else tms)
          (delete rid pend) resp nrid.
Proof.
  destruct HB as ((Hr1 & Hr2 & Hr3 & Hr4) & Hu1 & Hu2).
  destruct HC as (Hc1 & Hc2 & Hc3). intros Hp Hid Harm.
  destruct (Hr3 _ _ Hp) as (Hlt & _ & Hsil).
  assert (∀ k, k ∈ tms →
            ∃ a c, (acts ++ [new])%list !! k = Some a ∧ a_stage a = AwaitingBackend c
                   ∧ silent_in resp (a_rid a)) as Hold.
  { intros k Hk. destruct (Hc1 _ Hk) as (a & c & Ha & Hst & Hs). exists a, c.
    split_and!; [|done..]. by apply lookup_app_l_Some. }
  split_and!.
  - destruct armed; [|done]. intros k Hk.
    apply elem_of_union in Hk as [Hk|Hk]; [|by apply Hold].
    apply elem_of_singleton in Hk as ->. destruct (Harm eq_refl) as [c Hc].
    exists new, c. rewrite lookup_app_r, Nat.sub_diag by done.
    split_and!; [done..|]. by rewrite Hid.
  - intros rid' Hlt' Hp' Hna.
    destruct (decide (rid' = rid)) as [->|Hne].
    { exfalso. apply (Hna (List.length acts) new); [|done].
      by rewrite lookup_app_r, Nat.sub_diag. }
    apply Hc2; [done| |].
    + apply lookup_delete_None in Hp' as [|]; done.
    + intros k a Ha. apply (Hna k a). by apply lookup_app_l_Some.
  - intros k a Ha. apply lookup_app_Some in Ha as [Ha|[_ Ha]]; [eauto|].
    apply list_lookup_singleton_Some in Ha as [_ <-]. rewrite Hid.
    rewrite silent_in_count by done. lia.
Qed.
End AnswerInvariant.

(** *** Every callback preserves the answer invariant *)

Ltac world_cbv_answers := unfold InvC in *; world_cbv.

Lemma InvC_same s s' :
  activations s' = activations s → timers s' = timers s →
  pending_ignore s' = pending_ignore s → responses s' = responses s →
  next_rid s' = next_rid s → InvC s → InvC s'.
Proof. unfold InvC. intros -> -> -> -> ->. done. Qed.

Lemma cancel_and_delete_InvC T s : InvA s → InvC s → InvC (cancel_and_delete T s).
Proof.
  intros HA HC. unfold cancel_and_delete, cancel_tracker.
  destruct (ACTIVE_ANALYSES s !! T) as [k|] eqn:HT; [|done].
  pose proof HA as (Hreg & _ & Hh & _).
  destruct (Hreg _ _ HT) as (a & Ha & _). rewrite Ha, (Hh _ _ Ha).
  destruct s; world_cbv_answers. by eapply InvC_on_cancel.
Qed.

Lemma then_callback_InvC k result s a c :
  InvA s → InvC s →
  activations s !! k = Some a → a_stage a = AwaitingBackend c →
  InvC (then_callback k result s).
Proof.
  intros HA HC Ha Hst. unfold then_callback, update_stage. rewrite Ha.
  pose proof HA as (_ & Htm & Hh & _).
  destruct (cancelled (a_tracker a)) eqn:Hcan.
  - destruct s; world_cbv_answers. rewrite ?Ha.
    eapply InvC_on_stage; [done..| |rewrite Hst; simpl; lia].
    intros Hk. destruct (Htm _ Hk) as (a' & Ha' & Hc'). congruence.
  - rewrite (Hh _ _ Ha). destruct s; world_cbv_answers. rewrite ?Ha.
    eapply InvC_on_stage; [|done|apply not_elem_of_removed|by rewrite Hst].
    eapply InvC_on_disarm; [done|]. intros k' Hk'.
    by apply elem_of_difference in Hk' as [? _].
Qed.

Lemma tabs_get_callback_InvC k result tab now s a :
  InvB s → InvC s →
  activations s !! k = Some a → a_stage a = AwaitingTab result →
  InvC (tabs_get_callback k result tab now s).
Proof.
  intros HB HC Ha Hst. unfold tabs_get_callback, update_stage. rewrite Ha.
  assert (k ∉ timers s) as Hk.
  { intros Hk. destruct HC as (Hc1 & _).
    destruct (Hc1 _ Hk) as (a' & c & Ha' & Hst' & _). congruence. }
  destruct tab as [tabUrl|].
  - destruct (bool_decide (tabUrl ≠ a_url a)).
    + destruct s; world_cbv_answers.
      eapply InvC_on_stage; [done..|]. rewrite Hst. simpl. lia.
    + destruct s; world_cbv_answers. by eapply InvC_on_commit.
  - destruct s; world_cbv_answers.
    eapply InvC_on_stage; [done..|]. rewrite Hst. simpl. lia.
Qed.

Lemma watchdog_InvC k s :
  InvA s → InvB s → InvC s → k ∈ timers s →
  InvC (watchdog_callback k (set_timers (timers s ∖ {[k]}) s)).
Proof.
  intros HA HB HC Hk. pose proof HA as (_ & Htm & _ & _).
  destruct (Htm _ Hk) as (a & Ha & Hcan). unfold watchdog_callback.
  destruct s; world_cbv_answers. rewrite Ha, Hcan.
  by eapply InvC_on_timeout.
Qed.

Lemma onMessage_InvC tabId tabUrl content skipped now s :
  InvB s → InvC s → InvC (onMessage_analyzeContent tabId tabUrl content skipped now s).
Proof.
  intros HB HC. unfold onMessage_analyzeContent. destruct skipped.
  - destruct s; world_cbv_answers. by eapply InvC_on_answer_fresh.
  - destruct s; world_cbv_answers. by eapply InvC_on_new_pending.
Qed.

Lemma lookup_snoc_length {A} (l' l : list A) (y : A) :
  List.length l' = List.length l → (l' ++ [y])%list !! List.length l = Some y.
Proof. intros <-. by rewrite lookup_app_r, Nat.sub_diag. Qed.

Lemma insert_snoc_length {A} (l' l : list A) (x y : A) :
  List.length l' = List.length l →
  <[List.length l := x]> (l' ++ [y])%list = (l' ++ [x])%list.
Proof.
  intros <-. rewrite insert_app_r_alt, Nat.sub_diag by done. done.
Qed.

Lemma start_analysis_InvC rid rq url cacheKey now s :
  InvA s → InvB s → InvC s → pending_ignore s !! rid = Some rq →
  InvC (start_analysis rq url cacheKey now
          (set_pending_ignore (delete rid (pending_ignore s)) s)).
Proof.
  intros HA HB HC Hp.
  assert (rq_id rq = rid) as Hid.
  { destruct HB as ((_ & _ & Hr3 & _) & _). by destruct (Hr3 _ _ Hp) as (_ & ? & _). }
  unfold start_analysis, register_tracker, cancel_previous, cancel_tracker.
  pose proof HA as (Hreg & _ & Hh & _).
  destruct s; world_cbv_answers.
  destruct (ACTIVE_ANALYSES0 !! rq_tabId rq) as [kp|] eqn:HT.
  - destruct (Hreg _ _ HT) as (a & Ha & _). rewrite Ha, (Hh _ _ Ha). world_cbv.
    assert (InvB_on (delete (rq_tabId rq) ACTIVE_ANALYSES0)
              (<[kp:=set_cancelled a]> activations0) pending_ignore0 responses0 next_rid0)
      as HB1 by (by eapply InvB_on_cancel).
    assert (InvC_on (<[kp:=set_cancelled a]> activations0) (timers0 ∖ {[kp]})
              pending_ignore0 responses0 next_rid0)
      as HC1 by (by eapply InvC_on_cancel).
    assert (List.length (<[kp:=set_cancelled a]> activations0)
            = List.length activations0) as Hlen by apply length_insert.
    destruct (analyzeContent _ _ _) as [r|c];
      unfold then_callback, update_stage; world_cbv;
      rewrite !(lookup_snoc_length _ activations0) by done;
      cbn [cancelled a_tracker timeout a_tabId]; world_cbv;
      rewrite ?(lookup_snoc_length _ activations0) by done; world_cbv;
      rewrite (insert_snoc_length _ activations0) by done.
    + eapply InvC_on_disarm;
        [eapply (InvC_on_allocate _ _ _ _ _ _ HB1 HC1 rid rq _ false); done|].
      intros k Hk. apply elem_of_difference in Hk as [Hk Hn].
      apply elem_of_union in Hk as [Hk|Hk]; [|done].
      rewrite ?Hlen in Hk, Hn. done.
    + eapply (InvC_on_allocate _ _ _ _ _ _ HB1 HC1 rid rq _ true); [done..|].
      intros _. by eexists.
  - assert (List.length activations0 = List.length activations0) as Hlen by done.
    destruct (analyzeContent _ _ _) as [r|c];
      unfold then_callback, update_stage; world_cbv;
      rewrite !(lookup_snoc_length _ activations0) by done;
      cbn [cancelled a_tracker timeout a_tabId]; world_cbv;
      rewrite ?(lookup_snoc_length _ activations0) by done; world_cbv;
      rewrite (insert_snoc_length _ activations0) by done.
    + eapply InvC_on_disarm;
        [eapply (InvC_on_allocate _ _ _ _ _ _ HB HC rid rq _ false); done|].
      intros k Hk. apply elem_of_difference in Hk as [Hk Hn].
      apply elem_of_union in Hk as [Hk|Hk]; done.
    + eapply (InvC_on_allocate _ _ _ _ _ _ HB HC rid rq _ true); [done..|].
      intros _. by eexists.
Qed.

Lemma on_ignore_checked_InvC hostname rid rq now s :
  InvA s → InvB s → InvC s → pending_ignore s !! rid = Some rq →
  InvC (on_ignore_checked hostname rq now
          (set_pending_ignore (delete rid (pending_ignore s)) s)).
Proof.
  intros HA HB HC Hp.
  assert (rq_id rq = rid) as Hid.
  { destruct HB as ((_ & _ & Hr3 & _) & _). by destruct (Hr3 _ _ Hp) as (_ & ? & _). }
  unfold on_ignore_checked.
  destruct (shouldIgnoreUrl _ _ _).
  { destruct s; world_cbv_answers. rewrite Hid. by eapply InvC_on_answer_pending. }
  destruct (DETECTION_CACHE _ !! _).
  { destruct s; world_cbv_answers. rewrite Hid. by eapply InvC_on_answer_pending. }
  by apply start_analysis_InvC.
Qed.

Lemma step_InvC hostname ev s s' :
  InvA s → InvB s → InvC s → step hostname ev s = Some s' → InvC s'.
Proof.
  intros HA HB HC Hstep. destruct ev; simpl in Hstep.
  - injection Hstep as <-. by apply onMessage_InvC.
  - destruct (pending_ignore s !! rid) as [rq|] eqn:Hp; [|done]. injection Hstep as <-.
    by apply on_ignore_checked_InvC.
  - destruct (activations s !! k) as [a|] eqn:Ha; [|done]. simpl in Hstep.
    destruct (a_stage a) eqn:Hst; try done. injection Hstep as <-.
    by eapply then_callback_InvC.
  - destruct (activations s !! k) as [a|] eqn:Ha; [|done]. simpl in Hstep.
    destruct (a_stage a) eqn:Hst; try done. injection Hstep as <-.
    by eapply tabs_get_callback_InvC.
  - case_bool_decide; [|done]. injection Hstep as <-. by apply watchdog_InvC.
  - injection Hstep as <-. apply (cancel_and_delete_InvC tabId) in HC; [|done].
    revert HC. unfold onRemoved.
    apply InvC_same; destruct (cancel_and_delete tabId s); reflexivity.
  - injection Hstep as <-. unfold onUpdated. case_bool_decide; [|done].
    destruct (is_system_url tabUrl).
    + revert HC. apply InvC_same; destruct s; reflexivity.
    + apply (cancel_and_delete_InvC tabId) in HC; [|done]. revert HC.
      apply InvC_same; destruct (cancel_and_delete tabId s); reflexivity.
  - injection Hstep as <-. revert HC. apply InvC_same; destruct s; reflexivity.
  - destruct (inits s !! i) as [[]|]; try done. injection Hstep as <-.
    revert HC. unfold initializeAI_loaded.
    destruct (bool_decide (stored_activeMode s = Some "compatibility"));
      apply InvC_same; destruct s; reflexivity.
  - destruct (inits s !! i) as [[]|]; try done. injection Hstep as <-.
    revert HC. unfold initializeAI_done.
    apply InvC_same; destruct s, o as [[?|]|]; reflexivity.
  - injection Hstep as <-. revert HC. apply InvC_same; destruct s; reflexivity.
  - injection Hstep as <-. revert HC. unfold cleanup.
    apply InvC_same; destruct s; simpl; case_bool_decide; reflexivity.
  - injection Hstep as <-. revert HC. apply InvC_same; destruct s; reflexivity.
Qed.

Lemma initial_InvC : InvC initial_world.
Proof.
  split_and!.
  - intros k Hk. simpl in Hk. by apply not_elem_of_empty in Hk.
  - intros rid Hlt. simpl in Hlt. lia.
  - intros k a Ha. done.
Qed.

Lemma run_InvC hostname evs s s' :
  InvA s → InvB s → InvC s → run hostname evs s = Some s' → InvC s'.
Proof.
  revert s. induction evs as [|ev evs IH]; intros s HA HB HC Hrun; simpl in Hrun.
  - by injection Hrun as <-.
  - destruct (step hostname ev s) as [s1|] eqn:Hstep; [|done]. simpl in Hrun.
    eapply IH; [| | |done];
      [by eapply step_InvA|by eapply step_InvB|by eapply step_InvC].
Qed.

Lemma reachable_InvC hostname s : reachable hostname s → InvC s.
Proof.
  intros [evs Hrun].
  eapply run_InvC; [apply initial_InvA|apply initial_InvB|apply initial_InvC|done].
Qed.

(** ** Request bookkeeping *)

Lemma fmap_insert_rid (acts : list Activation) k a a' :
  acts !! k = Some a → a_rid a' = a_rid a →
  a_rid <$> <[k := a']> acts = a_rid <$> acts.
Proof.
  intros Ha E. rewrite list_fmap_insert. apply list_insert_id.
  by rewrite list_lookup_fmap, Ha, E.
Qed.

Lemma quiet_step_same s s' :
  activations s' = activations s → timers s' = timers s →
  pending_ignore s' = pending_ignore s → next_rid s' = next_rid s →
  quiet_step s s'.
Proof. unfold quiet_step. intros -> -> -> ->. done. Qed.

Lemma quiet_step_trans s1 s2 s3 : quiet_step s1 s2 → quiet_step s2 s3 → quiet_step s1 s3.
Proof.
  intros (E1 & E2 & E3 & E4) (F1 & F2 & F3 & F4).
  split_and!; [congruence..|]. intros k Hk. by apply E4, F4.
Qed.

Lemma update_stage_quiet k st s : quiet_step s (update_stage k st s).
Proof.
  unfold update_stage. destruct (activations s !! k) as [a|] eqn:Ha.
  - destruct s; unfold quiet_step; world_cbv. split_and!; [|done..].
    by eapply fmap_insert_rid.
  - by apply quiet_step_same.
Qed.

Lemma cancel_tracker_quiet k s : quiet_step s (cancel_tracker k s).
Proof.
  unfold cancel_tracker. destruct (activations s !! k) as [a|] eqn:Ha.
  - destruct s, (timeout (a_tracker a)); unfold quiet_step; world_cbv;
      (split_and!; [by eapply fmap_insert_rid|done..|]); [|done].
    intros k' Hk'. by apply elem_of_difference in Hk' as [? _].
  - by apply quiet_step_same.
Qed.

Lemma cancel_and_delete_quiet T s : quiet_step s (cancel_and_delete T s).
Proof.
  unfold cancel_and_delete. destruct (ACTIVE_ANALYSES s !! T) as [k|].
  - eapply quiet_step_trans; [apply (cancel_tracker_quiet k)|].
    apply quiet_step_same; by destruct (cancel_tracker k s).
  - by apply quiet_step_same.
Qed.

Lemma then_callback_quiet k result s : quiet_step s (then_callback k result s).
Proof.
  unfold then_callback. destruct (activations s !! k) as [a|] eqn:Ha.
  - destruct (cancelled (a_tracker a)); [apply update_stage_quiet|].
    eapply quiet_step_trans; [|apply update_stage_quiet].
    destruct s, (timeout (a_tracker a)); unfold quiet_step; world_cbv;
      (split_and!; [done..|]); [|done].
    intros k' Hk'. by apply elem_of_difference in Hk' as [? _].
  - by apply quiet_step_same.
Qed.

Lemma tabs_get_callback_quiet k result tab now s :
  quiet_step s (tabs_get_callback k result tab now s).
Proof.
  unfold tabs_get_callback. destruct (activations s !! k) as [a|] eqn:Ha.
  - destruct tab as [tabUrl|]; [|apply update_stage_quiet].
    destruct (bool_decide (tabUrl ≠ a_url a)); [apply update_stage_quiet|].
    eapply quiet_step_trans; [apply (update_stage_quiet k Finished)|].
    apply quiet_step_same; by destruct (update_stage k Finished s).
  - by apply quiet_step_same.
Qed.

Lemma watchdog_quiet k s :
  quiet_step s (watchdog_callback k (set_timers (timers s ∖ {[k]}) s)).
Proof.
  unfold watchdog_callback.
  assert (quiet_step s (set_timers (timers s ∖ {[k]}) s)) as Hq.
  { destruct s; unfold quiet_step; world_cbv. split_and!; [done..|].
    intros k' Hk'. by apply elem_of_difference in Hk' as [? _]. }
  eapply quiet_step_trans; [exact Hq|].
  destruct (activations _ !! k) as [a|]; [|by apply quiet_step_same].
  destruct (cancelled (a_tracker a)); apply quiet_step_same; by destruct s.
Qed.

Lemma quiet_bookkeeping s s' : quiet_step s s' → bookkeeping s s'.
Proof.
  intros (E1 & E2 & E3 & E4). split_and!.
  - exists []. rewrite app_nil_r. split; [done|]. intros r Hr. by apply elem_of_nil in Hr.
  - intros r Hr _. by rewrite E2.
  - by rewrite E3.
  - intros k Hk. left. by apply E4.
Qed.

Lemma register_tracker_book rq url cacheKey now s :
  a_rid <$> activations (register_tracker rq url cacheKey now s)
  = ((a_rid <$> activations s) ++ [rq_id rq])%list
  ∧ pending_ignore (register_tracker rq url cacheKey now s) = pending_ignore s
  ∧ next_rid (register_tracker rq url cacheKey now s) = next_rid s
  ∧ ∀ k, k ∈ timers (register_tracker rq url cacheKey now s) →
         k ∈ timers s ∨ k = List.length (activations s).
Proof.
  unfold register_tracker.
  assert (quiet_step s (cancel_previous (rq_tabId rq) s)) as (E1 & E2 & E3 & E4).
  { unfold cancel_previous. destruct (ACTIVE_ANALYSES s !! rq_tabId rq);
      [apply cancel_tracker_quiet|by apply quiet_step_same]. }
  assert (List.length (activations (cancel_previous (rq_tabId rq) s))
          = List.length (activations s)) as Hlen.
  { by rewrite <- (length_fmap a_rid), E1, length_fmap. }
  destruct (cancel_previous (rq_tabId rq) s); world_cbv.
  rewrite fmap_app, E1. split_and!; [done..|].
  intros k Hk. apply elem_of_union in Hk as [Hk|Hk].
  - right. apply elem_of_singleton in Hk. congruence.
  - left. by apply E4.
Qed.

Lemma start_analysis_book rq url cacheKey now s :
  a_rid <$> activations (start_analysis rq url cacheKey now s)
  = ((a_rid <$> activations s) ++ [rq_id rq])%list
  ∧ pending_ignore (start_analysis rq url cacheKey now s) = pending_ignore s
  ∧ next_rid (start_analysis rq url cacheKey now s) = next_rid s
  ∧ ∀ k, k ∈ timers (start_analysis rq url cacheKey now s) →
         k ∈ timers s ∨ k = List.length (activations s).
Proof.
  unfold start_analysis.
  destruct (register_tracker_book rq url cacheKey now s) as (E1 & E2 & E3 & E4).
  set (s1 := register_tracker rq url cacheKey now s) in *.
  set (n := List.length (activations s)) in *.
  assert (∀ s2, quiet_step s1 s2 →
            a_rid <$> activations s2 = ((a_rid <$> activations s) ++ [rq_id rq])%list
            ∧ pending_ignore s2 = pending_ignore s
            ∧ next_rid s2 = next_rid s
            ∧ ∀ k, k ∈ timers s2 → k ∈ timers s ∨ k = n) as Hq.
  { intros s2 (F1 & F2 & F3 & F4). split_and!; [congruence..|].
    intros k Hk. by apply E4, F4. }
  destruct (analyzeContent _ _ _); apply Hq;
    [apply then_callback_quiet|apply update_stage_quiet].
Qed.

Lemma step_bookkeeping hostname ev s s' :
  step hostname ev s = Some s' → bookkeeping s s'.
Proof.
  intros Hstep. destruct ev; simpl in Hstep.
  - injection Hstep as <-. unfold onMessage_analyzeContent.
    destruct skipped; destruct s; unfold bookkeeping; world_cbv.
    + split_and!; [|done|lia|by left].
      exists []. rewrite app_nil_r. split; [done|].
      intros r Hr. by apply elem_of_nil in Hr.
    + split_and!; [| |lia|by left].
      * exists []. rewrite app_nil_r. split; [done|].
        intros r Hr. by apply elem_of_nil in Hr.
      * intros r Hr Hne. by rewrite lookup_insert_ne.
  - destruct (pending_ignore s !! rid) as [rq|] eqn:Hp; [|done]. injection Hstep as <-.
    set (s0 := set_pending_ignore (delete rid (pending_ignore s)) s).
    assert (activations s0 = activations s ∧ timers s0 = timers s
            ∧ next_rid s0 = next_rid s
            ∧ pending_ignore s0 = delete rid (pending_ignore s)) as (A1 & A2 & A3 & A4)
      by (by destruct s).
    unfold on_ignore_checked.
    assert (∀ s1, activations s1 = activations s0 → timers s1 = timers s0 →
              pending_ignore s1 = pending_ignore s0 → next_rid s1 = next_rid s0 →
              bookkeeping s s1) as Hsame.
    { intros s1 B1 B2 B3 B4. rewrite A1 in B1. rewrite A2 in B2.
      rewrite A3 in B4. rewrite A4 in B3. unfold bookkeeping.
      rewrite B1, B2, B3, B4. split_and!; [|..|done|by left].
      - exists []. rewrite app_nil_r. split; [done|].
        intros r Hr. by apply elem_of_nil in Hr.
      - intros r Hr _. by apply lookup_delete_None; right. }
    destruct (shouldIgnoreUrl _ _ _); [apply Hsame; by destruct s0|].
    destruct (DETECTION_CACHE _ !! _); [apply Hsame; by destruct s0|].
    match goal with |- bookkeeping _ (start_analysis ?r ?u ?c ?t ?w) =>
      destruct (start_analysis_book r u c t w) as (B1 & B2 & B3 & B4)
    end.
    unfold bookkeeping. rewrite B1, B2, B3, A1, A3, A4. split_and!; [| |done|].
    + exists [rq_id rq]. split; [done|]. intros r Hr.
      apply list_elem_of_singleton in Hr as ->. by exists rid, rq.
    + intros r Hr _. by apply lookup_delete_None; right.
    + intros k Hk. apply B4 in Hk. by rewrite A1, A2 in Hk.
  - destruct (activations s !! k) as [a|]; [|done]. simpl in Hstep.
    destruct (a_stage a); try done. injection Hstep as <-.
    apply quiet_bookkeeping, then_callback_quiet.
  - destruct (activations s !! k) as [a|]; [|done]. simpl in Hstep.
    destruct (a_stage a); try done. injection Hstep as <-.
    apply quiet_bookkeeping, tabs_get_callback_quiet.
  - case_bool_decide; [|done]. injection Hstep as <-.
    apply quiet_bookkeeping, watchdog_quiet.
  - injection Hstep as <-. apply quiet_bookkeeping. unfold onRemoved.
    eapply quiet_step_trans; [apply (cancel_and_delete_quiet tabId)|].
    apply quiet_step_same; by destruct (cancel_and_delete tabId s).
  - injection Hstep as <-. apply quiet_bookkeeping. unfold onUpdated.
    case_bool_decide; [|by apply quiet_step_same].
    destruct (is_system_url tabUrl).
    + apply quiet_step_same; by destruct s.
    + eapply quiet_step_trans; [apply (cancel_and_delete_quiet tabId)|].
      apply quiet_step_same; by destruct (cancel_and_delete tabId s).
  - injection Hstep as <-. apply quiet_bookkeeping, quiet_step_same; by destruct s.
  - destruct (inits s !! i) as [[]|]; try done. injection Hstep as <-.
    apply quiet_bookkeeping. unfold initializeAI_loaded.
    destruct (bool_decide (stored_activeMode s = Some "compatibility"));
      apply quiet_step_same; by destruct s.
  - destruct (inits s !! i) as [[]|]; try done. injection Hstep as <-.
    apply quiet_bookkeeping. unfold initializeAI_done.
    apply quiet_step_same; by destruct s, o as [[?|]|].
  - injection Hstep as <-. apply quiet_bookkeeping, quiet_step_same; by destruct s.
  - injection Hstep as <-. apply quiet_bookkeeping. unfold cleanup.
    apply quiet_step_same; destruct s; simpl; by case_bool_decide.
  - injection Hstep as <-. apply quiet_bookkeeping, quiet_step_same; by destruct s.
Qed.

Lemma length_responses_of rid s :
  List.length (responses_of rid s)
  = List.length (filter (λ p, p.1 = rid) (responses s)).
Proof. unfold responses_of. by rewrite length_fmap. Qed.

Lemma not_rid_lookup (acts : list Activation) rid :
  rid ∉ (a_rid <$> acts) → ∀ k a, acts !! k = Some a → a_rid a ≠ rid.
Proof.
  intros Hn k a Ha E. apply Hn. apply list_elem_of_fmap. exists a.
  split; [done|]. by eapply list_elem_of_lookup_2.
Qed.

Lemma bookkeeping_answered_directly s s' rid :
  InvB s → bookkeeping s s' → answered_directly rid s → answered_directly rid s'.
Proof.
  intros ((_ & _ & Hr3 & _) & _) ((new & E & Hnew) & Hpend & Hle & _) (Hlt & Hp & Hn).
  split_and!.
  - lia.
  - apply Hpend; [done|lia].
  - rewrite E. intros Hin. apply elem_of_app in Hin as [Hin|Hin]; [done|].
    destruct (Hnew _ Hin) as (rid0 & rq & Hp0 & ->).
    destruct (Hr3 _ _ Hp0) as (_ & Hid & _). congruence.
Qed.

Lemma run_answered_directly hostname evs s s' rid :
  InvA s → InvB s → answered_directly rid s → run hostname evs s = Some s' →
  answered_directly rid s'.
Proof.
  revert s. induction evs as [|ev evs IH]; intros s HA HB Hd Hrun; simpl in Hrun.
  - by injection Hrun as <-.
  - destruct (step hostname ev s) as [s1|] eqn:Hstep; [|done]. simpl in Hrun.
    eapply (IH s1); [by eapply step_InvA|by eapply step_InvB| |done].
    eapply bookkeeping_answered_directly; [done| |done]. by eapply step_bookkeeping.
Qed.

Lemma answered_directly_count s rid :
  InvC s → answered_directly rid s → List.length (responses_of rid s) = 1.
Proof.
  intros (_ & Hc2 & _) (Hlt & Hp & Hn). rewrite length_responses_of.
  apply Hc2; [done..|]. by apply not_rid_lookup.
Qed.

Lemma bookkeeping_length s s' :
  bookkeeping s s' → (List.length (activations s) ≤ List.length (activations s'))%nat.
Proof.
  intros ((new & E & _) & _).
  rewrite <- (length_fmap a_rid (activations s')), E, length_app, length_fmap. lia.
Qed.

Lemma run_disarmed hostname evs s s' k :
  (k < List.length (activations s))%nat → k ∉ timers s →
  run hostname evs s = Some s' → k ∉ timers s'.
Proof.
  revert s. induction evs as [|ev evs IH]; intros s Hlt Hk Hrun; simpl in Hrun.
  - by injection Hrun as <-.
  - destruct (step hostname ev s) as [s1|] eqn:Hstep; [|done]. simpl in Hrun.
    pose proof (step_bookkeeping _ _ _ _ Hstep) as Hb.
    pose proof (bookkeeping_length _ _ Hb) as Hlen.
    destruct Hb as (_ & _ & _ & Htm).
    eapply (IH s1); [lia| |done].
    intros Hk1. destruct (Htm _ Hk1) as [Hin | ->]; [done|lia].
Qed.

(** X22. In every reachable world an armed watchdog belongs to an analysis
    whose detector call is still pending, whose tracker is not cancelled and
    whose request has received nothing.  So when the watchdog fires, the
    timeout result is the first result of its request. *)
Theorem armed_watchdog_fires_first (hostname : string → option string)
    (s : World) (k : nat) :
  reachable hostname s → k ∈ timers s →
  ∃ a c s',
    activations s !! k = Some a
    ∧ a_stage a = AwaitingBackend c
    ∧ cancelled (a_tracker a) = false
    ∧ responses_of (a_rid a) s = []
    ∧ step hostname (WatchdogFired k) s = Some s'
    ∧ responses_of (a_rid a) s' = [timeout_result s (a_content a)].
Proof.
  intros Hreach Hk.
  destruct (reachable_Inv _ _ Hreach) as [HA HB].
  pose proof (reachable_InvC _ _ Hreach) as (Hc1 & _).
  destruct (Hc1 _ Hk) as (a & c & Ha & Hst & Hsil).
  pose proof HA as (_ & Htm & _). destruct (Htm _ Hk) as (a' & Ha' & Hcan).
  assert (a' = a) as -> by congruence.
  pose proof (silent_responses_of _ _ Hsil) as Hnone.
  exists a, c, (watchdog_callback k (set_timers (timers s ∖ {[k]}) s)).
  split_and!; [done..| |].
  - simpl. by rewrite bool_decide_eq_true_2.
  - unfold responses_of in *.
    destruct (watchdog_callback_fires k (set_timers (timers s ∖ {[k]}) s) a)
      as (_ & -> & _); [by destruct s..|].
    rewrite filter_app, fmap_app.
    replace (responses (set_timers (timers s ∖ {[k]}) s)) with (responses s)
      by (by destruct s).
    rewrite Hnone, filter_cons, filter_nil. simpl.
    rewrite decide_True by done. by destruct s.
Qed.

Lemma armed_watchdog_fires_first_witness :
  ∃ a c s',
    activations (world_after one_request) !! 0 = Some a
    ∧ a_stage a = AwaitingBackend c
    ∧ cancelled (a_tracker a) = false
    ∧ responses_of (a_rid a) (world_after one_request) = []
    ∧ step example_hostname (WatchdogFired 0) (world_after one_request) = Some s'
    ∧ responses_of (a_rid a) s'
      = [timeout_result (world_after one_request) (a_content a)].
Proof.
  apply (armed_watchdog_fires_first example_hostname (world_after one_request) 0).
  - apply (world_after_reachable one_request). vm_compute. reflexivity.
  - vm_compute. reflexivity.
Defined.

(** X23. Once the detector call of an analysis has settled, cancelled or
    not, its watchdog is disarmed for good: whatever happens afterwards the
    watchdog of that analysis cannot fire. *)
Theorem settled_analysis_never_times_out (hostname : string → option string)
    (s s1 s' : World) (k : nat) (o : BackendOutcome) (evs : list Event) :
  reachable hostname s →
  step hostname (BackendSettled k o) s = Some s1 →
  run hostname evs s1 = Some s' →
  (k ∉ timers s') ∧ step hostname (WatchdogFired k) s' = None.
Proof.
  intros Hreach Hstep Hrun.
  destruct (reachable_Inv _ _ Hreach) as [HA HB].
  assert (k ∉ timers s') as Hk.
  { eapply (run_disarmed hostname evs s1); [| |done].
    - pose proof (bookkeeping_length _ _ (step_bookkeeping _ _ _ _ Hstep)) as Hlen.
      simpl in Hstep. destruct (activations s !! k) as [a|] eqn:Ha; [|done].
      apply lookup_lt_Some in Ha. lia.
    - simpl in Hstep. destruct (activations s !! k) as [a|] eqn:Ha; [|done].
      simpl in Hstep. destruct (a_stage a); try done. injection Hstep as <-.
      pose proof HA as (_ & Htm & Hh & _).
      destruct (cancelled (a_tracker a)) eqn:Hcan.
      + intros Hin.
        destruct (then_callback_quiet k (analyzeContent_resume (a_content a) o s) s)
          as (_ & _ & _ & Hsub).
        apply Hsub in Hin. destruct (Htm _ Hin) as (a' & Ha' & Hc'). congruence.
      + destruct (then_callback_live k (analyzeContent_resume (a_content a) o s) s a)
          as (_ & _ & _ & _ & _ & ->); [done..|].
        rewrite (Hh _ _ Ha). destruct s; world_cbv. apply not_elem_of_removed. }
  split; [done|]. simpl. by rewrite bool_decide_eq_false_2.
Qed.

Lemma settled_analysis_never_times_out_witness :
  (0 ∉ timers (world_after committed))
  ∧ step example_hostname (WatchdogFired 0) (world_after committed) = None.
Proof.
  destruct (step example_hostname (BackendSettled 0 (Fulfilled safe_result))
              (world_after one_request)) as [s1|] eqn:E;
    [|vm_compute in E; discriminate].
  apply (settled_analysis_never_times_out example_hostname (world_after one_request) s1
           (world_after committed) 0 (Fulfilled safe_result)
           [TabsGet 0 (Some "http://a.test") 20]).
  - apply (world_after_reachable one_request). vm_compute. reflexivity.
  - exact E.
  - vm_compute in E. injection E as <-. vm_compute. reflexivity.
Defined.



(** X25. A request answered by the skip path, by the ignore path or from
    the cache is answered exactly once, for good: it starts no analysis, and
    in every later world it has exactly one result. *)
Theorem short_circuit_answer_is_final (hostname : string → option string)
    (s s1 s' : World) (ev : Event) (rid : nat) (evs : list Event) :
  reachable hostname s →
  short_circuits hostname ev rid s →
  step hostname ev s = Some s1 →
  run hostname evs s1 = Some s' →
  answered_directly rid s'
  ∧ List.length (responses_of rid s') = 1.
Proof.
  intros Hreach Hsc Hstep Hrun.
  destruct (reachable_Inv _ _ Hreach) as [HA HB].
  assert (reachable hostname s1) as Hreach1.
  { apply (reachable_run hostname [ev] s); [done|]. simpl. by rewrite Hstep. }
  destruct (reachable_Inv _ _ Hreach1) as [HA1 HB1].
  assert (answered_directly rid s1) as Hd.
  { pose proof HB as ((Hr1 & _ & Hr3 & _) & _).
    destruct ev; try done; simpl in Hsc, Hstep.
    - destruct Hsc as [-> ->]. injection Hstep as <-.
      unfold onMessage_analyzeContent, answered_directly.
      destruct s; world_cbv. split_and!; [lia| |].
      + destruct (pending_ignore0 !! next_rid0) as [rq|] eqn:Hp; [|done].
        destruct (Hr3 _ _ Hp). lia.
      + intros Hin. apply list_elem_of_fmap in Hin as (a & E & Hin).
        apply list_elem_of_lookup_1 in Hin as [k Ha]. destruct (Hr1 _ _ Ha). lia.
    - destruct Hsc as (-> & rq & Hp & Hsc). rewrite Hp in Hstep. simpl in Hstep.
      injection Hstep as <-. destruct (Hr3 _ _ Hp) as (Hlt & _ & _).
      assert (rid ∉ a_rid <$> activations s) as Hn.
      { intros Hin. apply list_elem_of_fmap in Hin as (a & E & Hin).
        apply list_elem_of_lookup_1 in Hin as [k Ha]. destruct (Hr1 _ _ Ha).
        congruence. }
      unfold on_ignore_checked, answered_directly.
      destruct (shouldIgnoreUrl hostname (request_url (rq_tabUrl rq))
                  (stored_ignoreRules
                     (set_pending_ignore (delete rid (pending_ignore s)) s))) eqn:Hig.
      + destruct s; world_cbv. split_and!; [done| |done]. by apply lookup_delete_eq.
      + destruct Hsc as [Hsc|[cached Hc]].
        { replace (stored_ignoreRules
                     (set_pending_ignore (delete rid (pending_ignore s)) s))
            with (stored_ignoreRules s) in Hig by (by destruct s). congruence. }
        replace (getCacheKey (request_url (rq_tabUrl rq)) (rq_content rq) (rq_tabId rq)
                   (set_pending_ignore (delete rid (pending_ignore s)) s))
          with (getCacheKey (request_url (rq_tabUrl rq)) (rq_content rq) (rq_tabId rq) s)
          by (by destruct s).
        replace (DETECTION_CACHE (set_pending_ignore (delete rid (pending_ignore s)) s))
          with (DETECTION_CACHE s) by (by destruct s).
        rewrite Hc. destruct s; world_cbv. split_and!; [done| |done].
        by apply lookup_delete_eq. }
  assert (answered_directly rid s') as Hd'
    by (by eapply (run_answered_directly hostname evs s1)).
  split; [done|]. apply answered_directly_count; [|done].
  apply (reachable_InvC hostname). by eapply reachable_run.
Qed.

Lemma short_circuit_answer_is_final_witness :
  ∃ s', run example_hostname
          (committed ++ [MsgAnalyzeContent 1 "http://a.test" "X" false 25;
                         IgnoreChecked 1 30; CleanupTick 40; TabRemoved 1])%list
          initial_world = Some s'
        ∧ answered_directly 1 s'
        ∧ List.length (responses_of 1 s') = 1.
Proof.
  destruct (run example_hostname
              (committed ++ [MsgAnalyzeContent 1 "http://a.test" "X" false 25])%list
              initial_world) as [s|] eqn:E; [|vm_compute in E; discriminate].
  destruct (step example_hostname (IgnoreChecked 1 30) s) as [s1|] eqn:E1;
    [|vm_compute in E; injection E as <-; vm_compute in E1; discriminate].
  destruct (run example_hostname [CleanupTick 40; TabRemoved 1] s1) as [s'|] eqn:E2;
    [|vm_compute in E; injection E as <-; vm_compute in E1; injection E1 as <-;
      vm_compute in E2; discriminate].
  exists s'. split.
  - vm_compute in E. injection E as <-. vm_compute in E1. injection E1 as <-.
    vm_compute in E2. injection E2 as <-. vm_compute. reflexivity.
  - apply (short_circuit_answer_is_final example_hostname s s1 s' (IgnoreChecked 1 30)
             1 [CleanupTick 40; TabRemoved 1]).
    + by apply world_after_reachable in E.
    + split; [done|]. exists example_request.
      vm_compute in E. injection E as <-. split; [vm_compute; reflexivity|].
      right. vm_compute. eexists. reflexivity.
    + exact E1.
    + exact E2.
Defined.

(** ** Provenance of the results *)

Section ResultsInvariant.
Variable P : AnalysisResult → Prop.
Variables (cache : gmap string AnalysisResult) (acts : list Activation).
Variable resp : list (nat * AnalysisResult).
Hypothesis HD : results_satisfy P cache acts resp.

Lemma results_satisfy_send rid r :
  P r → results_satisfy P cache acts (resp ++ [(rid, r)])%list.
Proof.
  destruct HD as (H1 & H2 & H3). intros Hr. split_and!; [done..|].
  intros rid' r' Hin. apply elem_of_app in Hin as [Hin|Hin]; [eauto|].
  apply list_elem_of_singleton in Hin. by injection Hin as -> ->.
Qed.

Lemma results_satisfy_cache_insert key r :
  P r → results_satisfy P (<[key := r]> cache) acts resp.
Proof.
  destruct HD as (H1 & H2 & H3). intros Hr. split_and!; [|done..].
  intros key' r' Hl. apply lookup_insert_Some in Hl as [[_ <-]|[_ Hl]]; eauto.
Qed.

Lemma results_satisfy_cache_sub (cache' : gmap string AnalysisResult) :
  (∀ key r, cache' !! key = Some r → cache !! key = Some r) →
  results_satisfy P cache' acts resp.
Proof. destruct HD as (H1 & H2 & H3). intros Hsub. split_and!; eauto. Qed.

Lemma results_satisfy_stage k a st :
  acts !! k = Some a → (∀ r, st = AwaitingTab r → P r) →
  results_satisfy P cache (<[k := set_stage st a]> acts) resp.
Proof.
  destruct HD as (H1 & H2 & H3). intros Ha Hst. split_and!; [done| |done].
  intros k' a' r Ha' Hst'.
  apply list_lookup_insert_Some in Ha' as [(-> & <- & _)|[_ Ha']]; eauto.
Qed.

Lemma results_satisfy_cancel k a :
  acts !! k = Some a → results_satisfy P cache (<[k := set_cancelled a]> acts) resp.
Proof.
  destruct HD as (H1 & H2 & H3). intros Ha. split_and!; [done| |done].
  intros k' a' r Ha' Hst'.
  apply list_lookup_insert_Some in Ha' as [(-> & <- & _)|[_ Ha']]; eauto.
Qed.

Lemma results_satisfy_allocate new :
  (∀ r, a_stage new = AwaitingTab r → P r) →
  results_satisfy P cache (acts ++ [new])%list resp.
Proof.
  destruct HD as (H1 & H2 & H3). intros Hnew. split_and!; [done| |done].
  intros k a r Ha Hst. apply lookup_app_Some in Ha as [Ha|[_ Ha]]; [eauto|].
  apply list_lookup_singleton_Some in Ha as [_ <-]. eauto.
Qed.
End ResultsInvariant.

Ltac world_cbv_results := unfold InvD in *; world_cbv.

Section Provenance.
Variable P : AnalysisResult → Prop.
Hypothesis HP : ∀ r, built_by_coordinator r → P r.

Lemma InvD_same s s' :
  DETECTION_CACHE s' = DETECTION_CACHE s → activations s' = activations s →
  responses s' = responses s → InvD P s → InvD P s'.
Proof. unfold InvD. intros -> -> ->. done. Qed.

Lemma update_stage_InvD k st s :
  (∀ r, st = AwaitingTab r → P r) → InvD P s → InvD P (update_stage k st s).
Proof.
  intros Hst HD. unfold update_stage.
  destruct (activations s !! k) as [a|] eqn:Ha; [|done].
  destruct s; world_cbv_results. by eapply results_satisfy_stage.
Qed.

Lemma cancel_tracker_InvD k s : InvD P s → InvD P (cancel_tracker k s).
Proof.
  intros HD. unfold cancel_tracker.
  destruct (activations s !! k) as [a|] eqn:Ha; [|done].
  destruct s, (timeout (a_tracker a)); world_cbv_results;
    by eapply results_satisfy_cancel.
Qed.

Lemma cancel_and_delete_InvD T s : InvD P s → InvD P (cancel_and_delete T s).
Proof.
  intros HD. unfold cancel_and_delete.
  destruct (ACTIVE_ANALYSES s !! T) as [k|]; [|done].
  apply (cancel_tracker_InvD k) in HD. revert HD.
  apply InvD_same; by destruct (cancel_tracker k s).
Qed.

Lemma then_callback_InvD k result s :
  P result → InvD P s → InvD P (then_callback k result s).
Proof.
  intros Hr HD. unfold then_callback.
  destruct (activations s !! k) as [a|] eqn:Ha; [|done].
  destruct (cancelled (a_tracker a)).
  - by apply update_stage_InvD.
  - apply update_stage_InvD; [by intros r [= <-]|].
    revert HD. apply InvD_same; by destruct s, (timeout (a_tracker a)).
Qed.

Lemma tabs_get_callback_InvD k result tab now s a :
  activations s !! k = Some a → a_stage a = AwaitingTab result →
  InvD P s → InvD P (tabs_get_callback k result tab now s).
Proof.
  intros Ha Hst HD. assert (P result) as Hr by (destruct HD as (_ & H2 & _); eauto).
  unfold tabs_get_callback. rewrite Ha.
  assert (InvD P (update_stage k Finished s)) as HD1 by (by apply update_stage_InvD).
  destruct tab as [tabUrl|]; [|done].
  destruct (bool_decide (tabUrl ≠ a_url a)); [done|].
  revert HD1. destruct (update_stage k Finished s). world_cbv_results. intros HD1.
  apply results_satisfy_send; [|done]. by apply results_satisfy_cache_insert.
Qed.

Lemma watchdog_callback_InvD k s : InvD P s → InvD P (watchdog_callback k s).
Proof.
  intros HD. unfold watchdog_callback.
  destruct (activations s !! k) as [a|]; [|done].
  destruct (cancelled (a_tracker a)); [done|].
  destruct s; world_cbv_results. apply results_satisfy_send; [done|].
  apply HP. eexists _, _, "". right. right. left. reflexivity.
Qed.

Lemma analyzeContent_built content url s r :
  analyzeContent content url s = Resolved r → built_by_coordinator r.
Proof.
  unfold analyzeContent. intros H. exists s, content, null_sessions_message.
  destruct (negb (isAiAvailable s) && _).
  { injection H as <-. do 3 right. by left. }
  destruct (bool_decide (activeMode s = "cloud") && _).
  { injection H as <-. do 4 right. by left. }
  destruct (bool_decide (activeMode s = "cloud")); [done|].
  destruct (currentSessions s); [done|]. injection H as <-. by do 5 right.
Qed.

Lemma register_tracker_InvD rq url cacheKey now s :
  InvD P s → InvD P (register_tracker rq url cacheKey now s).
Proof.
  intros HD. unfold register_tracker.
  assert (InvD P (cancel_previous (rq_tabId rq) s)) as HD1.
  { unfold cancel_previous. destruct (ACTIVE_ANALYSES s !! rq_tabId rq); [|done].
    by apply cancel_tracker_InvD. }
  revert HD1. destruct (cancel_previous (rq_tabId rq) s). world_cbv_results. intros HD1.
  by apply results_satisfy_allocate.
Qed.

Lemma start_analysis_InvD rq url cacheKey now s :
  InvD P s → InvD P (start_analysis rq url cacheKey now s).
Proof.
  intros HD. unfold start_analysis.
  pose proof (register_tracker_InvD rq url cacheKey now s HD) as HD1.
  destruct (analyzeContent _ _ _) as [r|c] eqn:E.
  - apply then_callback_InvD; [|done]. by eapply HP, analyzeContent_built.
  - by apply update_stage_InvD.
Qed.

Lemma on_ignore_checked_InvD hostname rq now s :
  InvD P s → InvD P (on_ignore_checked hostname rq now s).
Proof.
  intros HD. unfold on_ignore_checked.
  destruct (shouldIgnoreUrl _ _ _).
  { destruct s; world_cbv_results. apply results_satisfy_send; [done|].
    apply HP. eexists _, _, "". right. left. reflexivity. }
  destruct (DETECTION_CACHE _ !! _) as [cached|] eqn:Hc.
  { assert (P cached) as Hr by (destruct HD as (H1 & _); eauto).
    destruct s; world_cbv_results. by apply results_satisfy_send. }
  by apply start_analysis_InvD.
Qed.

Lemma onMessage_InvD tabId tabUrl content skipped now s :
  InvD P s → InvD P (onMessage_analyzeContent tabId tabUrl content skipped now s).
Proof.
  intros HD. unfold onMessage_analyzeContent. destruct skipped.
  - destruct s; world_cbv_results. apply results_satisfy_send; [done|].
    apply HP. eexists _, "", "". left. reflexivity.
  - by destruct s.
Qed.

Lemma step_InvD hostname ev s s' :
  (∀ k r, ev = BackendSettled k (Fulfilled r) → P r) →
  InvD P s → step hostname ev s = Some s' → InvD P s'.
Proof.
  intros Hev HD Hstep. destruct ev; simpl in Hstep.
  - injection Hstep as <-. by apply onMessage_InvD.
  - destruct (pending_ignore s !! rid) as [rq|] eqn:Hp; [|done]. injection Hstep as <-.
    apply on_ignore_checked_InvD. revert HD. apply InvD_same; by destruct s.
  - destruct (activations s !! k) as [a|] eqn:Ha; [|done]. simpl in Hstep.
    destruct (a_stage a) eqn:Hst; try done. injection Hstep as <-.
    apply then_callback_InvD; [|done]. destruct o as [r|m]; simpl.
    + by eapply Hev.
    + apply HP. eexists _, _, _. do 5 right. reflexivity.
  - destruct (activations s !! k) as [a|] eqn:Ha; [|done]. simpl in Hstep.
    destruct (a_stage a) eqn:Hst; try done. injection Hstep as <-.
    by eapply tabs_get_callback_InvD.
  - case_bool_decide; [|done]. injection Hstep as <-.
    apply watchdog_callback_InvD. revert HD. apply InvD_same; by destruct s.
  - injection Hstep as <-. apply (cancel_and_delete_InvD tabId) in HD.
    unfold onRemoved. revert HD. destruct (cancel_and_delete tabId s). world_cbv_results.
    intros HD. eapply results_satisfy_cache_sub; [done|].
    intros key r Hl. unfold delete_tab_keys in Hl.
    by apply map_lookup_filter_Some in Hl as [? _].
  - injection Hstep as <-. unfold onUpdated. case_bool_decide; [|done].
    destruct (is_system_url tabUrl).
    + revert HD. apply InvD_same; by destruct s.
    + apply (cancel_and_delete_InvD tabId) in HD. revert HD.
      apply InvD_same; by destruct (cancel_and_delete tabId s).
  - injection Hstep as <-. unfold switchMode. destruct s; world_cbv_results.
    eapply results_satisfy_cache_sub; [done|]. intros key r Hl.
    by rewrite lookup_empty in Hl.
  - destruct (inits s !! i) as [[]|]; try done. injection Hstep as <-.
    revert HD. unfold initializeAI_loaded.
    destruct (bool_decide (stored_activeMode s = Some "compatibility"));
      apply InvD_same; by destruct s.
  - destruct (inits s !! i) as [[]|]; try done. injection Hstep as <-.
    revert HD. unfold initializeAI_done.
    apply InvD_same; by destruct s, o as [[?|]|].
  - injection Hstep as <-. unfold clearTabCache. destruct s; world_cbv_results.
    eapply results_satisfy_cache_sub; [done|].
    intros key r Hl. unfold delete_tab_keys in Hl.
    by apply map_lookup_filter_Some in Hl as [? _].
  - injection Hstep as <-. unfold cleanup. case_bool_decide.
    + destruct s; world_cbv_results.
      eapply results_satisfy_cache_sub; [done|]. intros key r Hl.
      by rewrite lookup_empty in Hl.
    + revert HD. apply InvD_same; by destruct s.
  - injection Hstep as <-. revert HD. apply InvD_same; by destruct s.
Qed.

Lemma run_InvD hostname evs s s' :
  (∀ k r, BackendSettled k (Fulfilled r) ∈ evs → P r) →
  InvD P s → run hostname evs s = Some s' → InvD P s'.
Proof.
  revert s. induction evs as [|ev evs IH]; intros s Hev HD Hrun; simpl in Hrun.
  - by injection Hrun as <-.
  - destruct (step hostname ev s) as [s1|] eqn:Hstep; [|done]. simpl in Hrun.
    eapply (IH s1); [| |done].
    + intros k r Hin. apply (Hev k). by right.
    + eapply step_InvD; [|done..]. intros k r ->. apply (Hev k). by left.
Qed.
End Provenance.

(** ** A finished analysis sends nothing more *)

Lemma stage_kept_same k s s' : activations s' = activations s → stage_kept k s s'.
Proof. intros E a Ha. exists a. by rewrite E. Qed.

Lemma stage_kept_trans k s1 s2 s3 :
  stage_kept k s1 s2 → stage_kept k s2 s3 → stage_kept k s1 s3.
Proof.
  intros H1 H2 a Ha. destruct (H1 _ Ha) as (a1 & Ha1 & E1).
  destruct (H2 _ Ha1) as (a2 & Ha2 & E2). exists a2. split; [done|congruence].
Qed.

Lemma update_stage_stage_kept k k' st s : k' ≠ k → stage_kept k s (update_stage k' st s).
Proof.
  intros Hne. unfold update_stage.
  destruct (activations s !! k') as [a'|]; [|by apply stage_kept_same].
  intros a Ha. exists a. split; [|done]. destruct s; world_cbv.
  by rewrite list_lookup_insert_ne.
Qed.

Lemma cancel_tracker_stage_kept k k' s : stage_kept k s (cancel_tracker k' s).
Proof.
  unfold cancel_tracker.
  destruct (activations s !! k') as [a'|] eqn:Ha'; [|by apply stage_kept_same].
  intros a Ha. destruct (decide (k' = k)) as [->|Hne].
  - assert (a' = a) as -> by congruence. exists (set_cancelled a). split; [|done].
    destruct s, (timeout (a_tracker a)); world_cbv;
      apply list_lookup_insert_eq; by eapply lookup_lt_Some.
  - exists a. split; [|done].
    destruct s, (timeout (a_tracker a')); world_cbv; by rewrite list_lookup_insert_ne.
Qed.

Lemma cancel_and_delete_stage_kept k T s : stage_kept k s (cancel_and_delete T s).
Proof.
  unfold cancel_and_delete. destruct (ACTIVE_ANALYSES s !! T) as [k'|];
    [|by apply stage_kept_same].
  eapply stage_kept_trans; [apply (cancel_tracker_stage_kept k k')|].
  apply stage_kept_same. by destruct (cancel_tracker k' s).
Qed.

Lemma then_callback_stage_kept k k' result s :
  k' ≠ k → stage_kept k s (then_callback k' result s).
Proof.
  intros Hne. unfold then_callback.
  destruct (activations s !! k') as [a'|]; [|by apply stage_kept_same].
  destruct (cancelled (a_tracker a')); [by apply update_stage_stage_kept|].
  eapply stage_kept_trans; [|by apply update_stage_stage_kept].
  apply stage_kept_same. by destruct s, (timeout (a_tracker a')).
Qed.

Lemma tabs_get_callback_stage_kept k k' result tab now s :
  k' ≠ k → stage_kept k s (tabs_get_callback k' result tab now s).
Proof.
  intros Hne. unfold tabs_get_callback.
  destruct (activations s !! k') as [a'|]; [|by apply stage_kept_same].
  destruct tab as [tabUrl|]; [|by apply update_stage_stage_kept].
  destruct (bool_decide (tabUrl ≠ a_url a')); [by apply update_stage_stage_kept|].
  eapply stage_kept_trans; [by apply (update_stage_stage_kept k k' Finished)|].
  apply stage_kept_same. by destruct (update_stage k' Finished s).
Qed.

Lemma register_tracker_stage_kept k rq url cacheKey now s :
  stage_kept k s (register_tracker rq url cacheKey now s).
Proof.
  unfold register_tracker.
  assert (stage_kept k s (cancel_previous (rq_tabId rq) s)) as H1.
  { unfold cancel_previous. destruct (ACTIVE_ANALYSES s !! rq_tabId rq);
      [apply cancel_tracker_stage_kept|by apply stage_kept_same]. }
  eapply stage_kept_trans; [exact H1|].
  intros a Ha. exists a. split; [|done].
  revert Ha. destruct (cancel_previous (rq_tabId rq) s). world_cbv. intros Ha.
  by apply lookup_app_l_Some.
Qed.

Lemma start_analysis_stage_kept k rq url cacheKey now s :
  stage_kept k s (start_analysis rq url cacheKey now s).
Proof.
  intros a Ha. assert (List.length (activations s) ≠ k) as Hne.
  { apply lookup_lt_Some in Ha. lia. }
  revert a Ha. fold (stage_kept k s (start_analysis rq url cacheKey now s)).
  unfold start_analysis.
  eapply stage_kept_trans; [apply (register_tracker_stage_kept k rq url cacheKey now)|].
  destruct (analyzeContent _ _ _);
    [by apply then_callback_stage_kept|by apply update_stage_stage_kept].
Qed.

Lemma step_stage_kept hostname ev s s' k a :
  activations s !! k = Some a → a_stage a = Finished →
  step hostname ev s = Some s' → stage_kept k s s'.
Proof.
  intros Ha Hfin Hstep. destruct ev; simpl in Hstep.
  - injection Hstep as <-. apply stage_kept_same. unfold onMessage_analyzeContent.
    by destruct s, skipped.
  - destruct (pending_ignore s !! rid) as [rq|]; [|done]. injection Hstep as <-.
    eapply stage_kept_trans;
      [apply (stage_kept_same k s (set_pending_ignore (delete rid (pending_ignore s)) s));
       by destruct s|].
    unfold on_ignore_checked.
    destruct (shouldIgnoreUrl _ _ _); [apply stage_kept_same; by destruct s|].
    destruct (DETECTION_CACHE _ !! _); [apply stage_kept_same; by destruct s|].
    apply start_analysis_stage_kept.
  - destruct (activations s !! k0) as [a0|] eqn:Ha0; [|done]. simpl in Hstep.
    destruct (a_stage a0) eqn:Hst0; try done. injection Hstep as <-.
    apply then_callback_stage_kept. intros ->. congruence.
  - destruct (activations s !! k0) as [a0|] eqn:Ha0; [|done]. simpl in Hstep.
    destruct (a_stage a0) eqn:Hst0; try done. injection Hstep as <-.
    apply tabs_get_callback_stage_kept. intros ->. congruence.
  - case_bool_decide; [|done]. injection Hstep as <-. apply stage_kept_same.
    rewrite watchdog_callback_activations. by destruct s.
  - injection Hstep as <-. unfold onRemoved.
    eapply stage_kept_trans; [apply (cancel_and_delete_stage_kept k tabId)|].
    apply stage_kept_same. by destruct (cancel_and_delete tabId s).
  - injection Hstep as <-. unfold onUpdated. case_bool_decide; [|by apply stage_kept_same].
    destruct (is_system_url tabUrl); [apply stage_kept_same; by destruct s|].
    eapply stage_kept_trans; [apply (cancel_and_delete_stage_kept k tabId)|].
    apply stage_kept_same. by destruct (cancel_and_delete tabId s).
  - injection Hstep as <-. apply stage_kept_same. by destruct s.
  - destruct (inits s !! i) as [[]|]; try done. injection Hstep as <-.
    apply stage_kept_same. unfold initializeAI_loaded.
    destruct (bool_decide (stored_activeMode s = Some "compatibility")); by destruct s.
  - destruct (inits s !! i) as [[]|]; try done. injection Hstep as <-.
    apply stage_kept_same. unfold initializeAI_done. by destruct s, o as [[?|]|].
  - injection Hstep as <-. apply stage_kept_same. by destruct s.
  - injection Hstep as <-. apply stage_kept_same. unfold cleanup.
    destruct s; simpl; by case_bool_decide.
  - injection Hstep as <-. apply stage_kept_same. by destruct s.
Qed.

Lemma responses_of_same rid s s' :
  responses s' = responses s → responses_of rid s' = responses_of rid s.
Proof. unfold responses_of. by intros ->. Qed.

Lemma responses_of_other rid rid0 r s s' :
  responses s' = (responses s ++ [(rid0, r)])%list → rid0 ≠ rid →
  responses_of rid s' = responses_of rid s.
Proof.
  unfold responses_of. intros -> Hne.
  rewrite filter_app, filter_cons, filter_nil. simpl.
  rewrite decide_False by done. by rewrite app_nil_r.
Qed.

Lemma start_analysis_responses rq url cacheKey now s :
  responses (start_analysis rq url cacheKey now s) = responses s.
Proof.
  unfold start_analysis.
  destruct (register_tracker_effect rq url cacheKey now s) as (_ & _ & _ & _ & _ & Er & _).
  destruct (analyzeContent _ _ _).
  - match goal with |- responses (then_callback ?k ?r ?w) = _ =>
      destruct (then_callback_outputs k r w) as (_ & _ & _ & ->) end. done.
  - match goal with |- responses (update_stage ?k ?st ?w) = _ =>
      destruct (update_stage_outputs k st w) as (_ & _ & _ & ->) end. done.
Qed.

Lemma step_responses_finished hostname ev s s' k a :
  InvA s → InvB s →
  activations s !! k = Some a → a_stage a = Finished → k ∉ timers s →
  step hostname ev s = Some s' →
  responses_of (a_rid a) s' = responses_of (a_rid a) s.
Proof.
  intros HA HB Ha Hfin Hk Hstep.
  pose proof HB as ((Hr1 & Hr2 & Hr3 & Hr4) & _).
  destruct (Hr1 _ _ Ha) as [Hlt Hnp].
  destruct ev; simpl in Hstep.
  - injection Hstep as <-. unfold onMessage_analyzeContent. destruct skipped.
    + apply (responses_of_other _ (next_rid s) (skip_result s)); [by destruct s|lia].
    + apply responses_of_same. by destruct s.
  - destruct (pending_ignore s !! rid) as [rq|] eqn:Hp; [|done]. injection Hstep as <-.
    destruct (Hr3 _ _ Hp) as (_ & Hid & _).
    assert (rq_id rq ≠ a_rid a) as Hne by congruence.
    unfold on_ignore_checked.
    destruct (shouldIgnoreUrl _ _ _).
    { eapply responses_of_other; [|exact Hne]. by destruct s. }
    destruct (DETECTION_CACHE _ !! _).
    { eapply responses_of_other; [|exact Hne]. by destruct s. }
    apply responses_of_same. rewrite start_analysis_responses. by destruct s.
  - destruct (activations s !! k0) as [a0|] eqn:Ha0; [|done]. simpl in Hstep.
    destruct (a_stage a0) eqn:Hst0; try done. injection Hstep as <-.
    apply responses_of_same.
    match goal with |- responses (then_callback ?k ?r ?w) = _ =>
      by destruct (then_callback_outputs k r w) as (_ & _ & _ & ->) end.
  - destruct (activations s !! k0) as [a0|] eqn:Ha0; [|done]. simpl in Hstep.
    destruct (a_stage a0) eqn:Hst0; try done. injection Hstep as <-.
    assert (a_rid a0 ≠ a_rid a) as Hne.
    { intros E. assert (k0 = k) as -> by eauto. congruence. }
    destruct (decide (tab = Some (a_url a0))) as [->|Htab].
    + eapply responses_of_other; [|exact Hne].
      by destruct (tabs_get_callback_commits k0 result now s a0 Ha0) as (_ & _ & ->).
    + apply responses_of_same.
      by destruct (tabs_get_callback_discards k0 result tab now s a0 Ha0 Htab)
        as (_ & _ & _ & ->).
  - case_bool_decide as Hin; [|done]. injection Hstep as <-.
    pose proof HA as (_ & Htm & _). destruct (Htm _ Hin) as (a0 & Ha0 & Hcan).
    assert (a_rid a0 ≠ a_rid a) as Hne.
    { intros E. assert (k0 = k) as -> by eauto. done. }
    eapply responses_of_other; [|exact Hne].
    destruct (watchdog_callback_fires k0 (set_timers (timers s ∖ {[k0]}) s) a0)
      as (_ & -> & _); [by destruct s..|]. by destruct s.
  - injection Hstep as <-. apply responses_of_same. unfold onRemoved.
    destruct (cancel_and_delete_frame tabId s) as (_ & _ & _ & _ & Er & _). revert Er.
    by destruct (cancel_and_delete tabId s).
  - injection Hstep as <-. apply responses_of_same. unfold onUpdated.
    case_bool_decide; [|done]. destruct (is_system_url tabUrl); [by destruct s|].
    destruct (cancel_and_delete_frame tabId s) as (_ & _ & _ & _ & Er & _). revert Er.
    by destruct (cancel_and_delete tabId s).
  - injection Hstep as <-. apply responses_of_same. by destruct s.
  - destruct (inits s !! i) as [[]|]; try done. injection Hstep as <-.
    apply responses_of_same. unfold initializeAI_loaded.
    destruct (bool_decide (stored_activeMode s = Some "compatibility")); by destruct s.
  - destruct (inits s !! i) as [[]|]; try done. injection Hstep as <-.
    apply responses_of_same. unfold initializeAI_done. by destruct s, o as [[?|]|].
  - injection Hstep as <-. apply responses_of_same. by destruct s.
  - injection Hstep as <-. apply responses_of_same. unfold cleanup.
    destruct s; simpl; by case_bool_decide.
  - injection Hstep as <-. apply responses_of_same. by destruct s.
Qed.

Lemma finished_forever_quiet hostname evs s s' k a :
  InvA s → InvB s →
  activations s !! k = Some a → a_stage a = Finished → k ∉ timers s →
  run hostname evs s = Some s' →
  responses_of (a_rid a) s' = responses_of (a_rid a) s.
Proof.
  revert s a. induction evs as [|ev evs IH]; intros s a HA HB Ha Hfin Hk Hrun;
    simpl in Hrun.
  - by injection Hrun as <-.
  - destruct (step hostname ev s) as [s1|] eqn:Hstep; [|done]. simpl in Hrun.
    destruct (step_stage_kept _ _ _ _ _ _ Ha Hfin Hstep a Ha) as (a1 & Ha1 & Hst1).
    destruct (step_evolves _ _ _ _ Hstep k a Ha) as (a1' & Ha1' & Hrid & _).
    assert (a1' = a1) as -> by congruence.
    assert (k ∉ timers s1) as Hk1.
    { destruct (step_bookkeeping _ _ _ _ Hstep) as (_ & _ & _ & Htm).
      intros Hin. destruct (Htm _ Hin) as [Hin'|Hlen]; [done|].
      apply lookup_lt_Some in Ha. lia. }
    rewrite <- (step_responses_finished _ _ _ _ _ _ HA HB Ha Hfin Hk Hstep).
    rewrite <- Hrid. eapply (IH s1); [by eapply step_InvA|by eapply step_InvB|done| |done..].
    by rewrite Hst1.
Qed.

(** ** The coordinator's answers *)


